(** * devspace [up]: orchestration and cluster-interaction engine

    A shallow embedding of [cmd/up.go] and of
    [pkg/devspace/clients/kubectl/client.go], followed by the properties
    the specification states about them.

    Layout of the development:
    - [Go]       the parts of the Go runtime the code relies on
                 (machine integers, [strconv], [time]);
    - [K8s]      the Kubernetes API objects the code inspects;
    - [Kubectl]  [client.go]: pod status derivation, running-pod lookup;
    - [Up]       [up.go]: the [up] command, written in a small monad
                 that threads the command state, the log and fatal exits;
    - [ExecSys]  the goroutines of [Exec]/[ExecBuffered] as a
                 transition system;
    - [Client]   [client.go]: the minikube check, the pods of a
                 deployment;
    - [Terms]    the terms in which the further properties are stated;
    - the theorems: the properties the specification states, then
      further properties of the code. *)

From Stdlib Require Import ZArith String Ascii Decimal DecimalString Lia.
From Stdlib Require Import Permutation.
From stdpp Require Import base option list gmap strings.

#[local] Open Scope string_scope.
#[local] Open Scope list_scope.
#[local] Open Scope Z_scope.

(* ===================================================================== *)
(** * The Go runtime *)
(* ===================================================================== *)

Module Go.

(** ** Machine integers: a [w]-bit signed integer is a [Z] in
    [-2^(w-1), 2^(w-1)), arithmetic wraps around. *)

Definition wrap (w : Z) (x : Z) : Z :=
  (x + 2 ^ (w - 1)) mod 2 ^ w - 2 ^ (w - 1).

Definition int64_min : Z := - 2 ^ 63.
Definition int64_max : Z := 2 ^ 63 - 1.

(** [a - b] on [int64] (also on [time.Duration], which is an [int64]). *)
Definition sub64 (a b : Z) : Z := wrap 64 (a - b).

(** ** [strconv] *)

(** [strconv.Itoa], also what [fmt.Sprintf] prints for [%d]. *)
Definition Itoa (n : Z) : string := NilZero.string_of_int (Z.to_int n).

(** A non-empty string of decimal digits, as a number. *)
Definition parseDigits (s : string) : option Z :=
  match s with
  | EmptyString => None
  | _ => Z.of_uint <$> NilEmpty.uint_of_string s
  end.

(** [strconv.Atoi] on a 64-bit platform: an optional sign followed by
    decimal digits.  The pair is the value and whether [err == nil]:
    a syntax error gives [0], a number out of range gives the nearest
    bound of [int64] (both with an error). *)
Definition Atoi (s : string) : Z * bool :=
  let signed (neg : bool) (digits : string) :=
    match parseDigits digits with
    | None => (0, false)
    | Some n =>
        let v := if neg then - n else n in
        if v <? int64_min then (int64_min, false)
        else if int64_max <? v then (int64_max, false)
        else (v, true)
    end in
  match s with
  | String "-" rest => signed true rest
  | String "+" rest => signed false rest
  | _ => signed false s
  end.

(** ** Errors: a value of [errors.New] or [fmt.Errorf], or an API
    status error ([apimachinery]'s [*StatusError]) with the reason the
    API server gave. *)
Inductive error : Type :=
| errorString (msg : string)
| StatusError (reason : string) (msg : string).

Definition Error (e : error) : string :=
  match e with
  | errorString msg => msg
  | StatusError _ msg => msg
  end.

(** [strings.TrimPrefix] *)
Definition TrimPrefix (s prefix : string) : string :=
  if String.prefix prefix s
  then substring (String.length prefix) (String.length s - String.length prefix) s
  else s.

(** [strings.Join] *)
Fixpoint Join (elems : list string) (sep : string) : string :=
  match elems with
  | [] => ""
  | [e] => e
  | e :: rest => e +:+ sep +:+ Join rest sep
  end.

(** ** [time] *)

(** [time.Duration]: a count of nanoseconds in an [int64]. *)
Definition Second : Z := 1000000000.

(** [time.Time] without a monotonic reading: the instant, as seconds
    since the Unix epoch and nanoseconds within the second, and the
    offset of the location the time is displayed in (seconds east of
    UTC). *)
Record Time : Type := mkTime {
  unixSec : Z;
  nsec : Z;
  zoneOffset : Z
}.

(** The zero value [time.Time{}]: January 1, year 1, 00:00:00 UTC. *)
Definition zeroTime : Time := mkTime (-62135596800) 0 0.

(** [t.Equal(u)]: the same instant, whatever the locations. *)
Definition Equal (t u : Time) : bool :=
  (unixSec t =? unixSec u) && (nsec t =? nsec u).

(** *** The layout [time.RFC3339Nano],
    ["2006-01-02T15:04:05.999999999Z07:00"] *)

(** [appendInt]: decimal, zero-padded to [width] digits, sign first. *)
Fixpoint zeros (n : nat) : string :=
  match n with O => "" | S n' => String "0" (zeros n') end.

Definition padInt (x : Z) (width : nat) : string :=
  let digits := Itoa (Z.abs x) in
  (if x <? 0 then "-" else "") +:+
  zeros (width - String.length digits) +:+ digits.

(** Days since the Unix epoch to the civil date (proleptic Gregorian
    calendar), and back. *)
Definition civilFromDays (days : Z) : Z * Z * Z :=
  let z := days + 719468 in
  let era := z / 146097 in
  let doe := z - era * 146097 in
  let yoe := (doe - doe / 1460 + doe / 36524 - doe / 146096) / 365 in
  let doy := doe - (365 * yoe + yoe / 4 - yoe / 100) in
  let mp := (5 * doy + 2) / 153 in
  let d := doy - (153 * mp + 2) / 5 + 1 in
  let m := if mp <? 10 then mp + 3 else mp - 9 in
  let y := yoe + era * 400 + (if m <=? 2 then 1 else 0) in
  (y, m, d).

Definition daysFromCivil (y m d : Z) : Z :=
  let y' := if m <=? 2 then y - 1 else y in
  let era := y' / 400 in
  let yoe := y' - era * 400 in
  let doy := (153 * (if 2 <? m then m - 3 else m + 9) + 2) / 5 + d - 1 in
  let doe := yoe * 365 + yoe / 4 - yoe / 100 + doy in
  era * 146097 + doe - 719468.

(** [formatNano] with trimming: the fraction of a second, without its
    trailing zeros, and nothing at all when it is zero. *)
Fixpoint trimZeros (rev_digits : list ascii) : list ascii :=
  match rev_digits with
  | "0"%char :: rest => trimZeros rest
  | _ => rev_digits
  end.

Definition formatNano (ns : Z) : string :=
  match trimZeros (reverse (list_ascii_of_string (padInt ns 9))) with
  | [] => ""
  | ds => String "." (string_of_list_ascii (reverse ds))
  end.

(** The zone, for the layout element ["Z07:00"]. *)
Definition formatZone (offset : Z) : string :=
  if offset =? 0 then "Z"
  else
    let zone := Z.quot offset 60 in
    (if zone <? 0 then "-" else "+") +:+
    padInt (Z.abs zone / 60) 2 +:+ ":" +:+ padInt (Z.abs zone mod 60) 2.

(** [t.Format(time.RFC3339Nano)] *)
Definition FormatRFC3339Nano (t : Time) : string :=
  let abs := unixSec t + zoneOffset t in
  let '(y, m, d) := civilFromDays (abs / 86400) in
  let sod := abs mod 86400 in
  padInt y 4 +:+ "-" +:+ padInt m 2 +:+ "-" +:+ padInt d 2 +:+ "T" +:+
  padInt (sod / 3600) 2 +:+ ":" +:+ padInt (sod mod 3600 / 60) 2 +:+ ":" +:+
  padInt (sod mod 60) 2 +:+ formatNano (nsec t) +:+ formatZone (zoneOffset t).

(** [time.Parse(time.RFC3339Nano, s)] on the strings [FormatRFC3339Nano]
    writes (four-digit year, two-digit fields, an optional fraction of
    up to nine digits, ["Z"] or a signed ["hh:mm"] offset); [None] is a
    parse error.  The scenarios below parse with it; the theorems hold
    for whatever parser the world provides. *)
Definition strTake (n : nat) (s : string) : string := substring 0 n s.
Definition strDrop (n : nat) (s : string) : string :=
  substring n (String.length s - n) s.

Definition digitsN (n : nat) (s : string) : option Z :=
  if (String.length (strTake n s) =? n)%nat then parseDigits (strTake n s) else None.

Fixpoint spanDigits (s : string) : string * string :=
  match s with
  | String c rest =>
      if (("0" <=? c)%char && (c <=? "9")%char)%bool
      then let '(ds, tl) := spanDigits rest in (String c ds, tl)
      else ("", s)
  | EmptyString => ("", "")
  end.

Definition parseFraction (s : string) : option (Z * string) :=
  match s with
  | String "." rest =>
      let '(ds, tl) := spanDigits rest in
      let n := String.length ds in
      if ((1 <=? n) && (n <=? 9))%nat%bool
      then (fun v => (v * 10 ^ Z.of_nat (9 - n), tl)) <$> parseDigits ds
      else None
  | _ => Some (0, s)
  end.

Definition parseZone (s : string) : option Z :=
  match s with
  | "Z" => Some 0
  | String sign rest =>
      if ((String.length rest =? 5)%nat && (strTake 1 (strDrop 2 rest) =? ":")%string)%bool
      then
        hh ← digitsN 2 rest;
        mm ← digitsN 2 (strDrop 3 rest);
        if (sign =? "+")%char then Some ((hh * 60 + mm) * 60)
        else if (sign =? "-")%char then Some (- ((hh * 60 + mm) * 60))
        else None
      else None
  | EmptyString => None
  end.

Definition lit (c : string) (s : string) : option string :=
  if (strTake 1 s =? c)%string then Some (strDrop 1 s) else None.

Definition ParseRFC3339Nano (s : string) : option Time :=
  y ← digitsN 4 s;
  s ← lit "-" (strDrop 4 s);
  m ← digitsN 2 s;
  s ← lit "-" (strDrop 2 s);
  d ← digitsN 2 s;
  s ← lit "T" (strDrop 2 s);
  hh ← digitsN 2 s;
  s ← lit ":" (strDrop 2 s);
  mi ← digitsN 2 s;
  s ← lit ":" (strDrop 2 s);
  ss ← digitsN 2 s;
  '(ns, s) ← parseFraction (strDrop 2 s);
  off ← parseZone s;
  if ((1 <=? m) && (m <=? 12) && (1 <=? d) && (d <=? 31) &&
      (hh <? 24) && (mi <? 60) && (ss <? 60))%bool
  then Some (mkTime (daysFromCivil y m d * 86400 + hh * 3600 + mi * 60 + ss - off)
                    ns off)
  else None.

End Go.

(* ===================================================================== *)
(** * Kubernetes API objects ([k8s.io/api/core/v1]) *)
(* ===================================================================== *)

Module K8s.

(** Status reasons of the API server ([metav1.StatusReason]) and the
    errors the client builds from them. *)
Definition StatusReasonNotFound : string := "NotFound".
Definition StatusReasonAlreadyExists : string := "AlreadyExists".

Definition NewNotFound (kind name : string) : Go.error :=
  Go.StatusError StatusReasonNotFound (kind +:+ " " +:+ name +:+ " not found").
Definition NewAlreadyExists (kind name : string) : Go.error :=
  Go.StatusError StatusReasonAlreadyExists
                 (kind +:+ " " +:+ name +:+ " already exists").

(** [apierrors.IsAlreadyExists] *)
Definition IsAlreadyExists (err : Go.error) : bool :=
  match err with
  | Go.StatusError reason _ => (reason =? StatusReasonAlreadyExists)%string
  | _ => false
  end.

Record ContainerStateWaiting : Type := {
  Waiting_Reason : string
}.

Record ContainerStateTerminated : Type := {
  ExitCode : Z;            (* int32 *)
  Signal : Z;              (* int32 *)
  Terminated_Reason : string
}.

(** [ContainerState]: three pointers, at most one of them set by the
    API server; the code tests each for [nil]. *)
Record ContainerState : Type := {
  Waiting : option ContainerStateWaiting;
  Running : option unit;
  Terminated : option ContainerStateTerminated
}.

Record ContainerStatus : Type := {
  State : ContainerState;
  Ready : bool
}.

Record PodStatus : Type := {
  Phase : string;
  Reason : string;
  InitContainerStatuses : list ContainerStatus;
  ContainerStatuses : list ContainerStatus
}.

Record Container : Type := {
  Container_Name : string
}.

Record PodSpec : Type := {
  InitContainers : list Container;
  Containers : list Container
}.

Record Pod : Type := {
  Name : string;
  Namespace : string;
  Annotations : gmap string string;
  DeletionTimestamp : option Go.Time;
  Spec : PodSpec;
  Status : PodStatus
}.

(** [k8s.io/kubernetes/pkg/util/node.NodeUnreachablePodReason] *)
Definition NodeUnreachablePodReason : string := "NodeLost".

(** [*kubernetes.Clientset], as far as the code uses it.  The cluster
    is shared with other clients and changes under the program, so every
    request is answered for the moment it is issued: the first argument
    is the number of requests this client has issued before. *)
Record Clientset : Type := {
  Namespaces_Get : nat -> string -> option Go.error;
  Namespaces_Create : nat -> string -> option Go.error;
  (* [Pods(namespace).List(ListOptions{LabelSelector})] *)
  Pods_List : nat -> string -> string -> Go.error + list Pod;
  (* [Pods(namespace).Get(name)] *)
  Pods_Get : nat -> string -> string -> Go.error + Pod
}.

End K8s.

(* ===================================================================== *)
(** * [pkg/devspace/clients/kubectl/client.go] *)
(* ===================================================================== *)

Module Kubectl.
Import K8s.

(** ** [GetPodStatus] *)

(** The body of the loop over [pod.Status.InitContainerStatuses] for the
    container at index [i]: [None] is the [continue] of the first case,
    [Some reason] is one of the other cases, which set [reason] and
    [initializing] and leave the loop through the [break] after the
    [switch]. *)
Definition initContainerReason (pod : Pod) (i : nat) (container : ContainerStatus)
  : option string :=
  let default :=
    Some ("Init:" +:+ Go.Itoa (Z.of_nat i) +:+ "/" +:+
          Go.Itoa (Z.of_nat (length (InitContainers (Spec pod))))) in
  match Terminated (State container) with
  | Some terminated =>
      if ExitCode terminated =? 0 then None
      else if (String.length (Terminated_Reason terminated) =? 0)%nat then
        if negb (Signal terminated =? 0)
        then Some ("Init:Signal:" +:+ Go.Itoa (Signal terminated))
        else Some ("Init:ExitCode:" +:+ Go.Itoa (ExitCode terminated))
      else Some ("Init:" +:+ Terminated_Reason terminated)
  | None =>
      match Waiting (State container) with
      | Some waiting =>
          if ((0 <? String.length (Waiting_Reason waiting))%nat &&
              negb (Waiting_Reason waiting =? "PodInitializing")%string)%bool
          then Some ("Init:" +:+ Waiting_Reason waiting)
          else default
      | None => default
      end
  end.

(** The loop over the init containers, from index [i] on: the reason it
    sets, if it sets [initializing]. *)
Fixpoint initLoop (pod : Pod) (i : nat) (statuses : list ContainerStatus)
  : option string :=
  match statuses with
  | [] => None
  | container :: rest =>
      match initContainerReason pod i container with
      | None => initLoop pod (S i) rest
      | Some reason => Some reason
      end
  end.

(** The body of the loop over [pod.Status.ContainerStatuses], on the
    pair [(reason, hasRunning)]: an [if]/[else if] chain. *)
Definition waitingWithReason (state : ContainerState) : option string :=
  match Waiting state with
  | Some waiting =>
      if negb (Waiting_Reason waiting =? "")%string
      then Some (Waiting_Reason waiting) else None
  | None => None
  end.

Definition containerStep (acc : string * bool) (container : ContainerStatus)
  : string * bool :=
  let '(reason, hasRunning) := acc in
  match waitingWithReason (State container) with
  | Some waitingReason => (waitingReason, hasRunning)
  | None =>
      match Terminated (State container) with
      | Some terminated =>
          if negb (Terminated_Reason terminated =? "")%string
          then (Terminated_Reason terminated, hasRunning)
          else if negb (Signal terminated =? 0)
          then ("Signal:" +:+ Go.Itoa (Signal terminated), hasRunning)
          else ("ExitCode:" +:+ Go.Itoa (ExitCode terminated), hasRunning)
      | None =>
          if (Ready container &&
              bool_decide (is_Some (Running (State container))))%bool
          then (reason, true)
          else (reason, hasRunning)
      end
  end.

(** [GetPodStatus]: the regular containers are scanned from the last to
    the first. *)
Definition GetPodStatus (pod : Pod) : string :=
  let reason := Phase (Status pod) in
  let reason :=
    if negb (Reason (Status pod) =? "")%string then Reason (Status pod) else reason in
  let reason :=
    match initLoop pod 0 (InitContainerStatuses (Status pod)) with
    | Some reason => reason
    | None =>
        let '(reason, hasRunning) :=
          fold_left containerStep (reverse (ContainerStatuses (Status pod)))
                    (reason, false) in
        if ((reason =? "Completed")%string && hasRunning)%bool then "Running" else reason
    end in
  match DeletionTimestamp pod with
  | Some _ =>
      if (Reason (Status pod) =? NodeUnreachablePodReason)%string
      then "Unknown" else "Terminating"
  | None => reason
  end.

(** ** [GetFirstRunningPod], for the request number [now] *)
Definition GetFirstRunningPod (kubectl : Clientset) (now : nat)
    (labelSelector namespace : string) : Go.error + option Pod :=
  match Pods_List kubectl now namespace labelSelector with
  | inl err => inl err
  | inr items =>
      inr (find (fun pod => (GetPodStatus pod =? "Running")%string) items)
  end.

End Kubectl.

(* ===================================================================== *)
(** * [cmd/up.go] *)
(* ===================================================================== *)

Module Up.
Import K8s.

(** ** Configuration ([pkg/devspace/config/v1]), as far as [up] reads
    and writes it.  A pointer field the code tests for [nil] is an
    [option]; one it dereferences unguarded is taken as set. *)

Record BuildConfig : Type := {
  DockerfilePath : option string;
  ContextPath : option string;
  LatestTimestamp : option string
}.

Record ImageConfig : Type := {
  Image_Name : string;
  Tag : option string;
  Build : BuildConfig
}.

Definition setLatestTimestamp (imageConf : ImageConfig) (ts : string) : ImageConfig :=
  {| Image_Name := Image_Name imageConf;
     Tag := Tag imageConf;
     Build := {| DockerfilePath := DockerfilePath (Build imageConf);
                 ContextPath := ContextPath (Build imageConf);
                 LatestTimestamp := Some ts |} |}.

Definition setTag (imageConf : ImageConfig) (tag : string) : ImageConfig :=
  {| Image_Name := Image_Name imageConf;
     Tag := Some tag;
     Build := Build imageConf |}.

Record PortMapping : Type := {
  LocalPort : Z;
  RemotePort : Z
}.

Record PortForwardingConfig : Type := {
  ResourceType : string;
  (* a Go map: the pairs in the order this run iterates over them *)
  LabelSelector : list (string * string);
  PortForwarding_Namespace : option string;
  PortMappings : list PortMapping
}.

(** A path to keep in sync ([v1.SyncConfig]). *)
Record SyncPath : Type := {
  LocalSubPath : string;
  ContainerPath : string;
  (* a Go map: the pairs in the order this run iterates over them *)
  Sync_LabelSelector : list (string * string);
  Sync_Namespace : option string;
  ExcludePaths : option (list string);
  DownloadExcludePaths : option (list string);
  UploadExcludePaths : option (list string)
}.

Record RegistryAuth : Type := {
  Username : option string;
  Password : option string
}.

Record RegistryConfig : Type := {
  URL : option string;
  Auth : option RegistryAuth
}.

Record Config : Type := {
  Release_Name : string;
  Release_Namespace : string;
  (* [*config.Images], a Go map: in the order this run iterates over it *)
  Images : list (string * ImageConfig);
  PortForwarding : list PortForwardingConfig;
  (* [*config.DevSpace.Sync] *)
  Sync : list SyncPath;
  (* [*config.Registries], a Go map: in the order this run iterates
     over it *)
  Registries : list (string * RegistryConfig);
  (* [config.Services.InternalRegistry != nil] *)
  InternalRegistry : bool
}.

Record UpCmdFlags : Type := {
  tiller : bool;
  open : string;
  initRegistries : bool;
  build : bool;
  shell : string;
  sync : bool;
  deploy : bool;
  portforwarding : bool;
  noSleep : bool
}.

Definition UpFlagsDefault : UpCmdFlags := {|
  tiller := true;
  open := "cmd";
  initRegistries := true;
  build := true;
  shell := "";
  sync := true;
  deploy := false;
  portforwarding := true;
  noSleep := false
|}.

(** [UpCmd]; the helm client and the container are handles of the
    collaborators below and carry nothing the code looks at. *)
Record UpCmd : Type := {
  flags : UpCmdFlags;
  kubectl : option Clientset;
  workdir : string;
  pod : option Pod
}.

(** [synctool.SyncConfig], as [startSync] fills it in. *)
Record SyncConfig : Type := {
  Sync_Kubectl : Clientset;
  Sync_Pod : Pod;
  Sync_Container : Container;
  WatchPath : string;
  DestPath : string;
  Sync_ExcludePaths : list string;
  Sync_DownloadExcludePaths : list string;
  Sync_UploadExcludePaths : list string
}.

(** ** The world the command runs in: the file system, the library
    calls the code makes and the collaborators it drives (build
    engines, helm, sync, terminal), each by what it answers. *)

Record FileInfo : Type := {
  ModTime : Go.Time
}.

Record World : Type := {
  os_Getwd : Go.error + string;
  os_Stat : string -> Go.error + FileInfo;
  filepath_Join : string -> string -> string;
  (* [time.Parse(time.RFC3339Nano, _)] and [_.Format(time.RFC3339Nano)] *)
  time_Parse : string -> Go.Time * option Go.error;
  time_Format : Go.Time -> string;
  configutil_ConfigExists : bool;
  kubectl_NewClient : Go.error + Clientset;
  helmClient_NewClient : option Go.error;
  (* [registry.InitInternalRegistry], which gets the entry of the
     internal registry by pointer: the error it returns and the entry as
     it leaves it *)
  registry_InitInternalRegistry : RegistryConfig -> option Go.error * RegistryConfig;
  (* [registry.CreatePullSecret], for the namespace, the registry URL,
     the user name, the password and the e-mail address *)
  registry_CreatePullSecret :
    string -> string -> string -> string -> string -> option Go.error;
  (* [--build] given on the command line: [Flags().Changed] *)
  build_Changed : bool;
  randutil_GenerateRandomString : string -> Go.error + string;
  (* registry lookup, engine set-up, authentication, build and push of
     one image under a tag: the message of the fatal exit, if any (what
     these steps log on the way is not recorded) *)
  builder_run : string -> string -> option string;
  configutil_SaveConfig : option Go.error;
  (* [getRunningDevSpacePod], which is not part of these files: the
     pod and the error it returns *)
  getRunningDevSpacePod : option Pod * option Go.error;
  yamlutil_ReadYamlFromFile : string -> option Go.error;
  (* [InstallChartByPath]: the release version *)
  helm_InstallChartByPath : string -> string -> string -> Go.error + Z;
  (* [ForwardPorts] in its goroutine: does [readyChan] fire within the
     five seconds of the [select]? *)
  forward_ready : string -> list string -> bool;
  filepath_Abs : string -> Go.error + string;
  (* [syncConfig.Start()] *)
  syncConfig_Start : SyncConfig -> option Go.error;
  (* [kubectl.Exec] with a TTY, for the shell command given: the error
     it returns and whether that error is an [exec.CodeExitError] *)
  terminal_exec : list string -> option (Go.error * bool)
}.

(** ** What a run leaves behind, in order *)
Inductive Event : Type :=
| LogInfo (msg : string)
| LogWarn (msg : string)
| LogError (msg : string)
| LogDone (msg : string)
| LogStartWait (msg : string)
| LogStopWait
| Sleep (d : Z)
| CallInit
| CallBuilder (imageName tag : string)
| CallSaveConfig
| CallGetRunningDevSpacePod
| CallHelmInstall (releaseName releaseNamespace : string)
| CallForwardPorts (podName : string) (ports : list string)
(* [syncConfig.Start()] and [v.Stop()], with the pod and the two paths
   of the sync *)
| CallStartSync (podName watchPath destPath : string)
| CallStopSync (podName watchPath destPath : string)
(* [registry.InitInternalRegistry] and [registry.CreatePullSecret] *)
| CallInitInternalRegistry
| CallCreatePullSecret (namespace registryURL username password email : string)
| CallExec (podName container : string) (command : list string).

Record State : Type := {
  cmd : UpCmd;
  config : Config;
  now : nat;             (* requests issued to the cluster so far *)
  trace : list Event
}.

(** How a computation ends: it returns, or the process exits in
    [log.Fatal], or it panics, or (in this model only) a loop is cut
    off after the number of rounds it was given. *)
Inductive Outcome (A : Type) : Type :=
| Ret (a : A)
| Fatal (msg : string)
| Panic (msg : string)
| OutOfFuel.
Arguments Ret {A} a.
Arguments Fatal {A} msg.
Arguments Panic {A} msg.
Arguments OutOfFuel {A}.

Definition M (A : Type) : Type := State -> Outcome A * State.

Definition ret {A} (a : A) : M A := fun s => (Ret a, s).

Definition bind {A B} (m : M A) (f : A -> M B) : M B :=
  fun s =>
    match m s with
    | (Ret a, s') => f a s'
    | (Fatal msg, s') => (Fatal msg, s')
    | (Panic msg, s') => (Panic msg, s')
    | (OutOfFuel, s') => (OutOfFuel, s')
    end.

#[global] Instance M_ret : MRet M := @ret.
#[global] Instance M_bind : MBind M := fun A B f m => bind m f.

Definition get : M State := fun s => (Ret s, s).

(** The state after [events] were appended to what the run left behind. *)
Definition record (events : list Event) (s : State) : State :=
  {| cmd := cmd s; config := config s; now := now s;
     trace := trace s ++ events |}.
Definition emit (e : Event) : M unit := fun s => (Ret tt, record [e] s).
Definition fatal {A} (msg : string) : M A := fun s => (Fatal msg, s).
Definition panic {A} (msg : string) : M A := fun s => (Panic msg, s).
Definition outOfFuel {A} : M A := fun s => (OutOfFuel, s).

(** One request to the cluster: the number it is issued under. *)
Definition tick (s : State) : State :=
  {| cmd := cmd s; config := config s; now := S (now s); trace := trace s |}.
Definition request : M nat := fun s => (Ret (now s), tick s).

Definition withCmd (c : UpCmd) (s : State) : State :=
  {| cmd := c; config := config s; now := now s; trace := trace s |}.
Definition withConfig (c : Config) (s : State) : State :=
  {| cmd := cmd s; config := c; now := now s; trace := trace s |}.
Definition setCmd (c : UpCmd) : M unit := fun s => (Ret tt, withCmd c s).
Definition setConfig (c : Config) : M unit := fun s => (Ret tt, withConfig c s).

(** [cmd.pod = p], [cmd.kubectl = client], [cmd.workdir = dir] *)
Definition setPod (p : option Pod) : M unit :=
  s ← get;
  setCmd {| flags := flags (cmd s); kubectl := kubectl (cmd s);
            workdir := workdir (cmd s); pod := p |}.
Definition setKubectl (client : Clientset) : M unit :=
  s ← get;
  setCmd {| flags := flags (cmd s); kubectl := Some client;
            workdir := workdir (cmd s); pod := pod (cmd s) |}.
Definition setWorkdir (dir : string) : M unit :=
  s ← get;
  setCmd {| flags := flags (cmd s); kubectl := kubectl (cmd s);
            workdir := dir; pod := pod (cmd s) |}.

(** [defer d] around [body]: [d] runs when [body] returns or panics,
    not when the process exits in [log.Fatal]. *)
Definition defer {A} (d : M unit) (body : M A) : M A :=
  fun s =>
    match body s with
    | (Ret a, s') => (Ret a, snd (d s'))
    | (Panic msg, s') => (Panic msg, snd (d s'))
    | other => other
    end.

Fixpoint forM_ {A} (l : list A) (f : A -> M unit) : M unit :=
  match l with
  | [] => mret tt
  | x :: rest => f x;; forM_ rest f
  end.

Definition when (b : bool) (m : M unit) : M unit :=
  if b then m else mret tt.

(** [cmd.kubectl], a pointer: using it before [Run] has set it panics. *)
Definition getKubectl : M Clientset :=
  s ← get;
  match kubectl (cmd s) with
  | Some client => ret client
  | None => panic "invalid memory address or nil pointer dereference"
  end.

(** The state in which [Run] starts: [init] builds the command from its
    flags, nothing has been asked of the cluster or logged yet. *)
Definition initial (f : UpCmdFlags) (c : Config) : State := {|
  cmd := {| flags := f; kubectl := None; workdir := ""; pod := None |};
  config := c; now := 0; trace := []
|}.

(** ** Frames: what a computation may do to the state.  [respects R m]
    says that [m], however it ends, takes a state to one related by [R];
    [frame P keepPod] is the relation of states one of which follows the
    other with only events of [P] added to the trace and, if [keepPod]
    is set, [cmd.pod] left alone. *)
Definition respects {A} (R : State -> State -> Prop) (m : M A) : Prop :=
  forall s, R s (snd (m s)).

Definition frame (P : Event -> Prop) (keepPod : bool) (s s' : State) : Prop :=
  (exists events, trace s' = trace s ++ events /\ Forall P events) /\
  (keepPod = true -> pod (cmd s') = pod (cmd s)).

(** Three kinds of event tell the phases of [Run] apart: the call of a
    build engine, the lookup of a running pod, and the first thing
    [deployChart] does. *)
Definition deployStarted : Event := LogStartWait "Deploying helm chart".

Definition isBuilderCall (e : Event) : Prop :=
  exists imageName tag, e = CallBuilder imageName tag.

(** Events of the steps before the lookup (and of those before the
    build among them), of [deployChart], and of the steps after the
    decision. *)
Definition beforeLookup (e : Event) : Prop :=
  e <> CallGetRunningDevSpacePod /\ e <> deployStarted.
Definition duringSetup (e : Event) : Prop :=
  beforeLookup e /\ ~ isBuilderCall e.
Definition whileDeploying (e : Event) : Prop :=
  e <> CallGetRunningDevSpacePod /\ ~ isBuilderCall e.
Definition afterDecision (e : Event) : Prop :=
  e <> CallGetRunningDevSpacePod /\ e <> deployStarted /\ ~ isBuilderCall e.

(** What a step of the build phase adds to the trace, and that it gives
    [true] exactly when [re] was set before or it has called a build
    engine. *)
Definition buildStep (re : bool) (s : State) (r : Outcome bool * State) : Prop :=
  exists events,
    trace (snd r) = trace s ++ events /\
    Forall beforeLookup events /\
    forall rebuilt, fst r = Ret rebuilt ->
      (rebuilt = true <-> re = true \/ Exists isBuilderCall events).

Section Program.
Variable W : World.

(** ** [ensureNamespace] *)
Definition ensureNamespace : M (option Go.error) :=
  s ← get;
  let releaseNamespace := Release_Namespace (config s) in
  client ← getKubectl;
  t ← request;
  match Namespaces_Get client t releaseNamespace with
  | Some _ =>
      t ← request;
      match Namespaces_Create client t releaseNamespace with
      | Some err => mret (Some err)
      | None => mret None
      end
  | None => mret None
  end.

(** ** [shouldRebuild].  [imageConf] is a pointer in the source: the
    record comes back with the decision, and the caller stores it. *)
Definition shouldRebuild (imageConf : ImageConfig) (dockerfilePath : string)
    (buildFlagChanged : bool) : M (bool * ImageConfig) :=
  let dockerfileModTime := Go.zeroTime in       (* [var dockerfileModTime time.Time] *)
  let mustRebuild := true in
  '(mustRebuild, dockerfileModTime) ←
    match os_Stat W dockerfilePath with
    | inl err =>
        match LatestTimestamp (Build imageConf) with
        | None => fatal ("Dockerfile missing: " +:+ Go.Error err)
        | Some _ => mret (false, dockerfileModTime)
        end
    | inr dockerfileInfo =>
        let dockerfileModTime := ModTime dockerfileInfo in
        (* When user has not used -b or --build flags *)
        if negb buildFlagChanged then
          match LatestTimestamp (Build imageConf) with
          | Some latestTimestamp =>
              let latestBuildTime := fst (time_Parse W latestTimestamp) in
              (* only rebuild Docker image when Dockerfile has changed
                 since latest build *)
              mret (negb (Go.Equal latestBuildTime dockerfileModTime),
                    dockerfileModTime)
          | None => mret (mustRebuild, dockerfileModTime)
          end
        else mret (mustRebuild, dockerfileModTime)
    end;
  mret (mustRebuild,
        setLatestTimestamp imageConf (time_Format W dockerfileModTime)).

(** ** [buildImages] *)

(** The pointer [imageConf] points into the configuration: a write
    through it is a write to the entry of [imageName]. *)
Definition storeImage (imageName : string) (imageConf : ImageConfig) : M unit :=
  s ← get;
  let c := config s in
  setConfig {| Release_Name := Release_Name c;
               Release_Namespace := Release_Namespace c;
               Images := map (fun entry : string * ImageConfig =>
                                if (fst entry =? imageName)%string
                                then (imageName, imageConf) else entry)
                             (Images c);
               PortForwarding := PortForwarding c;
               Sync := Sync c;
               Registries := Registries c;
               InternalRegistry := InternalRegistry c |}.

Definition buildImage (buildFlagChanged : bool)
    (imageName : string) (imageConf : ImageConfig) : M bool :=
  s ← get;
  let dockerfilePath := "./Dockerfile" in
  let contextPath := "./" in
  let dockerfilePath := default dockerfilePath (DockerfilePath (Build imageConf)) in
  let contextPath := default contextPath (ContextPath (Build imageConf)) in
  let dockerfilePath :=
    filepath_Join W (workdir (cmd s)) (Go.TrimPrefix dockerfilePath ".") in
  let contextPath :=
    filepath_Join W (workdir (cmd s)) (Go.TrimPrefix contextPath ".") in
  '(rebuild, imageConf) ← shouldRebuild imageConf dockerfilePath buildFlagChanged;
  storeImage imageName imageConf;;
  if rebuild : bool then
    match randutil_GenerateRandomString W imageName with
    | inl randErr => fatal ("Image building failed: " +:+ Go.Error randErr)
    | inr imageTag =>
        emit (CallBuilder imageName imageTag);;
        match builder_run W imageName imageTag with
        | Some msg => fatal msg
        | None =>
            storeImage imageName (setTag imageConf imageTag);;
            emit CallSaveConfig;;
            match configutil_SaveConfig W with
            | Some err => fatal ("Config saving error: " +:+ Go.Error err)
            | None =>
                emit (LogDone ("Done building and pushing image '" +:+
                               imageName +:+ "'"));;
                mret true
            end
        end
    end
  else
    emit (LogInfo ("Skip building image '" +:+ imageName +:+ "'"));;
    mret false.

(** The loop of [buildImages] over the images left, [re] so far. *)
Fixpoint buildImagesLoop (buildFlagChanged : bool)
    (images : list (string * ImageConfig)) (re : bool) : M bool :=
  match images with
  | [] => mret re
  | (imageName, imageConf) :: rest =>
      rebuilt ← buildImage buildFlagChanged imageName imageConf;
      buildImagesLoop buildFlagChanged rest (if rebuilt : bool then true else re)
  end.

(** returns true when one of the images had to be rebuild *)
Definition buildImages (buildFlagChanged : bool) : M bool :=
  s ← get;
  buildImagesLoop buildFlagChanged (Images (config s)) false.

(** ** [waitForPodReady].  [fuel] bounds the rounds of the loop in the
    model; the loop itself runs while [maxWaitTime > 0]. *)

(** [len(pod.Status.ContainerStatuses) > 0 &&
    pod.Status.ContainerStatuses[0].Ready] *)
Definition firstContainerReady (pod : Pod) : bool :=
  match ContainerStatuses (Status pod) with
  | first :: _ => Ready first
  | [] => false
  end.

Fixpoint waitForPodReady (fuel : nat) (kubectl : Clientset) (pod : Pod)
    (maxWaitTime checkInterval : Z) : M (option Go.error) :=
  match fuel with
  | O => outOfFuel
  | S fuel' =>
      if 0 <? maxWaitTime then
        t ← request;
        match Pods_Get kubectl t (Namespace pod) (Name pod) with
        | inl err => mret (Some err)
        | inr pod' =>
            if firstContainerReady pod' then mret None
            else
              emit (Sleep checkInterval);;
              waitForPodReady fuel' kubectl pod
                              (Go.sub64 maxWaitTime checkInterval) checkInterval
        end
      else mret (Some (Go.errorString "Max wait time expired"))
  end.

(** The poll answered under request number [t] finds the pod, not ready. *)
Definition notReadyAt (kubectl : Clientset) (pod : Pod) (t : nat) : Prop :=
  exists pod' : Pod,
    Pods_Get kubectl t (Namespace pod) (Name pod) = inr pod' /\
    firstContainerReady pod' = false.

(** Readiness as the specification words it, to compare with what the
    code tests: the pod has a primary (first) container status, and that
    status reports ready. *)
Definition primaryContainerReady (pod : Pod) : Prop :=
  exists (primary : ContainerStatus) (others : list ContainerStatus),
    ContainerStatuses (Status pod) = primary :: others /\ Ready primary = true.

(** What is left of [maxWaitTime] after [j] polls that found the pod not
    ready: [maxWaitTime = maxWaitTime - checkInterval], [j] times, in
    [int64]. *)
Definition timeLeft (maxWaitTime checkInterval : Z) (j : nat) : Z :=
  Nat.iter j (fun left => Go.sub64 left checkInterval) maxWaitTime.

(** The state after [k] polls that found the pod not ready: [k] requests
    issued, [k] sleeps of [checkInterval]. *)
Fixpoint afterPolls (k : nat) (checkInterval : Z) (s : State) : State :=
  match k with
  | O => s
  | S k' => afterPolls k' checkInterval (record [Sleep checkInterval] (tick s))
  end.

(** ** [deployChart] *)

(** The zero value of [k8sv1.Pod], which [var selectedPod k8sv1.Pod]
    holds before the loop. *)
Definition zeroPod : Pod := {|
  Name := ""; Namespace := ""; Annotations := ∅; DeletionTimestamp := None;
  Spec := {| InitContainers := []; Containers := [] |};
  Status := {| Phase := ""; Reason := ""; InitContainerStatuses := [];
               ContainerStatuses := [] |}
|}.

(** The body of the loop over [podList.Items], on the pair
    [(highestRevision, selectedPod)], for the pod at index [i]. *)
Definition selectStep (acc : Z * Pod) (i : nat) (pod : Pod) : Z * Pod :=
  let '(highestRevision, selectedPod) := acc in
  let podRevision := default "" (Annotations pod !! "revision") in
  let podHasRevision := bool_decide (is_Some (Annotations pod !! "revision")) in
  let hasHigherRevision := (i =? 0)%nat in
  let hasHigherRevision :=
    if (negb hasHigherRevision && podHasRevision)%bool then
      let podRevisionInt := fst (Go.Atoi podRevision) in
      if highestRevision <? podRevisionInt then true else hasHigherRevision
    else hasHigherRevision in
  if hasHigherRevision
  then (fst (Go.Atoi podRevision), pod)
  else (highestRevision, selectedPod).

Fixpoint selectLoop (i : nat) (items : list Pod) (acc : Z * Pod) : Z * Pod :=
  match items with
  | [] => acc
  | pod :: rest => selectLoop (S i) rest (selectStep acc i pod)
  end.

(** One scan of a pod list: [highestRevision] and [selectedPod] after
    the loop. *)
Definition selectPod (items : list Pod) : Z * Pod :=
  selectLoop 0 items (0, zeroPod).

(** Does the pod carry the annotation [revision: r]? *)
Definition hasRevision (r : string) (pod : Pod) : bool :=
  bool_decide (Annotations pod !! "revision" = Some r).

(** The loop [for true] that waits for the release pod. *)
Fixpoint waitForRelease (fuel : nat) (releaseName releaseNamespace : string)
    (releaseRevision : Z) : M unit :=
  match fuel with
  | O => outOfFuel
  | S fuel' =>
      client ← getKubectl;
      t ← request;
      match Pods_List client t releaseNamespace ("release=" +:+ releaseName) with
      | inl err => panic ("Unable to list devspace pods: " +:+ Go.Error err)
      | inr items =>
          if (0 <? length items)%nat then
            let '(highestRevision, selectedPod) := selectPod items in
            let hasRevision :=
              bool_decide (is_Some (Annotations selectedPod !! "revision")) in
            if (negb hasRevision || (highestRevision =? releaseRevision))%bool then
              when (negb hasRevision)
                   (emit (LogWarn "Found pod without revision. Use annotation 'revision' for your pods to avoid this warning."));;
              setPod (Some selectedPod);;
              err ← waitForPodReady fuel client selectedPod
                                    (2 * 60 * Go.Second) (5 * Go.Second);
              match err with
              | Some err => fatal ("Error during waiting for pod: " +:+ Go.Error err)
              | None => mret tt
              end
            else
              emit (LogInfo "Waiting for release upgrade to complete.");;
              emit (Sleep (2 * Go.Second));;
              waitForRelease fuel' releaseName releaseNamespace releaseRevision
          else
            emit (LogInfo "Waiting for release to be deployed.");;
            emit (Sleep (2 * Go.Second));;
            waitForRelease fuel' releaseName releaseNamespace releaseRevision
      end
  end.

(** The values handed to helm are computed from the configuration and
    do not come back to the code; the call is recorded with the release
    it is for. *)
Definition deployChart (fuel : nat) : M unit :=
  s ← get;
  emit (LogStartWait "Deploying helm chart");;
  let releaseName := Release_Name (config s) in
  let releaseNamespace := Release_Namespace (config s) in
  let chartPath := "chart/" in
  match yamlutil_ReadYamlFromFile W (chartPath +:+ "values.yaml") with
  | Some err =>
      fatal ("Couldn't deploy chart, error reading from chart values " +:+
             chartPath +:+ "values.yaml: " +:+ Go.Error err)
  | None =>
      emit (CallHelmInstall releaseName releaseNamespace);;
      let appRelease := helm_InstallChartByPath W releaseName releaseNamespace chartPath in
      emit LogStopWait;;
      match appRelease with
      | inl err => fatal ("Unable to deploy helm chart: " +:+ Go.Error err)
      | inr version =>
          let releaseRevision := version in
          emit (LogDone ("Deployed helm chart (Release revision: " +:+
                         Go.Itoa releaseRevision +:+ ")"));;
          emit (LogStartWait "Waiting for release pod to become ready");;
          defer (emit LogStopWait)
                (waitForRelease fuel releaseName releaseNamespace releaseRevision;;
                 emit LogStopWait)
      end
  end.

(** ** [startPortForwarding] *)

(** The body of the loop, for one configured mapping.  [ForwardPorts]
    runs in a goroutine of its own; the [select] that follows sees
    either [readyChan] or the timer first. *)
Definition forwardPorts (portForwarding : PortForwardingConfig) : M unit :=
  if (ResourceType portForwarding =? "pod")%string then
    if (0 <? length (LabelSelector portForwarding))%nat then
      let labels :=
        map (fun kv : string * string => fst kv +:+ "=" +:+ snd kv)
            (LabelSelector portForwarding) in
      s ← get;
      let namespace := Release_Namespace (config s) in
      let namespace :=
        match PortForwarding_Namespace portForwarding with
        | Some ns => if negb (ns =? "")%string then ns else namespace
        | None => namespace
        end in
      client ← getKubectl;
      t ← request;
      match Kubectl.GetFirstRunningPod client t (Go.Join labels ", ") namespace with
      | inl err => emit (LogError ("Unable to list devspace pods: " +:+ Go.Error err))
      | inr (Some pod) =>
          let ports :=
            map (fun value => Go.Itoa (LocalPort value) +:+ ":" +:+
                              Go.Itoa (RemotePort value))
                (PortMappings portForwarding) in
          emit (CallForwardPorts (Name pod) ports);;
          (* Wait till forwarding is ready *)
          if forward_ready W (Name pod) ports
          then emit (LogDone ("Port forwarding started on " +:+ Go.Join ports ", "))
          else emit (LogError "Timeout waiting for port forwarding to start")
      | inr None => mret tt
      end
    else mret tt
  else
    emit (LogWarn "Currently only pod resource type is supported for portforwarding").

Definition startPortForwarding : M unit :=
  s ← get;
  forM_ (PortForwarding (config s)) forwardPorts.

(** ** [startSync].  The sync engine is a collaborator: the call of
    [syncConfig.Start()] is recorded with the pod and the two paths of
    the sync. *)

(** The body of the loop, for one sync path and the [syncConfigs]
    appended so far. *)
Definition startSyncPath (syncPath : SyncPath) (syncConfigs : list SyncConfig)
  : M (list SyncConfig) :=
  match filepath_Abs W (LocalSubPath syncPath) with
  | inl err =>
      panic ("Unable to resolve localSubPath " +:+ LocalSubPath syncPath +:+
             ": " +:+ Go.Error err)
  | inr absLocalPath =>
      (* Retrieve pod from label selector *)
      let labels :=
        map (fun kv : string * string => fst kv +:+ "=" +:+ snd kv)
            (Sync_LabelSelector syncPath) in
      s ← get;
      let namespace := Release_Namespace (config s) in
      let namespace :=
        match Sync_Namespace syncPath with
        | Some ns => if negb (ns =? "")%string then ns else namespace
        | None => namespace
        end in
      client ← getKubectl;
      t ← request;
      match Kubectl.GetFirstRunningPod client t (Go.Join labels ", ") namespace with
      | inl err => panic ("Unable to list devspace pods: " +:+ Go.Error err)
      | inr (Some pod) =>
          match Containers (Spec pod) with
          | [] => panic "index out of range"        (* [&pod.Spec.Containers[0]] *)
          | container :: _ =>
              let syncConfig := {|
                Sync_Kubectl := client;
                Sync_Pod := pod;
                Sync_Container := container;
                WatchPath := absLocalPath;
                DestPath := ContainerPath syncPath;
                Sync_ExcludePaths := default [] (ExcludePaths syncPath);
                Sync_DownloadExcludePaths :=
                  default [] (DownloadExcludePaths syncPath);
                Sync_UploadExcludePaths := default [] (UploadExcludePaths syncPath)
              |} in
              emit (CallStartSync (Name pod) absLocalPath (ContainerPath syncPath));;
              match syncConfig_Start W syncConfig with
              | Some err => fatal ("Sync error: " +:+ Go.Error err)
              | None =>
                  emit (LogDone ("Sync started on " +:+ absLocalPath +:+ " <-> " +:+
                                 ContainerPath syncPath));;
                  mret (syncConfigs ++ [syncConfig])
              end
          end
      | inr None => mret syncConfigs
      end
  end.

Fixpoint startSyncLoop (syncPaths : list SyncPath) (syncConfigs : list SyncConfig)
  : M (list SyncConfig) :=
  match syncPaths with
  | [] => mret syncConfigs
  | syncPath :: rest =>
      syncConfigs ← startSyncPath syncPath syncConfigs;
      startSyncLoop rest syncConfigs
  end.

Definition startSync : M (list SyncConfig) :=
  s ← get;
  startSyncLoop (Sync (config s)) [].

(** [v.Stop()], in the deferred function of [Run]. *)
Definition stopOf (v : SyncConfig) : Event :=
  CallStopSync (Name (Sync_Pod v)) (WatchPath v) (DestPath v).

(** ** [enterTerminal]: the terminal session is a collaborator. *)

Definition enterTerminal : M unit :=
  s ← get;
  let shell :=
    if (String.length (shell (flags (cmd s))) =? 0)%nat
    then ["sh"; "-c"; "command -v bash >/dev/null 2>&1 && exec bash || exec sh"]
    else [shell (flags (cmd s))] in
  match pod (cmd s) with
  | None => panic "invalid memory address or nil pointer dereference"
  | Some p =>
      match Containers (Spec p) with
      | [] => panic "index out of range"
      | container :: _ =>
          emit (CallExec (Name p) (Container_Name container) shell);;
          match terminal_exec W shell with
          | Some (terminalErr, isCodeExitError) =>
              if negb isCodeExitError
              then fatal ("Unable to start terminal session: " +:+
                          Go.Error terminalErr)
              else mret tt
          | None => mret tt
          end
      end
  end.

(** ** [Run] *)
Definition initHelm : M unit :=
  emit (LogStartWait "Initializing helm client");;
  match helmClient_NewClient W with
  | Some err => fatal ("Error initializing helm client: " +:+ Go.Error err)
  | None =>
      emit (LogDone "Initialized helm client");;
      emit LogStopWait
  end.

(** [cmd.initRegistries()]; the name without the prime is the flag. *)

(** [registryMap[name]] *)
Definition lookupRegistry (name : string) (registryMap : list (string * RegistryConfig))
  : option RegistryConfig :=
  snd <$> find (fun entry : string * RegistryConfig => (fst entry =? name)%string)
               registryMap.

(** The entry of a registry is a pointer: what the callee leaves in it
    is what the map holds afterwards. *)
Definition storeRegistry (name : string) (registryConf : RegistryConfig) : M unit :=
  s ← get;
  let c := config s in
  setConfig {| Release_Name := Release_Name c;
               Release_Namespace := Release_Namespace c;
               Images := Images c;
               PortForwarding := PortForwarding c;
               Sync := Sync c;
               Registries := map (fun entry : string * RegistryConfig =>
                                    if (fst entry =? name)%string
                                    then (name, registryConf) else entry)
                                 (Registries c);
               InternalRegistry := InternalRegistry c |}.

(** The body of the loop over the registries. *)
Definition createPullSecret (entry : string * RegistryConfig) : M unit :=
  let '(registryName, registryConf) := entry in
  match Auth registryConf with
  | Some auth =>
      match Password auth with
      | Some password =>
          s ← get;
          let username := default "" (Username auth) in
          let email := "noreply@devspace-cloud.com" in
          let registryURL := default "" (URL registryConf) in
          emit (LogStartWait ("Creating image pull secret for registry: " +:+
                              registryName));;
          emit (CallCreatePullSecret (Release_Namespace (config s)) registryURL
                                     username password email);;
          let err := registry_CreatePullSecret W (Release_Namespace (config s))
                       registryURL username password email in
          emit LogStopWait;;
          match err with
          | Some err =>
              fatal ("Failed to create pull secret for registry: " +:+ Go.Error err)
          | None => mret tt
          end
      | None => mret tt
      end
  | None => mret tt
  end.

Definition initInternalRegistry : M unit :=
  s ← get;
  match lookupRegistry "internal" (Registries (config s)) with
  | None => fatal "Registry config not found for internal registry"
  | Some registryConf =>
      emit (LogStartWait "Initializing internal registry");;
      emit CallInitInternalRegistry;;
      let '(err, registryConf) := registry_InitInternalRegistry W registryConf in
      storeRegistry "internal" registryConf;;
      emit LogStopWait;;
      match err with
      | Some err => fatal ("Internal registry error: " +:+ Go.Error err)
      | None =>
          emit CallSaveConfig;;
          match configutil_SaveConfig W with
          | Some err => fatal ("Saving config error: " +:+ Go.Error err)
          | None => emit (LogDone "Internal registry started")
          end
      end
  end.

Definition initRegistries' : M unit :=
  s ← get;
  when (InternalRegistry (config s)) initInternalRegistry;;
  s ← get;
  forM_ (Registries (config s)) createPullSecret.

(** [Run] from [mustRedeploy := false] on, and its last steps, the ones
    that connect to the pod.  [f] is [cmd.flags], which no step changes. *)
Definition connect (f : UpCmdFlags) : M unit :=
  when (portforwarding f) startPortForwarding;;
  if sync f
  then
    syncConfigs ← startSync;
    defer (forM_ syncConfigs (fun v => emit (stopOf v))) enterTerminal
  else enterTerminal.

Definition buildAndDeploy (f : UpCmdFlags) (fuel : nat) : M unit :=
  let mustRedeploy := false in
  mustRedeploy ←
    (if build f then buildImages (build_Changed W) else mret mustRedeploy);
  (* Check if we find a running release pod *)
  emit CallGetRunningDevSpacePod;;
  let '(pod, err) := getRunningDevSpacePod W in
  (if (bool_decide (is_Some err) || mustRedeploy || deploy f)%bool
   then deployChart fuel
   else setPod pod);;
  connect f.

Definition Run (fuel : nat) : M unit :=
  match os_Getwd W with
  | inl err => fatal ("Unable to determine current workdir: " +:+ Go.Error err)
  | inr dir =>
      setWorkdir dir;;
      when (negb (configutil_ConfigExists W)) (emit CallInit);;
      match kubectl_NewClient W with
      | inl err => fatal ("Unable to create new kubectl client: " +:+ Go.Error err)
      | inr client =>
          setKubectl client;;
          err ← ensureNamespace;
          match err with
          | Some err =>
              fatal ("Unable to create release namespace: " +:+ Go.Error err)
          | None =>
              initHelm;;
              s ← get;
              when (initRegistries (flags (cmd s))) initRegistries';;
              buildAndDeploy (flags (cmd s)) fuel
          end
      end
  end.

End Program.
End Up.

(* ===================================================================== *)
(** * [Exec] and [ExecBuffered]: the goroutines as a transition system *)
(* ===================================================================== *)

Module ExecSys.
Import Byte.
#[local] Open Scope list_scope.

(** What a call finds: the cluster configuration ([GetClientConfig]
    fails when [config.Cluster == nil]), the executor
    ([remotecommand.NewSPDYExecutor]) and the remote command.  The
    remote side of [exec.Stream] is a finite run of writes on the two
    output streams, ended by the error [Stream] returns ([None] is
    [nil]). *)
Inductive Stream : Type := Stdout | Stderr.

#[global] Instance Stream_eq_dec : EqDecision Stream.
Proof. solve_decision. Defined.

Record Env : Type := {
  config_Cluster : bool;                       (* [config.Cluster != nil] *)
  NewSPDYExecutor : option Go.error;
  remote_output : list (Stream * list byte);
  remote_error : option Go.error;
  (* [t.Safe(fn)] of the TTY path: the error of the attached session *)
  tty_session : option Go.error
}.

Definition GetClientConfig (env : Env) : option Go.error :=
  if config_Cluster env then None
  else Some (Go.errorString "Couldn't load cluster config, did you run devspace init").

(** An [os.Pipe]: the bytes written and not yet read, and whether the
    write end is closed. *)
Record Pipe : Type := {
  pending : list byte;
  closed : bool
}.

Definition emptyPipe : Pipe := {| pending := []; closed := false |}.

(** The goroutine [Exec] starts: inside [exec.Stream], then at each of
    the three [Close] calls, then at [errorChannel <- streamErr], then
    past it. *)
Inductive Worker : Type :=
| NoWorker
| Streaming (script : list (Stream * list byte)) (streamErr : option Go.error)
| CloseStdin (streamErr : option Go.error)
| CloseStdout (streamErr : option Go.error)
| CloseStderr (streamErr : option Go.error)
| Send (streamErr : option Go.error)
| WorkerDone.

(** A goroutine of [ExecBuffered]: not started yet, inside [io.Copy],
    at [streamDone.Done()], finished. *)
Inductive Drain : Type := NotStarted | Copying | Copied | Finished.

(** [ExecBuffered] itself: at [streamDone.Add(2)], at each of the two
    [go] statements, at [streamDone.Wait()], returned. *)
Inductive Main : Type :=
| AtAdd
| AtGo1
| AtGo2
| AtWait
| Returned (stdout stderr : list byte) (err : option Go.error)
| Crashed.

(** A channel of errors, by what has been sent on it and received; a
    [nil] channel is [None]. *)
Record Sys : Type := {
  worker : Worker;
  errorChannel : option (list (option Go.error));
  stdinClosed : bool;
  stdoutPipe : Pipe;
  stderrPipe : Pipe;
  drainOut : Drain;
  drainErr : Drain;
  stdoutBuffer : list byte;
  stderrBuffer : list byte;
  streamDone : nat;                   (* the counter of the [WaitGroup] *)
  main : Main
}.

(** ** [Exec], up to its [return].  Without a TTY it hands back the ends
    of three pipes, here the goroutine that feeds them and the channel
    that goroutine will send on; with a TTY it hands back no pipes, and
    the error of the session, once that is over. *)
Record Session : Type := {
  session_worker : Worker;
  session_errors : option (list (option Go.error))
}.

Definition Exec (env : Env) (tty : bool)
    (errorChannel : option (list (option Go.error)))
  : option Session * option Go.error :=
  match GetClientConfig env with
  | Some err => (None, Some err)
  | None =>
      match NewSPDYExecutor env with
      | Some err => (None, Some err)
      | None =>
          if tty then (None, tty_session env)
          else (Some {| session_worker :=
                          Streaming (remote_output env) (remote_error env);
                        session_errors := errorChannel |},
                None)
      end
  end.

(** ** [ExecBuffered], up to the point where other goroutines run
    beside it.  It calls [Exec] with [tty = false] and a [nil] channel. *)
Definition ExecBuffered (env : Env) : Sys :=
  let start (w : Worker) (errors : option (list (option Go.error))) (m : Main) := {|
    worker := w; errorChannel := errors; stdinClosed := false;
    stdoutPipe := emptyPipe; stderrPipe := emptyPipe;
    drainOut := NotStarted; drainErr := NotStarted;
    stdoutBuffer := []; stderrBuffer := [];
    streamDone := 0; main := m |} in
  match Exec env false None with
  | (_, Some execErr) => start NoWorker None (Returned [] [] (Some execErr))
  | (Some session, None) =>
      start (session_worker session) (session_errors session) AtAdd
  | (None, None) =>
      start NoWorker None Crashed        (* [io.Copy] from a [nil] reader *)
  end.

(** ** Steps of the goroutines *)

Definition pipeOf (st : Stream) (s : Sys) : Pipe :=
  match st with Stdout => stdoutPipe s | Stderr => stderrPipe s end.
Definition drainOf (st : Stream) (s : Sys) : Drain :=
  match st with Stdout => drainOut s | Stderr => drainErr s end.
Definition bufferOf (st : Stream) (s : Sys) : list byte :=
  match st with Stdout => stdoutBuffer s | Stderr => stderrBuffer s end.

Definition setWorker (w : Worker) (s : Sys) : Sys :=
  {| worker := w; errorChannel := errorChannel s; stdinClosed := stdinClosed s;
     stdoutPipe := stdoutPipe s; stderrPipe := stderrPipe s;
     drainOut := drainOut s; drainErr := drainErr s;
     stdoutBuffer := stdoutBuffer s; stderrBuffer := stderrBuffer s;
     streamDone := streamDone s; main := main s |}.
Definition setErrorChannel (c : option (list (option Go.error))) (s : Sys) : Sys :=
  {| worker := worker s; errorChannel := c; stdinClosed := stdinClosed s;
     stdoutPipe := stdoutPipe s; stderrPipe := stderrPipe s;
     drainOut := drainOut s; drainErr := drainErr s;
     stdoutBuffer := stdoutBuffer s; stderrBuffer := stderrBuffer s;
     streamDone := streamDone s; main := main s |}.
Definition setStdinClosed (s : Sys) : Sys :=
  {| worker := worker s; errorChannel := errorChannel s; stdinClosed := true;
     stdoutPipe := stdoutPipe s; stderrPipe := stderrPipe s;
     drainOut := drainOut s; drainErr := drainErr s;
     stdoutBuffer := stdoutBuffer s; stderrBuffer := stderrBuffer s;
     streamDone := streamDone s; main := main s |}.
Definition setPipe (st : Stream) (p : Pipe) (s : Sys) : Sys :=
  {| worker := worker s; errorChannel := errorChannel s; stdinClosed := stdinClosed s;
     stdoutPipe := match st with Stdout => p | Stderr => stdoutPipe s end;
     stderrPipe := match st with Stdout => stderrPipe s | Stderr => p end;
     drainOut := drainOut s; drainErr := drainErr s;
     stdoutBuffer := stdoutBuffer s; stderrBuffer := stderrBuffer s;
     streamDone := streamDone s; main := main s |}.
Definition setDrain (st : Stream) (d : Drain) (s : Sys) : Sys :=
  {| worker := worker s; errorChannel := errorChannel s; stdinClosed := stdinClosed s;
     stdoutPipe := stdoutPipe s; stderrPipe := stderrPipe s;
     drainOut := match st with Stdout => d | Stderr => drainOut s end;
     drainErr := match st with Stdout => drainErr s | Stderr => d end;
     stdoutBuffer := stdoutBuffer s; stderrBuffer := stderrBuffer s;
     streamDone := streamDone s; main := main s |}.
Definition setBuffer (st : Stream) (b : list byte) (s : Sys) : Sys :=
  {| worker := worker s; errorChannel := errorChannel s; stdinClosed := stdinClosed s;
     stdoutPipe := stdoutPipe s; stderrPipe := stderrPipe s;
     drainOut := drainOut s; drainErr := drainErr s;
     stdoutBuffer := match st with Stdout => b | Stderr => stdoutBuffer s end;
     stderrBuffer := match st with Stdout => stderrBuffer s | Stderr => b end;
     streamDone := streamDone s; main := main s |}.
Definition setStreamDone (n : nat) (s : Sys) : Sys :=
  {| worker := worker s; errorChannel := errorChannel s; stdinClosed := stdinClosed s;
     stdoutPipe := stdoutPipe s; stderrPipe := stderrPipe s;
     drainOut := drainOut s; drainErr := drainErr s;
     stdoutBuffer := stdoutBuffer s; stderrBuffer := stderrBuffer s;
     streamDone := n; main := main s |}.
Definition setMain (m : Main) (s : Sys) : Sys :=
  {| worker := worker s; errorChannel := errorChannel s; stdinClosed := stdinClosed s;
     stdoutPipe := stdoutPipe s; stderrPipe := stderrPipe s;
     drainOut := drainOut s; drainErr := drainErr s;
     stdoutBuffer := stdoutBuffer s; stderrBuffer := stderrBuffer s;
     streamDone := streamDone s; main := m |}.

(** What is left of a chunk goes back to the head of the script. *)
Definition unwritten (st : Stream) (rest_of_chunk : list byte)
    (script : list (Stream * list byte)) : list (Stream * list byte) :=
  match rest_of_chunk with
  | [] => script
  | _ => (st, rest_of_chunk) :: script
  end.

Section Steps.
(** The capacity of an [os.Pipe]: a write blocks while the pipe is full. *)
Variable capacity : nat.

Inductive step : Sys -> Sys -> Prop :=
(* the worker: [exec.Stream] copies the remote output into the pipes,
   a write taking as much of a chunk as the pipe has room for *)
| step_write s st written rest_of_chunk script streamErr :
    worker s = Streaming ((st, written ++ rest_of_chunk) :: script) streamErr ->
    written <> [] ->
    (length (pending (pipeOf st s)) + length written <= capacity)%nat ->
    step s (setWorker (Streaming (unwritten st rest_of_chunk script) streamErr)
              (setPipe st {| pending := pending (pipeOf st s) ++ written;
                             closed := closed (pipeOf st s) |} s))
| step_write_nothing s st script streamErr :
    worker s = Streaming ((st, []) :: script) streamErr ->
    step s (setWorker (Streaming script streamErr) s)
| step_stream_returns s streamErr :
    worker s = Streaming [] streamErr ->
    step s (setWorker (CloseStdin streamErr) s)
| step_close_stdin s streamErr :
    worker s = CloseStdin streamErr ->
    step s (setWorker (CloseStdout streamErr) (setStdinClosed s))
| step_close_stdout s streamErr :
    worker s = CloseStdout streamErr ->
    step s (setWorker (CloseStderr streamErr)
              (setPipe Stdout {| pending := pending (stdoutPipe s); closed := true |} s))
| step_close_stderr s streamErr :
    worker s = CloseStderr streamErr ->
    step s (setWorker (Send streamErr)
              (setPipe Stderr {| pending := pending (stderrPipe s); closed := true |} s))
(* [errorChannel <- streamErr]: a send on a [nil] channel blocks for ever *)
| step_send s streamErr received :
    worker s = Send streamErr ->
    errorChannel s = Some received ->
    step s (setWorker WorkerDone
              (setErrorChannel (Some (received ++ [streamErr])) s))
(* a drain: [io.Copy] reads what the pipe holds until it sees the end *)
| step_read s st got left :
    drainOf st s = Copying ->
    pending (pipeOf st s) = got ++ left ->
    got <> [] ->
    step s (setBuffer st (bufferOf st s ++ got)
              (setPipe st {| pending := left; closed := closed (pipeOf st s) |} s))
| step_eof s st :
    drainOf st s = Copying ->
    pending (pipeOf st s) = [] ->
    closed (pipeOf st s) = true ->
    step s (setDrain st Copied s)
| step_done s st :
    drainOf st s = Copied ->
    step s (setDrain st Finished (setStreamDone (streamDone s - 1) s))
(* [ExecBuffered] *)
| step_add s :
    main s = AtAdd ->
    step s (setMain AtGo1 (setStreamDone (streamDone s + 2) s))
| step_go1 s :
    main s = AtGo1 ->
    step s (setMain AtGo2 (setDrain Stdout Copying s))
| step_go2 s :
    main s = AtGo2 ->
    step s (setMain AtWait (setDrain Stderr Copying s))
| step_wait s :
    main s = AtWait ->
    streamDone s = 0%nat ->
    step s (setMain (Returned (stdoutBuffer s) (stderrBuffer s) None) s).

(** The states a run can be in. *)
Inductive reachable (s0 : Sys) : Sys -> Prop :=
| reachable_start : reachable s0 s0
| reachable_step s s' : reachable s0 s -> step s s' -> reachable s0 s'.

(** Every run from [s] reaches the [return] of [ExecBuffered]. *)
Inductive returns : Sys -> Prop :=
| returns_now s stdout stderr err :
    main s = Returned stdout stderr err -> returns s
| returns_later s :
    (exists s', step s s') ->
    (forall s', step s s' -> returns s') ->
    returns s.

(** ** Schedules: one interleaving, step by step.  An action names the
    goroutine that moves and, for a write or a read, the number of bytes
    it moves; [fire] is [None] where the goroutine cannot move so. *)
Inductive Action : Type :=
| Write (n : nat)
| StreamReturns
| CloseIn
| CloseOut
| CloseErr
| SendError
| Read (st : Stream) (n : nat)
| SeeEnd (st : Stream)
| CallDone (st : Stream)
| CallAdd
| Go1
| Go2
| CallWait.

Definition fire (a : Action) (s : Sys) : option Sys :=
  match a, worker s, main s with
  | Write n, Streaming ((st, chunk) :: script) streamErr, _ =>
      match n, chunk with
      | O, [] => Some (setWorker (Streaming script streamErr) s)
      | O, _ :: _ => None
      | S _, _ =>
          if ((n <=? length chunk) &&
              (length (pending (pipeOf st s)) + n <=? capacity))%nat
          then Some (setWorker
                       (Streaming (unwritten st (drop n chunk) script) streamErr)
                       (setPipe st {| pending := pending (pipeOf st s) ++ take n chunk;
                                      closed := closed (pipeOf st s) |} s))
          else None
      end
  | StreamReturns, Streaming [] streamErr, _ =>
      Some (setWorker (CloseStdin streamErr) s)
  | CloseIn, CloseStdin streamErr, _ =>
      Some (setWorker (CloseStdout streamErr) (setStdinClosed s))
  | CloseOut, CloseStdout streamErr, _ =>
      Some (setWorker (CloseStderr streamErr)
              (setPipe Stdout {| pending := pending (stdoutPipe s); closed := true |} s))
  | CloseErr, CloseStderr streamErr, _ =>
      Some (setWorker (Send streamErr)
              (setPipe Stderr {| pending := pending (stderrPipe s); closed := true |} s))
  | SendError, Send streamErr, _ =>
      match errorChannel s with
      | Some received =>
          Some (setWorker WorkerDone
                  (setErrorChannel (Some (received ++ [streamErr])) s))
      | None => None
      end
  | Read st n, _, _ =>
      match drainOf st s, n with
      | Copying, S _ =>
          if (n <=? length (pending (pipeOf st s)))%nat
          then Some (setBuffer st (bufferOf st s ++ take n (pending (pipeOf st s)))
                       (setPipe st {| pending := drop n (pending (pipeOf st s));
                                      closed := closed (pipeOf st s) |} s))
          else None
      | _, _ => None
      end
  | SeeEnd st, _, _ =>
      match drainOf st s, pending (pipeOf st s), closed (pipeOf st s) with
      | Copying, [], true => Some (setDrain st Copied s)
      | _, _, _ => None
      end
  | CallDone st, _, _ =>
      match drainOf st s with
      | Copied => Some (setDrain st Finished (setStreamDone (streamDone s - 1) s))
      | _ => None
      end
  | CallAdd, _, AtAdd => Some (setMain AtGo1 (setStreamDone (streamDone s + 2) s))
  | Go1, _, AtGo1 => Some (setMain AtGo2 (setDrain Stdout Copying s))
  | Go2, _, AtGo2 => Some (setMain AtWait (setDrain Stderr Copying s))
  | CallWait, _, AtWait =>
      match streamDone s with
      | O => Some (setMain (Returned (stdoutBuffer s) (stderrBuffer s) None) s)
      | S _ => None
      end
  | _, _, _ => None
  end.

Fixpoint run (schedule : list Action) (s : Sys) : option Sys :=
  match schedule with
  | [] => Some s
  | a :: rest =>
      match fire a s with
      | Some s' => run rest s'
      | None => None
      end
  end.

End Steps.

(** The bytes the remote command writes on a stream. *)
Definition written_on (st : Stream) (script : list (Stream * list byte)) : list byte :=
  concat (map snd (filter (fun chunk => fst chunk = st) script)).

(** The error of the set-up of a session, before any stream is opened:
    that of [GetClientConfig], or else that of the executor. *)
Definition setupError (env : Env) : option Go.error :=
  match GetClientConfig env with
  | Some err => Some err
  | None => NewSPDYExecutor env
  end.

(** ** What holds in every state of a run of [ExecBuffered env] whose
    set-up succeeded *)

(** The output the worker has still to write, and the error it holds. *)
Definition scriptOf (w : Worker) : list (Stream * list byte) :=
  match w with
  | Streaming script _ => script
  | _ => []
  end.

Definition heldError (w : Worker) : option (option Go.error) :=
  match w with
  | Streaming _ e | CloseStdin e | CloseStdout e | CloseStderr e | Send e => Some e
  | NoWorker | WorkerDone => None
  end.

(** Is the worker past the [Close] of the pipe of [st]? *)
Definition hasClosed (st : Stream) (w : Worker) : bool :=
  match st, w with
  | Stdout, (CloseStderr _ | Send _ | WorkerDone) => true
  | Stderr, (Send _ | WorkerDone) => true
  | _, _ => false
  end.

Definition started (d : Drain) : bool :=
  match d with NotStarted => false | _ => true end.
Definition sawEnd (d : Drain) : bool :=
  match d with Copied | Finished => true | _ => false end.
(** What a drain has still to take off the counter of the wait group. *)
Definition owes (d : Drain) : nat :=
  match d with Finished => 0 | _ => 1 end.

Record invariant (env : Env) (s : Sys) : Prop := {
  (* every byte written is in a buffer, in a pipe, or still to come *)
  inv_bytes : forall st,
    bufferOf st s ++ pending (pipeOf st s) ++ written_on st (scriptOf (worker s))
    = written_on st (remote_output env);
  inv_closed : forall st, closed (pipeOf st s) = hasClosed st (worker s);
  inv_end : forall st,
    sawEnd (drainOf st s) = true ->
    pending (pipeOf st s) = [] /\ closed (pipeOf st s) = true;
  inv_error : heldError (worker s) = Some (remote_error env);
  inv_channel : errorChannel s = None;
  inv_main :
    match main s with
    | AtAdd =>
        drainOut s = NotStarted /\ drainErr s = NotStarted /\ streamDone s = 0%nat
    | AtGo1 =>
        drainOut s = NotStarted /\ drainErr s = NotStarted /\ streamDone s = 2%nat
    | AtGo2 =>
        started (drainOut s) = true /\ drainErr s = NotStarted /\
        streamDone s = (owes (drainOut s) + 1)%nat
    | AtWait =>
        started (drainOut s) = true /\ started (drainErr s) = true /\
        streamDone s = (owes (drainOut s) + owes (drainErr s))%nat
    | Returned stdout stderr err =>
        drainOut s = Finished /\ drainErr s = Finished /\ streamDone s = 0%nat /\
        stdout = stdoutBuffer s /\ stderr = stderrBuffer s /\ err = None
    | Crashed => False
    end
}.

(** The steps a run has still to take at most. *)
Definition scriptCost (script : list (Stream * list byte)) : nat :=
  sum_list (map (fun chunk => S (2 * length (snd chunk))) script).

Definition workerCost (w : Worker) : nat :=
  match w with
  | Streaming script _ => 5 + scriptCost script
  | CloseStdin _ => 4
  | CloseStdout _ => 3
  | CloseStderr _ => 2
  | Send _ => 1
  | NoWorker | WorkerDone => 0
  end.

Definition drainCost (d : Drain) : nat :=
  match d with NotStarted => 3 | Copying => 2 | Copied => 1 | Finished => 0 end.

Definition mainCost (m : Main) : nat :=
  match m with
  | AtAdd => 4 | AtGo1 => 3 | AtGo2 => 2 | AtWait => 1
  | Returned _ _ _ | Crashed => 0
  end.

Definition cost (s : Sys) : nat :=
  workerCost (worker s) + length (pending (stdoutPipe s)) +
  length (pending (stderrPipe s)) + drainCost (drainOut s) +
  drainCost (drainErr s) + mainCost (main s).

End ExecSys.

(* ===================================================================== *)
(** * [client.go], continued: the minikube check and the pods of a
      deployment *)
(* ===================================================================== *)

Module Client.
Import K8s.

(** ** [IsMinikube].  The package variable [isMinikubeVar *bool] is
    threaded through the call; [rawConfig] is what
    [kubeConfig.RawConfig()] gives if the call gets to read it. *)
Record RawConfig : Type := {
  CurrentContext : string
}.

Definition IsMinikube (rawConfig : Go.error + RawConfig)
    (isMinikubeVar : option bool) : bool * option bool :=
  match isMinikubeVar with
  | None =>
      match rawConfig with
      | inl err => (false, isMinikubeVar)
      | inr cfg =>
          let isMinikube := (CurrentContext cfg =? "minikube")%string in
          (isMinikube, Some isMinikube)
      end
  | Some isMinikube => (isMinikube, isMinikubeVar)
  end.

(** The calls of one process, in order: what each returns, and the
    package variable after the last. *)
Fixpoint IsMinikube_calls (rawConfigs : list (Go.error + RawConfig))
    (isMinikubeVar : option bool) : list bool * option bool :=
  match rawConfigs with
  | [] => ([], isMinikubeVar)
  | rawConfig :: rest =>
      let '(answer, isMinikubeVar) := IsMinikube rawConfig isMinikubeVar in
      let '(answers, isMinikubeVar) := IsMinikube_calls rest isMinikubeVar in
      (answer :: answers, isMinikubeVar)
  end.

(** ** [GetPodsFromDeployment] *)

(** A deployment, by [deploy.Spec.Selector.MatchLabels]: a Go map, in
    the order this call iterates over it.  The selector is a pointer the
    code dereferences unguarded; it is taken as set. *)
Record Deployment : Type := {
  MatchLabels : list (string * string)
}.

(** [kubectl.ExtensionsV1beta1().Deployments(namespace).Get(name)],
    answered for the request number like the calls of [Clientset]. *)
Definition DeploymentsGetter : Type :=
  nat -> string -> string -> Go.error + Deployment.

(** The loop that builds [matchLabelString]. *)
Fixpoint matchLabelLoop (matchLabels : list (string * string))
    (matchLabelString : string) : string :=
  match matchLabels with
  | [] => matchLabelString
  | (k, v) :: rest =>
      let matchLabelString :=
        if (0 <? String.length matchLabelString)%nat
        then matchLabelString +:+ ","
        else matchLabelString in
      matchLabelLoop rest (matchLabelString +:+ (k +:+ "=" +:+ v))
  end.

(** The result, and the number of the next request. *)
Definition GetPodsFromDeployment (Deployments_Get : DeploymentsGetter)
    (kubectl : Clientset) (now : nat) (deployment namespace : string)
  : (Go.error + list Pod) * nat :=
  match Deployments_Get now namespace deployment with
  | inl err => (inl err, S now)          (* Deployment not there *)
  | inr deploy =>
      let matchLabels := MatchLabels deploy in
      if (length matchLabels <=? 0)%nat
      then (inl (Go.errorString "No matchLabels defined deployment"), S now)
      else
        let matchLabelString := matchLabelLoop matchLabels "" in
        (Pods_List kubectl (S now) namespace matchLabelString, S (S now))
  end.

End Client.

(* ===================================================================== *)
(** * Terms in which the further properties are stated *)
(* ===================================================================== *)

Module Terms.
Import K8s Up.

(** ** Container statuses *)

(** An init container that has terminated with exit code 0. *)
Definition succeeded (container : ContainerStatus) : Prop :=
  exists terminated,
    Terminated (K8s.State container) = Some terminated /\ ExitCode terminated = 0.

(** A container that is not terminated and not waiting with a reason. *)
Definition untroubled (container : ContainerStatus) : Prop :=
  Terminated (K8s.State container) = None /\
  forall waiting, Waiting (K8s.State container) = Some waiting ->
                  Waiting_Reason waiting = "".

(** What a terminated container shows: the reason of its termination
    or, where it has none, the signal that ended it or else its exit
    code. *)
Definition shown (reason : string) (terminated : ContainerStateTerminated) : Prop :=
  (reason <> "" /\ Terminated_Reason terminated = reason) \/
  (Terminated_Reason terminated = "" /\ Signal terminated <> 0 /\
   reason = "Signal:" +:+ Go.Itoa (Signal terminated)) \/
  (Terminated_Reason terminated = "" /\ Signal terminated = 0 /\
   reason = "ExitCode:" +:+ Go.Itoa (ExitCode terminated)).

(** A container that is waiting with [reason], or is not waiting with
    any reason, has terminated and shows [reason].  A container reports
    something exactly when it is not [untroubled]. *)
Definition reports (reason : string) (container : ContainerStatus) : Prop :=
  (reason <> "" /\
   exists waiting, Waiting (K8s.State container) = Some waiting /\
                   Waiting_Reason waiting = reason) \/
  ((forall waiting, Waiting (K8s.State container) = Some waiting ->
                    Waiting_Reason waiting = "") /\
   exists terminated, Terminated (K8s.State container) = Some terminated /\
                      shown reason terminated).

(** ** Release pods *)

(** The number [strconv.Atoi] reads from the revision annotation of a
    pod; [0] where the pod has none. *)
Definition revisionOf (pod : Pod) : Z :=
  fst (Go.Atoi (default "" (Annotations pod !! "revision"))).

(** A pod list on which a poll of [deployChart] waits on: it is empty,
    or the pod its scan selects carries a revision other than the
    expected one. *)
Definition stale (releaseRevision : Z) (items : list Pod) : Prop :=
  items = [] \/
  (is_Some (Annotations (snd (selectPod items)) !! "revision") /\
   fst (selectPod items) <> releaseRevision).

(** ** Images *)

(** The path at which [buildImages] looks for the Dockerfile of an
    image, for the work directory [workdir]. *)
Definition dockerfileOf (W : World) (workdir : string) (imageConf : ImageConfig)
  : string :=
  filepath_Join W workdir
    (Go.TrimPrefix (default "./Dockerfile" (DockerfilePath (Build imageConf))) ".").

(** An image whose Dockerfile is there and was last written at the
    instant stored as the time of the latest build. *)
Definition upToDate (W : World) (workdir : string) (imageConf : ImageConfig) : Prop :=
  exists (dockerfileInfo : FileInfo) (stored : string),
    os_Stat W (dockerfileOf W workdir imageConf) = inr dockerfileInfo /\
    LatestTimestamp (Build imageConf) = Some stored /\
    Go.Equal (fst (time_Parse W stored)) (ModTime dockerfileInfo) = true.

(** The line [buildImages] logs for an image it does not build. *)
Definition skipped (entry : string * ImageConfig) : Event :=
  LogInfo ("Skip building image '" +:+ fst entry +:+ "'").

(** An image every collaborator of whose build succeeds: the Dockerfile
    is there with [dockerfileInfo], the tag drawn is [imageTag], the
    build engine does its work. *)
Definition buildable (W : World) (imageTag : string -> string)
    (dockerfileInfo : ImageConfig -> FileInfo) (workdir : string)
    (entry : string * ImageConfig) : Prop :=
  os_Stat W (dockerfileOf W workdir (snd entry)) = inr (dockerfileInfo (snd entry)) /\
  randutil_GenerateRandomString W (fst entry) = inr (imageTag (fst entry)) /\
  builder_run W (fst entry) (imageTag (fst entry)) = None.

(** What [buildImages] leaves behind for an image it builds, and the
    entry of the image in the configuration afterwards. *)
Definition built (imageTag : string -> string) (entry : string * ImageConfig)
  : list Event :=
  [CallBuilder (fst entry) (imageTag (fst entry)); CallSaveConfig;
   LogDone ("Done building and pushing image '" +:+ fst entry +:+ "'")].

Definition rebuilt (W : World) (imageTag : string -> string)
    (dockerfileInfo : ImageConfig -> FileInfo) (entry : string * ImageConfig)
  : string * ImageConfig :=
  (fst entry,
   setTag (setLatestTimestamp (snd entry)
             (time_Format W (ModTime (dockerfileInfo (snd entry)))))
          (imageTag (fst entry))).

(** ** Events of a run *)

(** Lines of the log, and pauses. *)
Definition isLog (e : Event) : bool :=
  match e with
  | LogInfo _ | LogWarn _ | LogError _ | LogDone _ | LogStartWait _
  | LogStopWait | Sleep _ => true
  | _ => false
  end.

(** What a run with the flags [f] may do: start a build engine only
    with [build]; install the chart of the release (the call
    [InstallChartByPath] of [deployChart]) only with [build] or [deploy]
    or after a lookup of the running pod that failed; start the port
    forwarder only with [portforwarding]; start or stop a sync only with
    [sync]; initialise the internal registry or create a pull secret
    only with [initRegistries].  Nothing is said of the other events:
    the lines of the log, the init command and the lookup of the running
    pod, which every run may come to, the saving of the configuration
    and the terminal session. *)
Definition mayEmit (W : World) (f : UpCmdFlags) (e : Event) : bool :=
  match e with
  | CallBuilder _ _ => build f
  | CallHelmInstall _ _ =>
      build f || deploy f || bool_decide (is_Some (snd (getRunningDevSpacePod W)))
  | CallForwardPorts _ _ => portforwarding f
  | CallStartSync _ _ _ | CallStopSync _ _ _ => sync f
  | CallInitInternalRegistry | CallCreatePullSecret _ _ _ _ _ => initRegistries f
  | _ => true
  end.

(** What [initRegistries] can add to the trace. *)
Definition registryEvent (e : Event) : Prop :=
  match e with
  | CallInitInternalRegistry | CallCreatePullSecret _ _ _ _ _ | CallSaveConfig
  | LogStopWait | LogDone _ => True
  | LogStartWait msg => msg <> "Deploying helm chart"
  | _ => False
  end.

(** The stops owed to the syncs that the events started, in the order
    of their start, and whether an event is a start or a stop. *)
Definition stopsOwed (events : list Event) : list Event :=
  omap (fun e => match e with
                 | CallStartSync podName watchPath destPath =>
                     Some (CallStopSync podName watchPath destPath)
                 | _ => None
                 end) events.

Definition isStart (e : Event) : bool :=
  match e with
  | CallStartSync _ _ _ => true
  | _ => false
  end.

Definition isStop (e : Event) : bool :=
  match e with
  | CallStopSync _ _ _ => true
  | _ => false
  end.

(** [P] allows the installation of the chart wherever the decision of
    [Run] can lead to it. *)
Definition helmAllowed (W : World) (P : Event -> Prop) (f : UpCmdFlags) : Prop :=
  (build f || deploy f ||
   bool_decide (is_Some (snd (getRunningDevSpacePod W))))%bool = true ->
  forall releaseName releaseNamespace, P (CallHelmInstall releaseName releaseNamespace).

(** A run that is over before the last steps of [Run], or that has come
    to them, with only events of [P] behind it. *)
Definition beforeConnect (W : World) (P : Event -> Prop) (f : UpCmdFlags)
    (r : Outcome unit * State) : Prop :=
  (Forall P (trace (snd r)) /\ fst r <> Ret tt) \/
  exists s2 : State, r = connect W f s2 /\ Forall P (trace s2).

(** ** Label selectors *)
Definition labelPair (kv : string * string) : string := fst kv +:+ "=" +:+ snd kv.

(** The list request of a port-forward mapping: the namespace it names,
    or that of the release where it names none, and its label pairs,
    joined. *)
Definition namespaceOf (c : Config) (portForwarding : PortForwardingConfig) : string :=
  match PortForwarding_Namespace portForwarding with
  | Some "" | None => Release_Namespace c
  | Some namespace => namespace
  end.

Definition selectorOf (portForwarding : PortForwardingConfig) : string :=
  Go.Join (map labelPair (LabelSelector portForwarding)) ", ".

(** ** Sessions of [Exec] *)
Section Sessions.
Import ExecSys.

(** Is the worker past [stdinWriter.Close()]? *)
Definition hasClosedStdin (w : Worker) : bool :=
  match w with
  | CloseStdout _ | CloseStderr _ | Send _ | WorkerDone => true
  | _ => false
  end.

(** The state of a caller of [Exec] that got a session back: the
    goroutine of the session runs, the pipes are open and empty, the
    channel is the one handed in; the rest of [s] is the caller's. *)
Definition sessionStarted (session : Session) (s : Sys) : Prop :=
  worker s = session_worker session /\
  errorChannel s = session_errors session /\
  stdinClosed s = false /\
  stdoutPipe s = emptyPipe /\ stderrPipe s = emptyPipe.

(** With a channel to send on: nothing is sent while the worker holds
    the error of the stream, and that error is what is sent. *)
Definition delivering (env : Env) (s : Sys) : Prop :=
  stdinClosed s = hasClosedStdin (worker s) /\
  (forall st, closed (pipeOf st s) = hasClosed st (worker s)) /\
  match worker s with
  | NoWorker => False
  | WorkerDone => errorChannel s = Some [remote_error env]
  | _ => heldError (worker s) = Some (remote_error env) /\ errorChannel s = Some []
  end.

End Sessions.

End Terms.

(* ===================================================================== *)
(** * Scenarios: concrete pods, clusters and worlds *)
(* ===================================================================== *)

Module Scenario.
Import K8s Up.

Definition mkPod (name : string) (annotations : gmap string string)
    (deleted : option Go.Time) (status : PodStatus) : Pod := {|
  Name := name; Namespace := "dev"; Annotations := annotations;
  DeletionTimestamp := deleted;
  Spec := {| InitContainers := []; Containers := [{| Container_Name := "app" |}] |};
  Status := status
|}.

(** Phase [Running], no container statuses. *)
Definition runningStatus (reason : string) : PodStatus := {|
  Phase := "Running"; Reason := reason;
  InitContainerStatuses := []; ContainerStatuses := []
|}.

Definition deletedAt : Go.Time := Go.mkTime 1535019330 0 0.

Definition lostPod : Pod :=
  mkPod "web-0" ∅ (Some deletedAt) (runningStatus NodeUnreachablePodReason).
Definition terminatingPod : Pod :=
  mkPod "web-0" ∅ (Some deletedAt) (runningStatus "").

(** Pods of a release, by revision annotation. *)
Definition revisionPod (name revision : string) : Pod :=
  mkPod name {[ "revision" := revision ]} None (runningStatus "").

Definition pod3 : Pod := revisionPod "web-old" "3".
Definition pod7a : Pod := revisionPod "web-new-a" "7".
Definition pod7b : Pod := revisionPod "web-new-b" "7".

(** A cluster, by the namespaces and the pods it has when the request
    number [t] arrives.  Every pod of a scenario carries the labels asked
    for, so a list request selects by namespace only. *)
Definition cluster (namespaces : nat -> gset string) (pods : nat -> list Pod)
  : Clientset := {|
  Namespaces_Get t name :=
    if bool_decide (name ∈ namespaces t) then None
    else Some (NewNotFound "namespaces" name);
  Namespaces_Create t name :=
    if bool_decide (name ∈ namespaces t)
    then Some (NewAlreadyExists "namespaces" name)
    else None;
  Pods_List t namespace _ :=
    inr (filter (fun p => Namespace p = namespace) (pods t));
  Pods_Get t namespace name :=
    match find (fun p => ((Namespace p =? namespace) && (Name p =? name))%string%bool)
               (pods t) with
    | Some p => inr p
    | None => inl (NewNotFound "pods" name)
    end
|}.

(** The file system: one Dockerfile, last written half a second and one
    nanosecond after 2018-08-23T10:15:30Z. *)
Definition dockerfileModTime : Go.Time := Go.mkTime 1535019330 500000001 0.

Definition stat (path : string) : Go.error + FileInfo :=
  if (path =? "/work/Dockerfile")%string
  then inr {| ModTime := dockerfileModTime |}
  else inl (Go.errorString ("stat " +:+ path +:+ ": no such file or directory")).

(** A world in which every collaborator succeeds.  [filepath_Join] is
    concatenation, which is what [filepath.Join] gives on the work
    directory and the Dockerfile paths used here, and [filepath_Abs]
    puts the work directory in front, which is what [filepath.Abs] gives
    on the relative paths used here. *)
Definition world (client : Clientset) (changed : bool)
    (running : option Pod * option Go.error) : World := {|
  os_Getwd := inr "/work";
  os_Stat := stat;
  filepath_Join dir rest := dir +:+ rest;
  time_Parse layoutValue :=
    match Go.ParseRFC3339Nano layoutValue with
    | Some t => (t, None)
    | None => (Go.zeroTime, Some (Go.errorString "parsing time: cannot parse"))
    end;
  time_Format := Go.FormatRFC3339Nano;
  configutil_ConfigExists := true;
  kubectl_NewClient := inr client;
  helmClient_NewClient := None;
  registry_InitInternalRegistry registryConf := (None, registryConf);
  registry_CreatePullSecret _ _ _ _ _ := None;
  build_Changed := changed;
  randutil_GenerateRandomString _ := inr "qwertyu";
  builder_run _ _ := None;
  configutil_SaveConfig := None;
  getRunningDevSpacePod := running;
  yamlutil_ReadYamlFromFile _ := None;
  helm_InstallChartByPath _ _ _ := inr 7;
  forward_ready _ _ := true;
  filepath_Abs path := inr ("/work/" +:+ path);
  syncConfig_Start _ := None;
  terminal_exec _ := None
|}.

(** The namespace [dev] exists and holds the three pods of the release. *)
Definition steadyCluster : Clientset :=
  cluster (fun _ => {[ "dev" ]}) (fun _ => [pod7b; pod3; pod7a]).

(** The pod [web-new-a] with its container started and ready, and a
    cluster in which it is so from the second request on. *)
Definition readyPod : Pod :=
  mkPod "web-new-a" {[ "revision" := "7" ]} None {|
    Phase := "Running"; Reason := "";
    InitContainerStatuses := [];
    ContainerStatuses :=
      [{| K8s.State :=
            {| Waiting := None; Running := Some tt; Terminated := None |};
          Ready := true |}]
  |}.

Definition warmingCluster : Clientset :=
  cluster (fun _ => {[ "dev" ]})
          (fun t => if (t =? 0)%nat then [pod7a] else [readyPod]).

(** A creation race: the namespace [dev] is not there when the first
    request arrives, and another client has created it when the second
    one does. *)
Definition raceCluster : Clientset :=
  cluster (fun t => if (t =? 0)%nat then ∅ else {[ "dev" ]}) (fun _ => []).

(** Two port-forward mappings: one onto a service, one onto the pods of
    the release. *)
Definition serviceMapping : PortForwardingConfig := {|
  ResourceType := "service";
  LabelSelector := [("release", "web")];
  PortForwarding_Namespace := None;
  PortMappings := [{| LocalPort := 5432; RemotePort := 5432 |}]
|}.

Definition podMapping : PortForwardingConfig := {|
  ResourceType := "pod";
  LabelSelector := [("release", "web")];
  PortForwarding_Namespace := None;
  PortMappings := [{| LocalPort := 8080; RemotePort := 80 |}]
|}.

(** An image built before, at 2018-08-23T10:15:30.5Z. *)
Definition builtImage : ImageConfig := {|
  Image_Name := "web";
  Tag := Some "abcdefg";
  Build := {| DockerfilePath := None; ContextPath := None;
              LatestTimestamp := Some "2018-08-23T10:15:30.5Z" |}
|}.

(** The same image, built when the Dockerfile was last written. *)
Definition freshImage : ImageConfig := {|
  Image_Name := "web";
  Tag := Some "abcdefg";
  Build := {| DockerfilePath := None; ContextPath := None;
              LatestTimestamp := Some "2018-08-23T10:15:30.500000001Z" |}
|}.

Definition configOf (images : list (string * ImageConfig))
    (portForwarding : list PortForwardingConfig) : Config := {|
  Release_Name := "web";
  Release_Namespace := "dev";
  Images := images;
  PortForwarding := portForwarding;
  Sync := [];
  Registries := [];
  InternalRegistry := false
|}.

(** The state of the command once the client is there. *)
Definition connected (client : Clientset) (c : Config) : State := {|
  cmd := {| flags := UpFlagsDefault; kubectl := Some client;
            workdir := "/work"; pod := None |};
  config := c; now := 0; trace := []
|}.

(** A remote command that writes [ab] and [c] on its standard output
    and [x] on its standard error in between, and whose stream then
    breaks. *)
Definition brokenStream : ExecSys.Env := {|
  ExecSys.config_Cluster := true;
  ExecSys.NewSPDYExecutor := None;
  ExecSys.remote_output :=
    [(ExecSys.Stdout, [Byte.x61; Byte.x62]); (ExecSys.Stderr, [Byte.x78]);
     (ExecSys.Stdout, [Byte.x63])];
  ExecSys.remote_error := Some (Go.errorString "error reading from error stream");
  ExecSys.tty_session := None
|}.

(** One interleaving of that call with pipes of one byte: the caller
    gets to its wait before the stream has written anything, the drains
    follow the worker byte by byte, and the drain of the standard error
    is the last to finish. *)
Definition byteByByte : list ExecSys.Action :=
  [ExecSys.CallAdd; ExecSys.Go1; ExecSys.Go2;
   ExecSys.Write 1; ExecSys.Read ExecSys.Stdout 1;
   ExecSys.Write 1; ExecSys.Write 1;
   ExecSys.Read ExecSys.Stdout 1; ExecSys.Write 1;
   ExecSys.StreamReturns; ExecSys.CloseIn; ExecSys.CloseOut;
   ExecSys.Read ExecSys.Stdout 1; ExecSys.SeeEnd ExecSys.Stdout;
   ExecSys.CallDone ExecSys.Stdout;
   ExecSys.CloseErr; ExecSys.Read ExecSys.Stderr 1;
   ExecSys.SeeEnd ExecSys.Stderr; ExecSys.CallDone ExecSys.Stderr;
   ExecSys.CallWait].

(** A call with no cluster configured. *)
Definition noCluster : ExecSys.Env := {|
  ExecSys.config_Cluster := false;
  ExecSys.NewSPDYExecutor := None;
  ExecSys.remote_output := [];
  ExecSys.remote_error := None;
  ExecSys.tty_session := None
|}.

(** ** Pods by the state of their containers *)

Definition runningState : ContainerState :=
  {| Waiting := None; Running := Some tt; Terminated := None |}.
Definition waitingState (reason : string) : ContainerState :=
  {| Waiting := Some {| Waiting_Reason := reason |}; Running := None;
     Terminated := None |}.
Definition terminatedState (exitCode : Z) (reason : string) : ContainerState :=
  {| Waiting := None; Running := None;
     Terminated := Some {| ExitCode := exitCode; Signal := 0;
                           Terminated_Reason := reason |} |}.

Definition container (state : ContainerState) (ready : bool) : ContainerStatus :=
  {| K8s.State := state; Ready := ready |}.

(** Two init containers: the first has done its work, the second
    cannot pull its image. *)
Definition pullingPod : Pod := {|
  Name := "web-0"; Namespace := "dev"; Annotations := ∅;
  DeletionTimestamp := None;
  Spec := {| InitContainers := [{| Container_Name := "migrate" |};
                                {| Container_Name := "assets" |}];
             Containers := [{| Container_Name := "app" |}] |};
  Status := {| Phase := "Pending"; Reason := "";
               InitContainerStatuses :=
                 [container (terminatedState 0 "Completed") false;
                  container (waitingState "ImagePullBackOff") false];
               ContainerStatuses :=
                 [container (waitingState "PodInitializing") false] |}
|}.

(** Three containers: one runs, one keeps crashing, one has ended in
    an error. *)
Definition crashingPod : Pod :=
  mkPod "web-0" ∅ None {|
    Phase := "Running"; Reason := "";
    InitContainerStatuses := [];
    ContainerStatuses :=
      [container runningState true;
       container (waitingState "CrashLoopBackOff") false;
       container (terminatedState 1 "Error") false]
  |}.

(** Two containers: the first was killed and has no reason for it,
    the second keeps crashing. *)
Definition killedPod : Pod :=
  mkPod "web-0" ∅ None {|
    Phase := "Running"; Reason := "";
    InitContainerStatuses := [];
    ContainerStatuses :=
      [container (terminatedState 137 "") false;
       container (waitingState "CrashLoopBackOff") false]
  |}.

(** The pod that cannot pull the image of its second init container,
    with a third init container that has failed, its container in a
    crash loop and a reason of its own. *)
Definition tangledPod : Pod := {|
  Name := "web-1"; Namespace := "dev"; Annotations := ∅;
  DeletionTimestamp := None;
  Spec := {| InitContainers := [{| Container_Name := "migrate" |};
                                {| Container_Name := "assets" |}];
             Containers := [{| Container_Name := "app" |}] |};
  Status := {| Phase := "Failed"; Reason := "Evicted";
               InitContainerStatuses :=
                 [container (terminatedState 0 "Completed") false;
                  container (waitingState "ImagePullBackOff") false;
                  container (terminatedState 2 "Error") false];
               ContainerStatuses :=
                 [container (waitingState "CrashLoopBackOff") false] |}
|}.

(** A job container that has completed beside a sidecar that runs. *)
Definition sidecarPod : Pod :=
  mkPod "job-0" ∅ None {|
    Phase := "Running"; Reason := "";
    InitContainerStatuses := [];
    ContainerStatuses :=
      [container (terminatedState 0 "Completed") false;
       container runningState true]
  |}.

(** A pod of the release that carries no revision annotation. *)
Definition barePod : Pod := mkPod "web-bare" ∅ None (runningStatus "").

(** The namespace [dev] with no pods, and with the one pod without
    annotation. *)
Definition emptyCluster : Clientset :=
  cluster (fun _ => {[ "dev" ]}) (fun _ => []).
Definition bareCluster : Clientset :=
  cluster (fun _ => {[ "dev" ]}) (fun _ => [barePod]).

(** An image that was never built and whose Dockerfile is not there. *)
Definition neverBuilt : ImageConfig := {|
  Image_Name := "api";
  Tag := None;
  Build := {| DockerfilePath := Some "./api/Dockerfile"; ContextPath := None;
              LatestTimestamp := None |}
|}.

(** A caller of [Exec] that handed in a channel and reads both pipes,
    and one interleaving of the session with pipes of four bytes. *)
Definition watchedSession : ExecSys.Sys := {|
  ExecSys.worker :=
    ExecSys.Streaming (ExecSys.remote_output brokenStream)
                      (ExecSys.remote_error brokenStream);
  ExecSys.errorChannel := Some [];
  ExecSys.stdinClosed := false;
  ExecSys.stdoutPipe := ExecSys.emptyPipe;
  ExecSys.stderrPipe := ExecSys.emptyPipe;
  ExecSys.drainOut := ExecSys.Copying;
  ExecSys.drainErr := ExecSys.Copying;
  ExecSys.stdoutBuffer := [];
  ExecSys.stderrBuffer := [];
  ExecSys.streamDone := 2%nat;
  ExecSys.main := ExecSys.AtWait
|}.

Definition chunkByChunk : list ExecSys.Action :=
  [ExecSys.Write 2; ExecSys.Write 1; ExecSys.Read ExecSys.Stdout 2;
   ExecSys.Write 1; ExecSys.StreamReturns;
   ExecSys.CloseIn; ExecSys.CloseOut; ExecSys.CloseErr; ExecSys.SendError].

(** The pod [web-new-a] while its first container is being created:
    the status of the first container reports not ready, that of the
    sidecar beside it reports ready.  A cluster in which the pod is so
    when the first request arrives and ready from the second on, and one
    in which it stays so. *)
Definition startingPod : Pod :=
  mkPod "web-new-a" {[ "revision" := "7" ]} None {|
    Phase := "Pending"; Reason := "";
    InitContainerStatuses := [];
    ContainerStatuses :=
      [container (waitingState "ContainerCreating") false;
       container runningState true]
  |}.

Definition startingCluster : Clientset :=
  cluster (fun _ => {[ "dev" ]})
          (fun t => if (t =? 0)%nat then [startingPod] else [readyPod]).
Definition stuckCluster : Clientset :=
  cluster (fun _ => {[ "dev" ]}) (fun _ => [startingPod]).

(** A mapping onto the pods of the release in the namespace [staging],
    where there are none. *)
Definition stagingMapping : PortForwardingConfig := {|
  ResourceType := "pod";
  LabelSelector := [("release", "web"); ("tier", "front")];
  PortForwarding_Namespace := Some "staging";
  PortMappings := [{| LocalPort := 8080; RemotePort := 80 |}]
|}.

(** Two paths to keep in sync: the sources, into the pods of the
    release, and the assets, into pods of the namespace [staging], where
    there are none. *)
Definition sourcePath : SyncPath := {|
  LocalSubPath := "src";
  ContainerPath := "/app";
  Sync_LabelSelector := [("release", "web")];
  Sync_Namespace := None;
  ExcludePaths := Some ["node_modules"];
  DownloadExcludePaths := None;
  UploadExcludePaths := None
|}.

Definition assetsPath : SyncPath := {|
  LocalSubPath := "assets";
  ContainerPath := "/static";
  Sync_LabelSelector := [("release", "web")];
  Sync_Namespace := Some "staging";
  ExcludePaths := None;
  DownloadExcludePaths := None;
  UploadExcludePaths := None
|}.

(** The release with these paths, a registry that needs a pull secret
    and one that needs none. *)
Definition syncedConfig : Config := {|
  Release_Name := "web";
  Release_Namespace := "dev";
  Images := [];
  PortForwarding := [];
  Sync := [assetsPath; sourcePath; sourcePath];
  Registries :=
    [("hub", {| URL := Some "registry.example.com";
                Auth := Some {| Username := Some "dev"; Password := Some "s3cret" |} |});
     ("public", {| URL := None; Auth := None |})];
  InternalRegistry := false
|}.

End Scenario.

(* ===================================================================== *)
(** * Properties *)
(* ===================================================================== *)

Import K8s Up.

(** ** Pod status derivation *)

(** C6. For every pod with a deletion timestamp, [GetPodStatus] is
    "Unknown" when the reason of the pod's status is the node-unreachable
    reason and "Terminating" otherwise, whatever the phase and the
    container states would have given. *)
Theorem C6_deletion_timestamp_overrides_status (pod : Pod) (ts : Go.Time) :
  DeletionTimestamp pod = Some ts ->
  (Reason (Status pod) = NodeUnreachablePodReason ->
   Kubectl.GetPodStatus pod = "Unknown") /\
  (Reason (Status pod) <> NodeUnreachablePodReason ->
   Kubectl.GetPodStatus pod = "Terminating").
Proof.
  intros Hdel. unfold Kubectl.GetPodStatus. rewrite Hdel.
  destruct (String.eqb_spec (Reason (Status pod)) NodeUnreachablePodReason);
    split; intros; congruence.
Qed.

(** The example of the specification: phase "Running", no container
    statuses, a deletion timestamp, with and without the node-unreachable
    reason. *)
Lemma C6_witness :
  Kubectl.GetPodStatus Scenario.lostPod = "Unknown" /\
  Kubectl.GetPodStatus Scenario.terminatingPod = "Terminating".
Proof.
  split.
  - apply (C6_deletion_timestamp_overrides_status
             Scenario.lostPod Scenario.deletedAt); reflexivity.
  - apply (C6_deletion_timestamp_overrides_status
             Scenario.terminatingPod Scenario.deletedAt);
      [reflexivity | discriminate].
Defined.

(** ** The monad: how a computation runs from a state *)

Section Running.
Context {A B : Type}.

Lemma run_bind (m : M A) (f : A -> M B) (s : State) :
  (m ≫= f) s =
  match m s with
  | (Ret a, s') => f a s'
  | (Fatal msg, s') => (Fatal msg, s')
  | (Panic msg, s') => (Panic msg, s')
  | (OutOfFuel, s') => (OutOfFuel, s')
  end.
Proof. reflexivity. Qed.

Lemma run_ret (a : A) (s : State) : (mret a : M A) s = (Ret a, s).
Proof. reflexivity. Qed.

Lemma run_get (s : State) : get s = (Ret s, s).
Proof. reflexivity. Qed.

Lemma run_request (s : State) : request s = (Ret (now s), tick s).
Proof. reflexivity. Qed.

Lemma run_emit (e : Event) (s : State) : emit e s = (Ret tt, record [e] s).
Proof. reflexivity. Qed.

Lemma run_setCmd (c : UpCmd) (s : State) : setCmd c s = (Ret tt, withCmd c s).
Proof. reflexivity. Qed.

Lemma run_setConfig (c : Config) (s : State) :
  setConfig c s = (Ret tt, withConfig c s).
Proof. reflexivity. Qed.

Lemma run_fatal (msg : string) (s : State) : (fatal msg : M A) s = (Fatal msg, s).
Proof. reflexivity. Qed.

Lemma run_panic (msg : string) (s : State) : (panic msg : M A) s = (Panic msg, s).
Proof. reflexivity. Qed.

Lemma run_outOfFuel (s : State) : (outOfFuel : M A) s = (OutOfFuel, s).
Proof. reflexivity. Qed.

End Running.

(** One step of a run: expose the first action of the computation and
    reduce the [match] on what it gives. *)
Ltac mrun :=
  repeat (rewrite ?run_bind, ?run_ret, ?run_get, ?run_request, ?run_emit,
            ?run_setCmd, ?run_setConfig, ?run_fatal, ?run_panic,
            ?run_outOfFuel;
          cbv beta iota).

(** ** Release pod resolution *)

Section Selection.

Lemma selectLoop_snoc (items : list Pod) (later : Pod) :
  forall i acc,
    selectLoop i (items ++ [later]) acc =
    selectStep (selectLoop i items acc) (i + length items) later.
Proof.
  induction items as [|pod items IH]; intros i acc; simpl.
  - by rewrite Nat.add_0_r.
  - rewrite IH. f_equal. lia.
Qed.

(** After the first pod the loop is past index [0]: a pod replaces the
    selection exactly when it has the annotation and its number is
    above [highestRevision]. *)
Lemma selectStep_later (acc : Z * Pod) (i : nat) (later : Pod) :
  i <> 0%nat ->
  selectStep acc i later =
  match Annotations later !! "revision" with
  | Some revision =>
      if fst acc <? fst (Go.Atoi revision)
      then (fst (Go.Atoi revision), later) else acc
  | None => acc
  end.
Proof.
  intros Hi. destruct acc as [highest selected]. unfold selectStep.
  destruct (Nat.eqb_spec i 0) as [|_]; [done|].
  destruct (Annotations later !! "revision") as [revision|] eqn:Hrev; simpl.
  - by destruct (highest <? fst (Go.Atoi revision)).
  - done.
Qed.

Lemma waitForPodReady_S (fuel : nat) (kubectl : Clientset) (pod : Pod)
    (maxWaitTime checkInterval : Z) :
  waitForPodReady (S fuel) kubectl pod maxWaitTime checkInterval =
  if 0 <? maxWaitTime then
    t ← request;
    match Pods_Get kubectl t (Namespace pod) (Name pod) with
    | inl err => mret (Some err)
    | inr pod' =>
        if firstContainerReady pod' then mret None
        else
          emit (Sleep checkInterval);;
          waitForPodReady fuel kubectl pod
                          (Go.sub64 maxWaitTime checkInterval) checkInterval
    end
  else mret (Some (Go.errorString "Max wait time expired")).
Proof. reflexivity. Qed.

Lemma waitForPodReady_cmd (fuel : nat) (kubectl : Clientset) (pod : Pod) :
  forall (maxWaitTime checkInterval : Z) (s : State),
    cmd (snd (waitForPodReady fuel kubectl pod maxWaitTime checkInterval s)) = cmd s.
Proof.
  induction fuel as [|fuel IH]; intros maxWaitTime checkInterval s; [done|].
  rewrite waitForPodReady_S.
  destruct (0 <? maxWaitTime); [|done]. mrun.
  destruct (Pods_Get _ _ _ _) as [err|pod']; [done|].
  destruct (firstContainerReady pod'); [done|]. mrun.
  specialize (IH (Go.sub64 maxWaitTime checkInterval) checkInterval
                 (record [Sleep checkInterval] (tick s))).
  destruct (waitForPodReady _ _ _ _ _ _) as [[] s']; exact IH.
Qed.

Lemma perm3 {A} (a b c : A) (l : list A) :
  l ≡ₚ [a; b; c] ->
  l = [a;b;c] \/ l = [a;c;b] \/ l = [b;a;c] \/ l = [b;c;a] \/ l = [c;a;b] \/ l = [c;b;a].
Proof.
  intros H. symmetry in H. apply permutations_Permutation in H.
  cbn in H. rewrite !elem_of_cons, elem_of_nil in H. intuition.
Qed.

Lemma waitForRelease_S (fuel : nat) (releaseName releaseNamespace : string)
    (releaseRevision : Z) :
  waitForRelease (S fuel) releaseName releaseNamespace releaseRevision =
  (client ← getKubectl;
   t ← request;
   match Pods_List client t releaseNamespace ("release=" +:+ releaseName) with
   | inl err => panic ("Unable to list devspace pods: " +:+ Go.Error err)
   | inr items =>
       if (0 <? length items)%nat then
         let '(highestRevision, selectedPod) := selectPod items in
         let hasRevision :=
           bool_decide (is_Some (Annotations selectedPod !! "revision")) in
         if (negb hasRevision || (highestRevision =? releaseRevision))%bool then
           when (negb hasRevision)
                (emit (LogWarn "Found pod without revision. Use annotation 'revision' for your pods to avoid this warning."));;
           setPod (Some selectedPod);;
           err ← waitForPodReady (S fuel) client selectedPod
                                 (2 * 60 * Go.Second) (5 * Go.Second);
           match err with
           | Some err => fatal ("Error during waiting for pod: " +:+ Go.Error err)
           | None => mret tt
           end
         else
           emit (LogInfo "Waiting for release upgrade to complete.");;
           emit (Sleep (2 * Go.Second));;
           waitForRelease fuel releaseName releaseNamespace releaseRevision
       else
         emit (LogInfo "Waiting for release to be deployed.");;
         emit (Sleep (2 * Go.Second));;
         waitForRelease fuel releaseName releaseNamespace releaseRevision
   end).
Proof. reflexivity. Qed.

(** What one poll of [waitForRelease] does with a list whose scan ends
    on a pod of the expected revision: it attaches that pod. *)
Lemma waitForRelease_attaches (fuel : nat) (releaseName releaseNamespace : string)
    (releaseRevision : Z) (client : Clientset) (s : State)
    (items : list Pod) (selected : Pod) :
  kubectl (cmd s) = Some client ->
  Pods_List client (now s) releaseNamespace ("release=" +:+ releaseName) = inr items ->
  items <> [] ->
  selectPod items = (releaseRevision, selected) ->
  pod (cmd (snd (waitForRelease (S fuel) releaseName releaseNamespace
                   releaseRevision s))) = Some selected.
Proof.
  intros Hk Hl Hne Hs. rewrite waitForRelease_S.
  unfold getKubectl. mrun. rewrite Hk. mrun. rewrite Hl.
  destruct items as [|first rest]; [done|].
  change (0 <? length (first :: rest))%nat with true. cbv iota.
  rewrite Hs. cbv beta iota zeta. rewrite Z.eqb_refl, orb_true_r.
  destruct (bool_decide _); unfold when, negb, setPod; mrun.
  all: match goal with |- context [waitForPodReady ?f ?c ?p ?m ?i ?st] =>
    pose proof (waitForPodReady_cmd f c p m i st) as Hcmd;
    destruct (waitForPodReady f c p m i st) as [[[err|]| | |] s']
  end; simpl in Hcmd |- *; rewrite ?run_fatal, ?run_ret; simpl; by rewrite Hcmd.
Qed.

End Selection.

(** C1. On each poll over a non-empty list the first pod scanned is
    selected provisionally, with its revision (0 if it has none) as the
    highest so far; a pod scanned later replaces the selection exactly
    when it carries a revision annotation whose number is strictly above
    the highest so far, so an equal revision never wins.  For pods with
    the revisions 3, 7 and 7 in any scan order the scan ends on revision
    7 with the first revision-7 pod of the scan selected, and a poll for
    the expected revision 7 attaches that pod. *)
Theorem C1_release_pod_selection (p3 p7 p7' : Pod) (items : list Pod) :
  Annotations p3 !! "revision" = Some "3" ->
  Annotations p7 !! "revision" = Some "7" ->
  Annotations p7' !! "revision" = Some "7" ->
  items ≡ₚ [p3; p7; p7'] ->
  (forall first : Pod,
     selectPod [first] =
     (fst (Go.Atoi (default "" (Annotations first !! "revision"))), first)) /\
  (forall (scanned : list Pod) (later : Pod),
     scanned <> [] ->
     selectPod (scanned ++ [later]) =
     match Annotations later !! "revision" with
     | Some revision =>
         if fst (selectPod scanned) <? fst (Go.Atoi revision)
         then (fst (Go.Atoi revision), later)
         else selectPod scanned
     | None => selectPod scanned
     end) /\
  exists selected : Pod,
    selectPod items = (7, selected) /\
    find (hasRevision "7") items = Some selected /\
    forall (fuel : nat) (releaseName releaseNamespace : string)
           (client : Clientset) (s : State),
      kubectl (cmd s) = Some client ->
      Pods_List client (now s) releaseNamespace ("release=" +:+ releaseName)
        = inr items ->
      pod (cmd (snd (waitForRelease (S fuel) releaseName releaseNamespace 7 s)))
        = Some selected.
Proof.
  intros H3 H7 H7' Hperm. split; [|split].
  - intros first. reflexivity.
  - intros scanned later Hne. unfold selectPod.
    rewrite selectLoop_snoc. apply selectStep_later.
    destruct scanned; [done|]. simpl. lia.
  - assert (Hscan : exists selected,
               selectPod items = (7, selected) /\
               find (hasRevision "7") items = Some selected).
    { apply perm3 in Hperm.
      destruct Hperm as [->|[->|[->|[->|[->| ->]]]]];
        unfold selectPod, selectLoop, selectStep, find, hasRevision;
        rewrite ?H3, ?H7, ?H7'; cbn; eauto. }
    destruct Hscan as (selected & Hsel & Hfind).
    exists selected. repeat split; [done..|].
    intros fuel releaseName releaseNamespace client s Hk Hl.
    apply (waitForRelease_attaches _ _ _ _ client s items); try done.
    intros ->. apply Permutation_nil_l in Hperm. done.
Qed.

(** The pods [web-new-b], [web-old], [web-new-a] in this order. *)
Lemma C1_witness :
  Scenario.pod3.(Annotations) !! "revision" = Some "3" /\
  Scenario.pod7a.(Annotations) !! "revision" = Some "7" /\
  Scenario.pod7b.(Annotations) !! "revision" = Some "7" /\
  exists selected : Pod,
    Up.selectPod [Scenario.pod7b; Scenario.pod3; Scenario.pod7a] = (7, selected) /\
    find (Up.hasRevision "7") [Scenario.pod7b; Scenario.pod3; Scenario.pod7a]
      = Some selected.
Proof.
  repeat split; try reflexivity.
  destruct (C1_release_pod_selection
              Scenario.pod3 Scenario.pod7a Scenario.pod7b
              [Scenario.pod7b; Scenario.pod3; Scenario.pod7a])
    as (_ & _ & selected & Hsel & Hfind & _); try reflexivity.
  - apply (Permutation_cons_append [_; _]).
  - exists selected. split; assumption.
Defined.

(** ** The rebuild decision *)

Section Rebuild.
Variable W : World.

(** [t.Equal(u)] holds exactly when the seconds and the nanoseconds of
    the two instants agree. *)
Lemma Equal_spec (t u : Go.Time) :
  Go.Equal t u = true <->
  Go.unixSec t = Go.unixSec u /\ Go.nsec t = Go.nsec u.
Proof. unfold Go.Equal. rewrite andb_true_iff, !Z.eqb_eq. reflexivity. Qed.

(** With the Dockerfile there, [shouldRebuild] returns, leaves the state
    alone and hands back the record with the new timestamp. *)
Lemma shouldRebuild_exists (imageConf : ImageConfig) (dockerfilePath : string)
    (buildFlagChanged : bool) (dockerfileInfo : FileInfo) (s : State) :
  os_Stat W dockerfilePath = inr dockerfileInfo ->
  shouldRebuild W imageConf dockerfilePath buildFlagChanged s =
  (Ret (if buildFlagChanged then true
        else match LatestTimestamp (Build imageConf) with
             | Some latestTimestamp =>
                 negb (Go.Equal (fst (time_Parse W latestTimestamp))
                                (ModTime dockerfileInfo))
             | None => true
             end,
        setLatestTimestamp imageConf (time_Format W (ModTime dockerfileInfo))),
   s).
Proof.
  intros Hstat. unfold shouldRebuild. rewrite Hstat.
  destruct buildFlagChanged; simpl; [by mrun|].
  destruct (LatestTimestamp (Build imageConf)); by mrun.
Qed.

(** With the Dockerfile missing and a timestamp stored, the decision is
    to skip, and the timestamp written is that of the zero [time.Time]. *)
Lemma shouldRebuild_missing (imageConf : ImageConfig) (dockerfilePath : string)
    (buildFlagChanged : bool) (err : Go.error) (stored : string) (s : State) :
  os_Stat W dockerfilePath = inl err ->
  LatestTimestamp (Build imageConf) = Some stored ->
  shouldRebuild W imageConf dockerfilePath buildFlagChanged s =
  (Ret (false, setLatestTimestamp imageConf (time_Format W Go.zeroTime)), s).
Proof.
  intros Hstat Hts. unfold shouldRebuild. rewrite Hstat, Hts. by mrun.
Qed.

End Rebuild.

(** C3. Where the Dockerfile exists, [shouldRebuild] returns true
    whenever the build flag was given explicitly or no timestamp is
    stored; with the flag not given and a timestamp stored it returns
    true if and only if the modification time of the file and the parsed
    stored timestamp are not the same instant, to the nanosecond,
    whichever of the two is the later. *)
Theorem C3_shouldRebuild_decision (W : World) (imageConf : ImageConfig)
    (dockerfilePath : string) (buildFlagChanged : bool)
    (dockerfileInfo : FileInfo) (s : State) :
  os_Stat W dockerfilePath = inr dockerfileInfo ->
  exists (mustRebuild : bool) (imageConf' : ImageConfig),
    shouldRebuild W imageConf dockerfilePath buildFlagChanged s
      = (Ret (mustRebuild, imageConf'), s) /\
    (buildFlagChanged = true \/ LatestTimestamp (Build imageConf) = None ->
     mustRebuild = true) /\
    (buildFlagChanged = false ->
     forall stored : string,
       LatestTimestamp (Build imageConf) = Some stored ->
       let latestBuildTime := fst (time_Parse W stored) in
       let dockerfileModTime := ModTime dockerfileInfo in
       mustRebuild = true <->
       ~ (Go.unixSec latestBuildTime = Go.unixSec dockerfileModTime /\
          Go.nsec latestBuildTime = Go.nsec dockerfileModTime)).
Proof.
  intros Hstat. eexists _, _. split; [by apply shouldRebuild_exists|]. split.
  - intros [-> | ->]; [done|]. by destruct buildFlagChanged.
  - intros -> stored ->. cbv zeta. rewrite <- Equal_spec.
    destruct (Go.Equal _ _); simpl; split; congruence.
Qed.

(** A Dockerfile written one nanosecond after the stored timestamp. *)
Lemma C3_witness :
  os_Stat (Scenario.world Scenario.steadyCluster false (None, None)) "/work/Dockerfile"
    = inr {| ModTime := Scenario.dockerfileModTime |} /\
  exists imageConf' : ImageConfig,
    shouldRebuild (Scenario.world Scenario.steadyCluster false (None, None))
      Scenario.builtImage "/work/Dockerfile" false
      (Scenario.connected Scenario.steadyCluster (Scenario.configOf [] []))
    = (Ret (true, imageConf'),
       Scenario.connected Scenario.steadyCluster (Scenario.configOf [] [])).
Proof.
  split; [reflexivity|].
  destruct (C3_shouldRebuild_decision
              (Scenario.world Scenario.steadyCluster false (None, None))
              Scenario.builtImage "/work/Dockerfile" false
              {| ModTime := Scenario.dockerfileModTime |}
              (Scenario.connected Scenario.steadyCluster (Scenario.configOf [] [])))
    as (mustRebuild & imageConf' & Hrun & _ & Hiff); [reflexivity|].
  exists imageConf'. rewrite Hrun.
  destruct (proj2 (Hiff eq_refl "2018-08-23T10:15:30.5Z" eq_refl)).
  - vm_compute. intros [_ Hns]. discriminate Hns.
  - reflexivity.
Defined.

(** C4, as amended. After every call to [shouldRebuild] in which the
    Dockerfile exists, the stored timestamp of the record is the
    modification time of the file in the RFC3339Nano layout, whether the
    decision was to rebuild or to skip. *)
Theorem C4_timestamp_overwritten_when_dockerfile_exists (W : World)
    (imageConf : ImageConfig) (dockerfilePath : string) (buildFlagChanged : bool)
    (dockerfileInfo : FileInfo) (s : State) :
  os_Stat W dockerfilePath = inr dockerfileInfo ->
  exists (mustRebuild : bool) (imageConf' : ImageConfig),
    shouldRebuild W imageConf dockerfilePath buildFlagChanged s
      = (Ret (mustRebuild, imageConf'), s) /\
    LatestTimestamp (Build imageConf')
      = Some (time_Format W (ModTime dockerfileInfo)).
Proof.
  intros Hstat. eexists _, _. split; [by apply shouldRebuild_exists|]. reflexivity.
Qed.

Lemma C4_witness :
  exists (mustRebuild : bool) (imageConf' : ImageConfig),
    shouldRebuild (Scenario.world Scenario.steadyCluster false (None, None))
      Scenario.builtImage "/work/Dockerfile" false
      (Scenario.connected Scenario.steadyCluster (Scenario.configOf [] []))
    = (Ret (mustRebuild, imageConf'),
       Scenario.connected Scenario.steadyCluster (Scenario.configOf [] [])) /\
    LatestTimestamp (Build imageConf') = Some "2018-08-23T10:15:30.500000001Z".
Proof.
  apply (C4_timestamp_overwritten_when_dockerfile_exists
           (Scenario.world Scenario.steadyCluster false (None, None))
           Scenario.builtImage "/work/Dockerfile" false
           {| ModTime := Scenario.dockerfileModTime |}).
  reflexivity.
Defined.

(** C4 as stated fails where the Dockerfile is missing and a timestamp
    is stored: the call returns the decision to skip, and what it stores
    is the zero [time.Time], not the modification time of a file. *)
Lemma C4_counterexample :
  let W := Scenario.world Scenario.steadyCluster false (None, None) in
  let s := Scenario.connected Scenario.steadyCluster (Scenario.configOf [] []) in
  os_Stat W "/work/api/Dockerfile"
    = inl (Go.errorString "stat /work/api/Dockerfile: no such file or directory") /\
  shouldRebuild W Scenario.builtImage "/work/api/Dockerfile" false s
    = (Ret (false, setLatestTimestamp Scenario.builtImage "0001-01-01T00:00:00Z"), s) /\
  ~ exists dockerfileInfo : FileInfo,
      os_Stat W "/work/api/Dockerfile" = inr dockerfileInfo /\
      LatestTimestamp (Build (setLatestTimestamp Scenario.builtImage "0001-01-01T00:00:00Z"))
        = Some (time_Format W (ModTime dockerfileInfo)).
Proof.
  cbv zeta. split; [reflexivity|]. split; [reflexivity|].
  intros (dockerfileInfo & Hstat & _). discriminate Hstat.
Qed.

(** ** The readiness wait *)

Section Readiness.
Variables (kubectl : Clientset) (pod : Pod).

Lemma afterPolls_now (k : nat) (checkInterval : Z) :
  forall s, now (afterPolls k checkInterval s) = (now s + k)%nat.
Proof.
  induction k as [|k IH]; intros s; simpl; [lia|]. rewrite IH. simpl. lia.
Qed.

Lemma afterPolls_trace (k : nat) (checkInterval : Z) :
  forall s, trace (afterPolls k checkInterval s)
            = (trace s ++ replicate k (Sleep checkInterval))%list.
Proof.
  induction k as [|k IH]; intros s; simpl.
  - by rewrite app_nil_r.
  - rewrite IH. simpl. by rewrite <- app_assoc.
Qed.

Lemma sub64_exact (a b : Z) :
  0 < a <= Go.int64_max -> 0 < b <= Go.int64_max -> Go.sub64 a b = a - b.
Proof.
  unfold Go.sub64, Go.wrap, Go.int64_max. intros Ha Hb.
  rewrite Z.mod_small; lia.
Qed.

(** [k] polls that find the pod not ready, while the time is not up,
    leave the loop where it started, [k] intervals later. *)
Lemma waitForPodReady_not_ready (checkInterval : Z) (k : nat) :
  0 < checkInterval <= Go.int64_max ->
  forall (fuel : nat) (maxWaitTime : Z) (s : State),
    maxWaitTime <= Go.int64_max ->
    (Z.of_nat k - 1) * checkInterval < maxWaitTime ->
    (forall j : nat, (j < k)%nat -> notReadyAt kubectl pod (now s + j)) ->
    waitForPodReady (k + fuel) kubectl pod maxWaitTime checkInterval s
    = waitForPodReady fuel kubectl pod
        (maxWaitTime - Z.of_nat k * checkInterval) checkInterval
        (afterPolls k checkInterval s).
Proof.
  intros Hci. induction k as [|k IH]; intros fuel maxWaitTime s Hmax Hk Hnot.
  - simpl. f_equal. lia.
  - change (S k + fuel)%nat with (S (k + fuel)). rewrite waitForPodReady_S.
    assert (0 < maxWaitTime) as Hpos by nia.
    destruct (Z.ltb_spec 0 maxWaitTime) as [_|]; [|lia].
    destruct (Hnot 0%nat) as (pod' & Hget & Hready); [lia|].
    rewrite Nat.add_0_r in Hget.
    mrun. rewrite Hget, Hready. mrun.
    rewrite sub64_exact by lia. rewrite IH.
    + simpl. f_equal. lia.
    + lia.
    + lia.
    + intros j Hj. specialize (Hnot (S j)).
      replace (now (record [Sleep checkInterval] (tick s)) + j)%nat
        with (now s + S j)%nat by (simpl; lia).
      apply Hnot. lia.
Qed.

(** What the code tests is the readiness of the specification. *)
Lemma firstContainerReady_spec (p : Pod) :
  firstContainerReady p = true <-> primaryContainerReady p.
Proof.
  unfold firstContainerReady, primaryContainerReady. split.
  - destruct (ContainerStatuses (Status p)) as [|first rest]; [done|].
    intros Hready. by exists first, rest.
  - intros (primary & others & -> & Hready). done.
Qed.

Lemma firstContainerReady_not (p : Pod) :
  ~ primaryContainerReady p -> firstContainerReady p = false.
Proof.
  intros Hnot. destruct (firstContainerReady p) eqn:Hready; [|done].
  by apply firstContainerReady_spec in Hready.
Qed.

(** The same, for any interval: [k] polls that find the pod not ready,
    each with time left, leave the loop with the time left after them. *)
Lemma waitForPodReady_polls (checkInterval : Z) (k : nat) :
  forall (fuel : nat) (maxWaitTime : Z) (s : State),
    (forall j : nat, (j < k)%nat -> 0 < timeLeft maxWaitTime checkInterval j) ->
    (forall j : nat, (j < k)%nat -> notReadyAt kubectl pod (now s + j)) ->
    waitForPodReady (k + fuel) kubectl pod maxWaitTime checkInterval s
    = waitForPodReady fuel kubectl pod
        (timeLeft maxWaitTime checkInterval k) checkInterval
        (afterPolls k checkInterval s).
Proof.
  induction k as [|k IH]; intros fuel maxWaitTime s Hleft Hnot; [done|].
  change (S k + fuel)%nat with (S (k + fuel)). rewrite waitForPodReady_S.
  pose proof (Hleft 0%nat ltac:(lia)) as Hpos. simpl in Hpos.
  destruct (Z.ltb_spec 0 maxWaitTime) as [_|]; [|lia].
  destruct (Hnot 0%nat) as (pod' & Hget & Hready); [lia|].
  rewrite Nat.add_0_r in Hget.
  mrun. rewrite Hget, Hready. mrun.
  unfold timeLeft. rewrite Nat.iter_succ_r. rewrite IH; [done| |].
  - intros j Hj. specialize (Hleft (S j) ltac:(lia)).
    unfold timeLeft in Hleft. by rewrite Nat.iter_succ_r in Hleft.
  - intros j Hj. specialize (Hnot (S j)).
    replace (now (record [Sleep checkInterval] (tick s)) + j)%nat
      with (now s + S j)%nat by (simpl; lia).
    apply Hnot. lia.
Qed.

End Readiness.

(** C5. Every round of [waitForPodReady] fetches the pod again.  After
    [k] polls that found the pod without a primary container status that
    reports ready, and with time left at each poll up to this one, a
    poll whose fetch fails returns that error at once, and a poll that
    finds the primary (first) container status reporting ready returns
    success at once; either way [k + 1] requests were issued and no
    more.  For an interval that is positive, the time left after [j]
    polls is [maxWaitTime - j * checkInterval].  With a maximal wait of
    ten seconds and an interval of five, a pod that is never ready gives
    the timeout error after exactly two polls, which is
    [maxWaitTime / checkInterval]. *)
Theorem C5_waitForPodReady_polling (kubectl : Clientset) (pod : Pod) (s : State) :
  (* a poll that fails, or that finds the first container ready, ends the wait *)
  (forall (maxWaitTime checkInterval : Z) (k fuel : nat),
     (forall j : nat, (j <= k)%nat -> 0 < timeLeft maxWaitTime checkInterval j) ->
     (k < fuel)%nat ->
     (forall j : nat, (j < k)%nat ->
        exists pod' : Pod,
          Pods_Get kubectl (now s + j) (Namespace pod) (Name pod) = inr pod' /\
          ~ primaryContainerReady pod') ->
     match Pods_Get kubectl (now s + k) (Namespace pod) (Name pod) with
     | inl err =>
         waitForPodReady fuel kubectl pod maxWaitTime checkInterval s
         = (Ret (Some err), tick (afterPolls k checkInterval s))
     | inr pod' =>
         primaryContainerReady pod' ->
         waitForPodReady fuel kubectl pod maxWaitTime checkInterval s
         = (Ret None, tick (afterPolls k checkInterval s))
     end) /\
  (* the time left, for an interval that is positive *)
  (forall (maxWaitTime checkInterval : Z) (k : nat),
     0 < checkInterval <= Go.int64_max ->
     maxWaitTime <= Go.int64_max ->
     Z.of_nat k * checkInterval < maxWaitTime ->
     forall j : nat, (j <= k)%nat ->
       timeLeft maxWaitTime checkInterval j = maxWaitTime - Z.of_nat j * checkInterval /\
       0 < timeLeft maxWaitTime checkInterval j) /\
  (* ten seconds, polled every five, never ready *)
  (forall fuel : nat,
     (2 < fuel)%nat ->
     (forall j : nat,
        exists pod' : Pod,
          Pods_Get kubectl (now s + j) (Namespace pod) (Name pod) = inr pod' /\
          ~ primaryContainerReady pod') ->
     waitForPodReady fuel kubectl pod (10 * Go.Second) (5 * Go.Second) s
     = (Ret (Some (Go.errorString "Max wait time expired")),
        afterPolls 2 (5 * Go.Second) s) /\
     now (afterPolls 2 (5 * Go.Second) s) = (now s + 2)%nat /\
     Z.of_nat 2 = (10 * Go.Second) / (5 * Go.Second)).
Proof.
  split; [|split].
  - intros maxWaitTime checkInterval k fuel Hleft Hfuel Hnot.
    replace fuel with (k + S (fuel - S k))%nat by lia.
    rewrite waitForPodReady_polls.
    + rewrite waitForPodReady_S.
      destruct (Z.ltb_spec 0 (timeLeft maxWaitTime checkInterval k)) as [_|Hup];
        [|specialize (Hleft k); lia].
      mrun. rewrite afterPolls_now.
      destruct (Pods_Get _ _ _ _) as [err|pod']; [done|].
      intros Hready%firstContainerReady_spec. by rewrite Hready.
    + intros j Hj. apply Hleft. lia.
    + intros j Hj. destruct (Hnot j Hj) as (pod' & Hget & Hready).
      exists pod'. split; [done|]. by apply firstContainerReady_not.
  - intros maxWaitTime checkInterval k Hci Hmax Hk j Hj.
    assert (timeLeft maxWaitTime checkInterval j
            = maxWaitTime - Z.of_nat j * checkInterval) as Heq.
    { induction j as [|j IH]; [simpl; lia|].
      unfold timeLeft in *. rewrite Nat.iter_succ, IH by lia.
      rewrite sub64_exact by nia. lia. }
    split; [done|]. rewrite Heq. nia.
  - intros fuel Hfuel Hnot. split; [|split].
    + replace fuel with (2 + S (fuel - 3))%nat by lia.
      rewrite waitForPodReady_not_ready; [done|done|done|done|].
      intros j _. destruct (Hnot j) as (pod' & Hget & Hready).
      exists pod'. split; [done|]. by apply firstContainerReady_not.
    + by rewrite afterPolls_now.
    + reflexivity.
Qed.

(** A pod whose first container status reports not ready at the first
    poll, beside a sidecar that is ready, and ready at the second; the
    same pod where it stays so; and a pod that is not there. *)
Lemma C5_witness :
  waitForPodReady 3 Scenario.startingCluster Scenario.pod7a
    (10 * Go.Second) (5 * Go.Second)
    (Scenario.connected Scenario.startingCluster (Scenario.configOf [] []))
  = (Ret None,
     tick (afterPolls 1 (5 * Go.Second)
             (Scenario.connected Scenario.startingCluster (Scenario.configOf [] [])))) /\
  waitForPodReady 3 Scenario.stuckCluster Scenario.pod7a
    (10 * Go.Second) (5 * Go.Second)
    (Scenario.connected Scenario.stuckCluster (Scenario.configOf [] []))
  = (Ret (Some (Go.errorString "Max wait time expired")),
     afterPolls 2 (5 * Go.Second)
       (Scenario.connected Scenario.stuckCluster (Scenario.configOf [] []))) /\
  waitForPodReady 3 Scenario.emptyCluster Scenario.pod7a
    (10 * Go.Second) (5 * Go.Second)
    (Scenario.connected Scenario.emptyCluster (Scenario.configOf [] []))
  = (Ret (Some (NewNotFound "pods" "web-new-a")),
     tick (Scenario.connected Scenario.emptyCluster (Scenario.configOf [] []))).
Proof.
  assert (~ primaryContainerReady Scenario.startingPod) as Hstarting.
  { intros (primary & others & Hfirst & Hready).
    injection Hfirst as <- _. discriminate Hready. }
  split; [|split].
  - apply (proj1 (C5_waitForPodReady_polling
                    Scenario.startingCluster Scenario.pod7a
                    (Scenario.connected Scenario.startingCluster
                       (Scenario.configOf [] [])))
             (10 * Go.Second) (5 * Go.Second) 1%nat 3%nat).
    + intros [|[|j]] Hj; [done|done|lia].
    + lia.
    + intros j Hj. assert (j = 0%nat) as -> by lia.
      exists Scenario.startingPod. split; [reflexivity|exact Hstarting].
    + eexists _, _. split; reflexivity.
  - apply (proj2 (proj2 (C5_waitForPodReady_polling
                    Scenario.stuckCluster Scenario.pod7a
                    (Scenario.connected Scenario.stuckCluster
                       (Scenario.configOf [] []))))
             3%nat); [lia|].
    intros j. exists Scenario.startingPod. split; [reflexivity|exact Hstarting].
  - apply (proj1 (C5_waitForPodReady_polling
                    Scenario.emptyCluster Scenario.pod7a
                    (Scenario.connected Scenario.emptyCluster
                       (Scenario.configOf [] [])))
             (10 * Go.Second) (5 * Go.Second) 0%nat 3%nat).
    + intros [|j] Hj; [done|lia].
    + lia.
    + intros j Hj. lia.
Defined.

(** ** The release namespace *)

(** C7, as amended. [ensureNamespace] returns success when the lookup
    of the namespace succeeds, and when the lookup fails and the create
    call succeeds; when the lookup fails and the create call fails, for
    whatever reason, it returns the error of the create call. *)
Theorem C7_ensureNamespace_returns_create_error (client : Clientset) (s : State) :
  kubectl (cmd s) = Some client ->
  ensureNamespace s =
  match Namespaces_Get client (now s) (Release_Namespace (config s)) with
  | None => (Ret None, tick s)
  | Some _ =>
      (Ret (Namespaces_Create client (S (now s)) (Release_Namespace (config s))),
       tick (tick s))
  end.
Proof.
  intros Hk. unfold ensureNamespace, getKubectl. mrun. rewrite Hk. mrun.
  destruct (Namespaces_Get _ _ _); [|done]. mrun. simpl.
  by destruct (Namespaces_Create _ _ _).
Qed.

Lemma C7_witness :
  ensureNamespace (Scenario.connected Scenario.steadyCluster (Scenario.configOf [] []))
  = (Ret None,
     tick (Scenario.connected Scenario.steadyCluster (Scenario.configOf [] []))).
Proof.
  apply (C7_ensureNamespace_returns_create_error Scenario.steadyCluster).
  reflexivity.
Defined.

(** C7 as stated fails in a creation race: the lookup does not find the
    namespace, another client creates it, the create call is refused
    because the namespace already exists, and [ensureNamespace] returns
    that refusal. *)
Lemma C7_counterexample :
  let s := Scenario.connected Scenario.raceCluster (Scenario.configOf [] []) in
  Namespaces_Get Scenario.raceCluster 0 "dev"
    = Some (NewNotFound "namespaces" "dev") /\
  Namespaces_Create Scenario.raceCluster 1 "dev"
    = Some (NewAlreadyExists "namespaces" "dev") /\
  IsAlreadyExists (NewAlreadyExists "namespaces" "dev") = true /\
  ensureNamespace s
    = (Ret (Some (NewAlreadyExists "namespaces" "dev")), tick (tick s)).
Proof. cbv zeta. repeat split. Qed.

(** ** Port forwarding *)

(** C8, as amended. For every configured mapping whose resource type
    is not "pod" the code logs a warning and goes on: the call for that
    mapping returns, nothing but the log changes, and the loop continues
    with the mappings that follow. *)
Theorem C8_unsupported_resource_type_is_skipped (W : World)
    (portForwarding : PortForwardingConfig)
    (rest : list PortForwardingConfig) (s : State) :
  ResourceType portForwarding <> "pod" ->
  forwardPorts W portForwarding s
  = (Ret tt,
     record [LogWarn "Currently only pod resource type is supported for portforwarding"] s) /\
  forM_ (portForwarding :: rest) (forwardPorts W) s
  = forM_ rest (forwardPorts W)
      (record [LogWarn "Currently only pod resource type is supported for portforwarding"] s).
Proof.
  intros Htype.
  assert (forwardPorts W portForwarding s
          = (Ret tt, record [LogWarn "Currently only pod resource type is supported for portforwarding"] s)) as Hskip.
  { unfold forwardPorts.
    destruct (String.eqb_spec (ResourceType portForwarding) "pod"); [done|].
    by mrun. }
  split; [done|]. cbn [forM_]. mrun. by rewrite Hskip.
Qed.

Lemma C8_witness :
  forwardPorts (Scenario.world Scenario.steadyCluster false (None, None))
    Scenario.serviceMapping
    (Scenario.connected Scenario.steadyCluster
       (Scenario.configOf [] [Scenario.serviceMapping; Scenario.podMapping]))
  = (Ret tt,
     record [LogWarn "Currently only pod resource type is supported for portforwarding"]
       (Scenario.connected Scenario.steadyCluster
          (Scenario.configOf [] [Scenario.serviceMapping; Scenario.podMapping]))).
Proof.
  apply (C8_unsupported_resource_type_is_skipped
           (Scenario.world Scenario.steadyCluster false (None, None))
           Scenario.serviceMapping [Scenario.podMapping]).
  discriminate.
Defined.

(** C8 as stated fails on a mapping onto a service followed by one
    onto pods: [startPortForwarding] returns, having warned about the
    first and opened the tunnel of the second. *)
Lemma C8_counterexample :
  let W := Scenario.world Scenario.steadyCluster false (None, None) in
  let s := Scenario.connected Scenario.steadyCluster
             (Scenario.configOf [] [Scenario.serviceMapping; Scenario.podMapping]) in
  ResourceType Scenario.serviceMapping <> "pod" /\
  startPortForwarding W s
  = (Ret tt,
     record [LogWarn "Currently only pod resource type is supported for portforwarding";
             CallForwardPorts "web-new-b" ["8080:80"];
             LogDone "Port forwarding started on 8080:80"]
       (tick s)).
Proof. cbv zeta. split; [discriminate|reflexivity]. Qed.

(** ** The run: rebuild, deploy or reuse *)

Section Frames.
Context (P : Event -> Prop) (keepPod : bool).
#[local] Abbreviation R := (frame P keepPod).

Lemma frame_refl (s : State) : R s s.
Proof.
  split; [|done]. exists []. split; [by rewrite app_nil_r|constructor].
Qed.

Lemma frame_trans (s1 s2 s3 : State) : R s1 s2 -> R s2 s3 -> R s1 s3.
Proof.
  intros [(ev1 & Ht1 & Hp1) Hk1] [(ev2 & Ht2 & Hp2) Hk2]. split.
  - exists (ev1 ++ ev2). split.
    + by rewrite Ht2, Ht1, app_assoc.
    + by apply Forall_app.
  - intros Hk. by rewrite Hk2, Hk1.
Qed.

Lemma respects_ret {A} (a : A) : respects R (mret a : M A).
Proof. intros s. apply frame_refl. Qed.

Lemma respects_get : respects R get.
Proof. intros s. apply frame_refl. Qed.

Lemma respects_fatal {A} (msg : string) : respects R (fatal msg : M A).
Proof. intros s. apply frame_refl. Qed.

Lemma respects_panic {A} (msg : string) : respects R (panic msg : M A).
Proof. intros s. apply frame_refl. Qed.

Lemma respects_outOfFuel {A} : respects R (outOfFuel : M A).
Proof. intros s. apply frame_refl. Qed.

Lemma respects_bind {A B} (m : M A) (f : A -> M B) :
  respects R m -> (forall a, respects R (f a)) -> respects R (m ≫= f).
Proof.
  intros Hm Hf s. rewrite run_bind. specialize (Hm s).
  destruct (m s) as [[a| | |] s1]; simpl in *; try done.
  eapply frame_trans; [exact Hm|apply Hf].
Qed.

Lemma respects_when (b : bool) (m : M unit) :
  respects R m -> respects R (when b m).
Proof. destruct b; [done|]. intros _. apply respects_ret. Qed.

Lemma respects_forM_ {A} (l : list A) (f : A -> M unit) :
  (forall a, respects R (f a)) -> respects R (forM_ l f).
Proof.
  intros Hf. induction l as [|a l IH]; simpl.
  - apply respects_ret.
  - apply respects_bind; [apply Hf|done].
Qed.

Lemma respects_defer {A} (d : M unit) (body : M A) :
  respects R d -> respects R body -> respects R (defer d body).
Proof.
  intros Hd Hb s. unfold defer. specialize (Hb s).
  destruct (body s) as [[a| | |] s1]; simpl in *; try done.
  all: eapply frame_trans; [exact Hb|apply Hd].
Qed.

Lemma respects_emit (e : Event) : P e -> respects R (emit e).
Proof.
  intros He s. split; [|done]. exists [e]. split; [done|].
  by constructor.
Qed.

Lemma respects_request : respects R request.
Proof.
  intros s. split; [|done]. exists []. split; [by rewrite app_nil_r|constructor].
Qed.

Lemma respects_setConfig (c : Config) : respects R (setConfig c).
Proof.
  intros s. split; [|done]. exists []. split; [by rewrite app_nil_r|constructor].
Qed.

Lemma respects_getKubectl : respects R getKubectl.
Proof.
  unfold getKubectl. apply respects_bind; [apply respects_get|].
  intros s. destruct (kubectl (cmd s)); [apply respects_ret | apply respects_panic].
Qed.

End Frames.

Lemma respects_setPod (P : Event -> Prop) (p : option Pod) :
  respects (frame P false) (setPod p).
Proof.
  intros s. split; [|done]. exists []. split; [by rewrite app_nil_r|constructor].
Qed.

(** Decompose a computation along its binds and cases. *)
Ltac frame_step :=
  lazymatch goal with
  | |- respects _ (mret _) => apply respects_ret
  | |- respects _ (mbind _ _) => apply respects_bind; [|intros ?]
  | |- respects _ get => apply respects_get
  | |- respects _ (fatal _) => apply respects_fatal
  | |- respects _ (panic _) => apply respects_panic
  | |- respects _ outOfFuel => apply respects_outOfFuel
  | |- respects _ request => apply respects_request
  | |- respects _ getKubectl => apply respects_getKubectl
  | |- respects _ (setConfig _) => apply respects_setConfig
  | |- respects _ (setPod _) => apply respects_setPod
  | |- respects _ (emit _) => apply respects_emit
  | |- respects _ (when _ _) => apply respects_when
  | |- respects _ (forM_ _ _) => apply respects_forM_; intros ?
  | |- respects _ (defer _ _) => apply respects_defer
  | |- respects _ (match ?x with _ => _ end) => destruct x
  | |- respects _ (let _ := _ in _) => cbv zeta
  end.
Ltac frames := repeat frame_step.

Section Phases.
Variable W : World.

Lemma frame_waitForPodReady (P : Event -> Prop) (keepPod : bool)
    (fuel : nat) (client : Clientset) (p : Pod) :
  (forall d, P (Sleep d)) ->
  forall maxWaitTime checkInterval,
    respects (frame P keepPod)
             (waitForPodReady fuel client p maxWaitTime checkInterval).
Proof.
  intros HP. induction fuel as [|fuel IH]; intros maxWaitTime checkInterval.
  - simpl. frames.
  - rewrite waitForPodReady_S. frames; [apply HP|apply IH].
Qed.

Lemma frame_waitForRelease (fuel : nat) (releaseName releaseNamespace : string)
    (releaseRevision : Z) :
  respects (frame whileDeploying false)
           (waitForRelease fuel releaseName releaseNamespace releaseRevision).
Proof.
  induction fuel as [|fuel IH].
  - simpl. frames.
  - rewrite waitForRelease_S. frames.
    all: try (split; [discriminate | intros (? & ? & ?); discriminate]).
    all: try apply IH.
    apply frame_waitForPodReady.
    intros d. split; [discriminate | intros (? & ? & ?); discriminate].
Qed.

Lemma frame_deployChart (fuel : nat) :
  respects (frame whileDeploying false) (deployChart W fuel).
Proof.
  unfold deployChart. frames.
  all: try (split; [discriminate | intros (? & ? & ?); discriminate]).
  all: apply frame_waitForRelease.
Qed.

Lemma afterDecision_other (e : Event) :
  match e with
  | CallGetRunningDevSpacePod | CallBuilder _ _ => False
  | LogStartWait msg => msg <> "Deploying helm chart"
  | _ => True
  end -> afterDecision e.
Proof.
  destruct e; intros H; try done;
    (split; [discriminate | split; [|intros (? & ? & ?); discriminate]]);
    try discriminate.
  intros [= ->]. done.
Qed.

Lemma frame_forwardPorts (portForwarding : PortForwardingConfig) :
  respects (frame afterDecision true) (forwardPorts W portForwarding).
Proof.
  unfold forwardPorts. frames; by apply afterDecision_other.
Qed.

Lemma frame_startPortForwarding :
  respects (frame afterDecision true) (startPortForwarding W).
Proof. unfold startPortForwarding. frames. apply frame_forwardPorts. Qed.

Lemma respects_startSyncPath (P : Event -> Prop) (keepPod : bool)
    (syncPath : SyncPath) (syncConfigs : list SyncConfig) :
  (forall podName watchPath destPath, P (CallStartSync podName watchPath destPath)) ->
  (forall msg, P (LogDone msg)) ->
  respects (frame P keepPod) (startSyncPath W syncPath syncConfigs).
Proof. intros Hstart Hdone. unfold startSyncPath. frames; auto. Qed.

Lemma respects_startSync (P : Event -> Prop) (keepPod : bool) :
  (forall podName watchPath destPath, P (CallStartSync podName watchPath destPath)) ->
  (forall msg, P (LogDone msg)) ->
  respects (frame P keepPod) (startSync W).
Proof.
  intros Hstart Hdone. unfold startSync.
  apply respects_bind; [apply respects_get|]. intros s.
  generalize (@nil SyncConfig).
  induction (Sync (config s)) as [|syncPath rest IH]; intros syncConfigs; simpl.
  - apply respects_ret.
  - apply respects_bind; [by apply respects_startSyncPath|]. intros a. apply IH.
Qed.

Lemma respects_stops (P : Event -> Prop) (keepPod : bool)
    (syncConfigs : list SyncConfig) :
  (forall podName watchPath destPath, P (CallStopSync podName watchPath destPath)) ->
  respects (frame P keepPod) (forM_ syncConfigs (fun v => emit (stopOf v))).
Proof. intros Hstop. frames. apply Hstop. Qed.

Lemma respects_initRegistries (P : Event -> Prop) (keepPod : bool) :
  (forall e, Terms.registryEvent e -> P e) ->
  respects (frame P keepPod) (initRegistries' W).
Proof.
  intros HP. unfold initRegistries', initInternalRegistry, storeRegistry.
  frames; try (apply HP; simpl; done).
  unfold createPullSecret. frames; apply HP; simpl; done.
Qed.

Lemma frame_startSync : respects (frame afterDecision true) (startSync W).
Proof. apply respects_startSync; intros; by apply afterDecision_other. Qed.

Lemma frame_enterTerminal : respects (frame afterDecision true) (enterTerminal W).
Proof. unfold enterTerminal. frames. by apply afterDecision_other. Qed.

End Phases.
Section Build.
Variable W : World.

Lemma beforeLookup_other (e : Event) :
  match e with
  | CallGetRunningDevSpacePod => False
  | LogStartWait msg => msg <> "Deploying helm chart"
  | _ => True
  end -> beforeLookup e.
Proof.
  destruct e; intros H; try done; (split; [discriminate|]); try discriminate.
  intros [= ->]. done.
Qed.

Lemma shouldRebuild_state (imageConf : ImageConfig) (dockerfilePath : string)
    (buildFlagChanged : bool) (s : State) :
  snd (shouldRebuild W imageConf dockerfilePath buildFlagChanged s) = s.
Proof.
  unfold shouldRebuild.
  destruct (os_Stat W dockerfilePath), (LatestTimestamp (Build imageConf)),
    buildFlagChanged; by mrun.
Qed.

Ltac build_leaf :=
  unfold buildStep; simpl;
  first [ exists []; split; [by rewrite app_nil_r|]
        | eexists; split; [by rewrite <- ?app_assoc|] ];
  split;
  [ repeat constructor; by apply beforeLookup_other
  | intros rebuilt Hr; simplify_eq; cbn [app];
    rewrite ?Exists_cons, ?Exists_nil; unfold isBuilderCall;
    try (split; [intros _; right; eauto | done]);
    try (split; [done | intros [?|?]; [done|];
         repeat match goal with
                | H : _ \/ _ |- _ => destruct H
                | H : exists _, _ |- _ => destruct H
                end; done]) ].

Lemma buildImage_step (buildFlagChanged : bool) (imageName : string)
    (imageConf : ImageConfig) (s : State) :
  buildStep false s (buildImage W buildFlagChanged imageName imageConf s).
Proof.
  unfold buildImage, storeImage. mrun.
  match goal with |- context [shouldRebuild W ?c ?p ?b s] =>
    pose proof (shouldRebuild_state c p b s) as Hs;
    destruct (shouldRebuild W c p b s) as [[[rebuild conf']|msg|msg|] s0]
  end; simpl in Hs; subst s0; mrun; try build_leaf.
  destruct rebuild; mrun; [|build_leaf].
  destruct (randutil_GenerateRandomString W imageName); mrun; [build_leaf|].
  destruct (builder_run W imageName _); mrun; [build_leaf|].
  destruct (configutil_SaveConfig W); mrun; build_leaf.
Qed.

Lemma buildImagesLoop_step (buildFlagChanged : bool)
    (images : list (string * ImageConfig)) :
  forall (re : bool) (s : State),
    buildStep re s (buildImagesLoop W buildFlagChanged images re s).
Proof.
  induction images as [|[imageName imageConf] images IH]; intros re s.
  - simpl. mrun. exists []. simpl. rewrite app_nil_r.
    split; [done|]. split; [constructor|].
    intros rebuilt [= ->]. rewrite Exists_nil. tauto.
  - cbn [buildImagesLoop]. mrun.
    destruct (buildImage_step buildFlagChanged imageName imageConf s)
      as (ev1 & Ht1 & Hp1 & Hr1).
    destruct (buildImage W buildFlagChanged imageName imageConf s)
      as [[rebuilt|msg|msg|] s1]; simpl in *.
    2-4: exists ev1; repeat split; done.
    destruct (IH (if rebuilt then true else re) s1) as (ev2 & Ht2 & Hp2 & Hr2).
    exists (ev1 ++ ev2). split; [by rewrite Ht2, Ht1, app_assoc|].
    split; [by apply Forall_app|].
    intros r Hr. rewrite (Hr2 r Hr), Exists_app.
    specialize (Hr1 rebuilt eq_refl). destruct rebuilt.
    + assert (Exists isBuilderCall ev1) by (destruct Hr1 as [[?|?] _]; done).
      tauto.
    + assert (~ Exists isBuilderCall ev1) by (intros ?; destruct Hr1 as [_ Hr1];
        discriminate Hr1; by right).
      tauto.
Qed.

Lemma buildImages_step (buildFlagChanged : bool) (s : State) :
  buildStep false s (buildImages W buildFlagChanged s).
Proof. unfold buildImages. mrun. apply buildImagesLoop_step. Qed.

End Build.

Section RunPhases.
Variable W : World.

Lemma ensureNamespace_run (client : Clientset) (s : State) :
  kubectl (cmd s) = Some client ->
  ensureNamespace s =
  match Namespaces_Get client (now s) (Release_Namespace (config s)) with
  | None => (Ret None, tick s)
  | Some _ =>
      (Ret (Namespaces_Create client (S (now s)) (Release_Namespace (config s))),
       tick (tick s))
  end.
Proof.
  intros Hk. unfold ensureNamespace, getKubectl. mrun. rewrite Hk. mrun.
  destruct (Namespaces_Get _ _ _); [|done]. mrun. simpl.
  by destruct (Namespaces_Create _ _ _).
Qed.

Lemma deployChart_started (fuel : nat) (s : State) :
  exists events,
    trace (snd (deployChart W fuel s)) = trace s ++ deployStarted :: events /\
    Forall whileDeploying events.
Proof.
  unfold deployChart. mrun.
  match goal with |- context [snd (?m (record _ s))] =>
    assert (respects (frame whileDeploying false) m) as Hrest
  end.
  { frames.
    all: try (split; [discriminate | intros (? & ? & ?); discriminate]).
    apply frame_waitForRelease. }
  destruct (Hrest (record [LogStartWait "Deploying helm chart"] s))
    as [(events & Ht & Hp) _].
  exists events. split; [|done]. rewrite Ht. simpl. by rewrite <- app_assoc.
Qed.

Lemma frame_connect (f : UpCmdFlags) :
  respects (frame afterDecision true) (connect W f).
Proof.
  unfold connect. frames.
  - apply frame_startPortForwarding.
  - apply frame_startSync.
  - unfold stopOf. by apply afterDecision_other.
  - apply frame_enterTerminal.
  - apply frame_enterTerminal.
Qed.

Ltac not_in_trace :=
  simpl; intros Hin;
  repeat match type of Hin with
         | _ ∈ _ ++ _ => apply elem_of_app in Hin as [Hin|Hin]
         | _ ∈ _ :: _ => apply elem_of_cons in Hin as [Hin|Hin]
         | _ ∈ [] => by apply elem_of_nil in Hin
         | _ = _ => discriminate Hin
         end.

(** Before the build phase [Run] either ends, or reaches it having
    logged nothing that belongs to a later phase. *)
Lemma Run_prelude (f : UpCmdFlags) (c : Config) (fuel : nat) :
  CallGetRunningDevSpacePod ∉ trace (snd (Run W fuel (initial f c))) \/
  exists s1 : State,
    Run W fuel (initial f c) = buildAndDeploy W f fuel s1 /\
    Forall duringSetup (trace s1).
Proof.
  unfold Run.
  destruct (os_Getwd W) as [err|dir]; [left; solve [not_in_trace]|].
  unfold setWorkdir, setKubectl. mrun.
  destruct (configutil_ConfigExists W); unfold when, negb; mrun.
  all: destruct (kubectl_NewClient W) as [err|client]; mrun;
    [left; solve [not_in_trace]|].
  all: rewrite (ensureNamespace_run client) by reflexivity.
  all: destruct (Namespaces_Get _ _ _); [destruct (Namespaces_Create _ _ _)|];
    mrun; try (left; solve [not_in_trace]).
  all: unfold initHelm; mrun; destruct (helmClient_NewClient W); mrun;
    try (left; solve [not_in_trace]).
  all: simpl; destruct (initRegistries f);
    [|mrun; right; eexists; (split; [reflexivity|]); simpl; repeat constructor;
      solve [by apply beforeLookup_other | intros (? & ? & ?); discriminate]].
  all: match goal with |- context [initRegistries' W ?s] => set (s0 := s) end;
    assert (Forall duringSetup (trace s0)) as Hsetup
      by (subst s0; simpl; repeat constructor;
          solve [by apply beforeLookup_other | intros (? & ? & ?); discriminate]).
  all: destruct (respects_initRegistries W duringSetup false) with (s := s0)
    as [(events & Ht & Hp) _];
    [intros [] He; try done;
     (split; [by apply beforeLookup_other | intros (? & ? & ?); discriminate])|].
  all: assert (Forall duringSetup (trace (snd (initRegistries' W s0)))) as Hall
    by (rewrite Ht; by apply Forall_app).
  all: destruct (initRegistries' W s0) as [[[]|msg|msg|] s1]; simpl in *;
    [right; by exists s1|..].
  all: left; intros Hin; eapply Forall_forall in Hall as [[? _] _]; done.
Qed.

(** From the build phase on: the trace of a run that gets to the lookup
    splits into what was logged before it, what [deployChart] logged,
    and what the last steps logged. *)
Lemma buildAndDeploy_phases (f : UpCmdFlags) (fuel : nat) (s1 : State) :
  build f = true ->
  Forall duringSetup (trace s1) ->
  CallGetRunningDevSpacePod ∉ trace (snd (buildAndDeploy W f fuel s1)) \/
  exists (before deploying after : list Event) (mustRedeploy : bool),
    trace (snd (buildAndDeploy W f fuel s1))
      = before ++ CallGetRunningDevSpacePod :: deploying ++ after /\
    Forall beforeLookup before /\
    Forall whileDeploying deploying /\
    Forall afterDecision after /\
    (mustRedeploy = true <-> Exists isBuilderCall before) /\
    if (bool_decide (is_Some (snd (getRunningDevSpacePod W))) || mustRedeploy
        || deploy f)%bool
    then deployStarted ∈ deploying
    else deploying = [] /\
         pod (cmd (snd (buildAndDeploy W f fuel s1)))
           = fst (getRunningDevSpacePod W).
Proof.
  intros Hbuild Hsetup. unfold buildAndDeploy. rewrite Hbuild. mrun.
  destruct (buildImages_step W (build_Changed W) s1) as (built & Ht & Hp & Hr).
  assert (CallGetRunningDevSpacePod ∉ trace s1 ++ built) as Hnot.
  { intros [Hin|Hin]%elem_of_app.
    - eapply Forall_forall in Hsetup as [[? _] _]; done.
    - eapply Forall_forall in Hp as [? _]; done. }
  destruct (buildImages W (build_Changed W) s1) as [[mustRedeploy|msg|msg|] s2];
    simpl in Ht, Hr; mrun; try (left; simpl; by rewrite Ht).
  right. specialize (Hr mustRedeploy eq_refl).
  destruct (getRunningDevSpacePod W) as [running err]. simpl.
  assert (Forall beforeLookup (trace s1 ++ built)) as Hbefore.
  { apply Forall_app. split; [|done]. eapply Forall_impl; [done|]. by intros ? []. }
  assert (mustRedeploy = true <-> Exists isBuilderCall (trace s1 ++ built)) as Hre.
  { rewrite Hr, Exists_app. split; [intros [?|?]; [done|by right]|].
    intros [Hex|?]; [|by right]. apply Exists_exists in Hex as (e & Hin & He).
    eapply Forall_forall in Hsetup as [_ ?]; done. }
  destruct (bool_decide (is_Some err) || mustRedeploy || deploy f)%bool eqn:Hcond.
  - mrun.
    destruct (deployChart_started fuel (record [CallGetRunningDevSpacePod] s2))
      as (deploying & Htd & Hpd).
    pose proof (frame_connect f) as Hconnect.
    destruct (deployChart W fuel _) as [[[]|msg|msg|] s4]; simpl in Htd; mrun.
    1: destruct (Hconnect s4) as [(after & Hta & Hpa) _].
    1: exists (trace s1 ++ built), (deployStarted :: deploying), after, mustRedeploy.
    2-4: exists (trace s1 ++ built), (deployStarted :: deploying), [], mustRedeploy.
    all: cbn [snd fst]; rewrite ?Hta, ?app_nil_r, Htd; simpl; rewrite Ht.
    all: rewrite <- ?app_assoc; simpl; rewrite Hcond.
    all: repeat split; try done; try apply Hre; try (by constructor);
      try apply list_elem_of_here.
    all: constructor; [|done];
      (split; [discriminate | intros (? & ? & ?); discriminate]).
  - mrun. unfold setPod. mrun.
    match goal with |- context [connect W f ?s] => set (s4 := s) end.
    destruct (frame_connect f s4) as [(after & Hta & Hpa) Hpod].
    exists (trace s1 ++ built), [], after, mustRedeploy.
    rewrite Hta, Hpod by done. subst s4. simpl. rewrite Ht, Hcond.
    rewrite <- ?app_assoc. repeat split; try done; apply Hre.
Qed.

End RunPhases.

(** C2, as amended. In a run of [up] with building enabled that gets
    as far as the lookup of a running pod, which is every run that does
    not end during set-up or in the build phase: the lookup happens once
    and nothing is
    deployed before it; if a build engine was called for an image in
    this run, or the deploy flag is set, [deployChart] is invoked;
    otherwise [deployChart] is invoked exactly when the lookup returned
    an error, and when it did not, the pod it returned is the pod of the
    session. *)
Theorem C2_rebuild_or_flag_forces_deploy
    (W : World) (f : UpCmdFlags) (c : Config) (fuel : nat) :
  build f = true ->
  CallGetRunningDevSpacePod ∈ trace (snd (Run W fuel (initial f c))) ->
  (* the running pod is looked up once, and nothing is deployed before *)
  (exists before after : list Event,
     trace (snd (Run W fuel (initial f c)))
       = before ++ CallGetRunningDevSpacePod :: after /\
     (deployStarted ∉ before) /\
     (CallGetRunningDevSpacePod ∉ before) /\
     (CallGetRunningDevSpacePod ∉ after)) /\
  (* an image rebuilt, or the deploy flag: the chart is deployed *)
  ((exists imageName tag : string,
      CallBuilder imageName tag ∈ trace (snd (Run W fuel (initial f c)))) \/
   deploy f = true ->
   deployStarted ∈ trace (snd (Run W fuel (initial f c)))) /\
  (* otherwise the chart is deployed only if the lookup failed, and the
     pod found becomes the pod of the session if it did not *)
  (~ (exists imageName tag : string,
        CallBuilder imageName tag ∈ trace (snd (Run W fuel (initial f c)))) ->
   deploy f = false ->
   match getRunningDevSpacePod W with
   | (_, Some _) => deployStarted ∈ trace (snd (Run W fuel (initial f c)))
   | (running, None) =>
       (deployStarted ∉ trace (snd (Run W fuel (initial f c)))) /\
       pod (cmd (snd (Run W fuel (initial f c)))) = running
   end).
Proof.
  intros Hbuild Hlookup.
  destruct (Run_prelude W f c fuel) as [Hno|(s1 & Hrun & Hsetup)]; [done|].
  rewrite Hrun in Hlookup |- *. clear Hrun.
  destruct (buildAndDeploy_phases W f fuel s1 Hbuild Hsetup)
    as [Hno|(before & deploying & after & mustRedeploy &
             Ht & Hb & Hd & Ha & Hre & Hdec)]; [done|].
  rewrite Ht. clear Hlookup.
  assert (forall e, e ∈ before -> beforeLookup e) as Hb'
    by (by apply Forall_forall).
  assert (forall e, e ∈ deploying -> whileDeploying e) as Hd'
    by (by apply Forall_forall).
  assert (forall e, e ∈ after -> afterDecision e) as Ha'
    by (by apply Forall_forall).
  assert (forall imageName tag,
            CallBuilder imageName tag
              ∈ before ++ CallGetRunningDevSpacePod :: deploying ++ after ->
            mustRedeploy = true) as Hbuilt.
  { intros imageName tag Hin. apply Hre, Exists_exists.
    exists (CallBuilder imageName tag). split; [|by eexists _, _].
    apply elem_of_app in Hin as [?|Hin]; [done|].
    apply elem_of_cons in Hin as [?|Hin]; [done|].
    apply elem_of_app in Hin as [Hin|Hin].
    - apply Hd' in Hin as [_ []]. by eexists _, _.
    - apply Ha' in Hin as (_ & _ & []). by eexists _, _. }
  assert (deployStarted
            ∈ before ++ CallGetRunningDevSpacePod :: deploying ++ after ->
          deployStarted ∈ deploying) as Hstarted.
  { intros Hin.
    apply elem_of_app in Hin as [Hin|Hin]; [by apply Hb' in Hin as [_ []]|].
    apply elem_of_cons in Hin as [?|Hin]; [done|].
    apply elem_of_app in Hin as [Hin|Hin]; [done|].
    by apply Ha' in Hin as (_ & [] & _). }
  split; [|split].
  - exists before, (deploying ++ after).
    split; [done|]. split; [|split].
    + intros Hin. by apply Hb' in Hin as [_ []].
    + intros Hin. by apply Hb' in Hin as [[] _].
    + intros [Hin|Hin]%elem_of_app.
      * by apply Hd' in Hin as [[] _].
      * by apply Ha' in Hin as ([] & _).
  - intros Hforce.
    assert (mustRedeploy || deploy f = true)%bool as Hor.
    { destruct Hforce as [(imageName & tag & Hin)| ->].
      - by rewrite (Hbuilt _ _ Hin).
      - apply orb_true_r. }
    rewrite <- orb_assoc, Hor, orb_true_r in Hdec.
    rewrite elem_of_app, elem_of_cons, elem_of_app. tauto.
  - intros Hnone Hflag.
    assert (mustRedeploy = false) as ->.
    { destruct mustRedeploy; [|done]. exfalso. apply Hnone.
      destruct Hre as [Hre _]. apply Exists_exists in Hre as (e & Hin & He); [|done].
      destruct He as (imageName & tag & ->). exists imageName, tag.
      rewrite <- Ht. rewrite Ht. apply elem_of_app. by left. }
    rewrite Hflag in Hdec.
    destruct (getRunningDevSpacePod W) as [running [err|]]; simpl in Hdec.
    + rewrite elem_of_app, elem_of_cons, elem_of_app. tauto.
    + destruct Hdec as [-> Hpod]. split; [|done].
      intros Hin%Hstarted. by apply elem_of_nil in Hin.
Qed.

(** A run that rebuilds the image and deploys, and a run that finds the
    image up to date and attaches to the running pod. *)
Lemma C2_witness :
  deployStarted
    ∈ trace (snd (Run (Scenario.world Scenario.warmingCluster false
                         (Some Scenario.readyPod, None)) 30
                      (initial UpFlagsDefault
                         (Scenario.configOf [("web", Scenario.builtImage)]
                                            [Scenario.podMapping])))) /\
  pod (cmd (snd (Run (Scenario.world Scenario.steadyCluster false
                        (Some Scenario.readyPod, None)) 30
                     (initial UpFlagsDefault
                        (Scenario.configOf [("web", Scenario.freshImage)]
                                           [Scenario.podMapping])))))
    = Some Scenario.readyPod.
Proof.
  split.
  - apply (C2_rebuild_or_flag_forces_deploy
             (Scenario.world Scenario.warmingCluster false
                (Some Scenario.readyPod, None))
             UpFlagsDefault
             (Scenario.configOf [("web", Scenario.builtImage)]
                                [Scenario.podMapping]) 30).
    + reflexivity.
    + apply (list_elem_of_lookup_2 _ 6). vm_compute. reflexivity.
    + left. exists "web", "qwertyu".
      apply (list_elem_of_lookup_2 _ 3). vm_compute. reflexivity.
  - apply (C2_rebuild_or_flag_forces_deploy
             (Scenario.world Scenario.steadyCluster false
                (Some Scenario.readyPod, None))
             UpFlagsDefault
             (Scenario.configOf [("web", Scenario.freshImage)]
                                [Scenario.podMapping]) 30).
    + reflexivity.
    + apply (list_elem_of_lookup_2 _ 4). vm_compute. reflexivity.
    + intros (imageName & tag & Hin).
      apply list_elem_of_lookup_1 in Hin as [i Hi].
      do 10 (destruct i as [|i]; [discriminate Hi|]). discriminate Hi.
    + reflexivity.
Defined.

(** C2 as stated fails for a run that ends in the build phase.  The
    image [web] is rebuilt: the build engine is called for it and the
    configuration is saved.  The image [api], next in the iteration, was
    never built and its Dockerfile is missing: [shouldRebuild] exits in
    [log.Fatalf].  The run is over before the lookup of a running pod,
    and [deployChart] is never invoked. *)
Lemma C2_counterexample :
  let W := Scenario.world Scenario.steadyCluster false (None, None) in
  let r := Run W 30 (initial UpFlagsDefault
                       (Scenario.configOf [("web", Scenario.builtImage);
                                           ("api", Scenario.neverBuilt)]
                                          [Scenario.podMapping])) in
  build UpFlagsDefault = true /\
  fst r = Fatal "Dockerfile missing: stat /work/api/Dockerfile: no such file or directory" /\
  (exists imageName tag : string, CallBuilder imageName tag ∈ trace (snd r)) /\
  (CallGetRunningDevSpacePod ∉ trace (snd r)) /\
  (deployStarted ∉ trace (snd r)).
Proof.
  cbv zeta. split; [reflexivity|]. split; [vm_compute; reflexivity|].
  split; [|split].
  - exists "web", "qwertyu".
    apply (list_elem_of_lookup_2 _ 3). vm_compute. reflexivity.
  - intros Hin. apply list_elem_of_lookup_1 in Hin as [i Hi].
    vm_compute in Hi.
    do 10 (destruct i as [|i]; [discriminate Hi|]). discriminate Hi.
  - intros Hin. apply list_elem_of_lookup_1 in Hin as [i Hi].
    vm_compute in Hi.
    do 10 (destruct i as [|i]; [discriminate Hi|]). discriminate Hi.
Qed.

(** ** Buffered exec *)

Section Buffered.
Import Byte ExecSys.
#[local] Open Scope nat_scope.
Variable capacity : nat.
Variable env : Env.

Lemma written_on_cons_same (st : Stream) (chunk : list byte)
    (script : list (Stream * list byte)) :
  written_on st ((st, chunk) :: script) = chunk ++ written_on st script.
Proof.
  unfold written_on. cbn [filter]. rewrite filter_cons_True by done. done.
Qed.

Lemma written_on_cons_other (st st' : Stream) (chunk : list byte)
    (script : list (Stream * list byte)) :
  st <> st' ->
  written_on st' ((st, chunk) :: script) = written_on st' script.
Proof.
  intros Hne. unfold written_on. rewrite filter_cons_False; [done|].
  simpl. intros ?. by apply Hne.
Qed.

Lemma written_on_unwritten_same (st : Stream) (rest_of_chunk : list byte)
    (script : list (Stream * list byte)) :
  written_on st (unwritten st rest_of_chunk script)
  = rest_of_chunk ++ written_on st script.
Proof.
  destruct rest_of_chunk; [done|]. apply written_on_cons_same.
Qed.

Lemma written_on_unwritten_other (st st' : Stream) (rest_of_chunk : list byte)
    (script : list (Stream * list byte)) :
  st <> st' ->
  written_on st' (unwritten st rest_of_chunk script) = written_on st' script.
Proof.
  intros Hne. destruct rest_of_chunk; [done|]. by apply written_on_cons_other.
Qed.

Lemma invariant_start (session : Session) :
  Exec env false None = (Some session, None) ->
  invariant env (ExecBuffered env).
Proof.
  unfold ExecBuffered, Exec.
  destruct (GetClientConfig env); [done|].
  destruct (NewSPDYExecutor env); [done|]. intros [= <-].
  split; simpl; try done.
  - intros []; simpl; done.
  - intros []; done.
  - intros []; done.
Qed.

Lemma invariant_step (s s' : Sys) :
  invariant env s -> step capacity s s' -> invariant env s'.
Proof.
  intros [Hbytes Hclosed Hend Herr Hchan Hmain] Hstep.
  pose proof (Hbytes Stdout) as HbO. pose proof (Hbytes Stderr) as HbE.
  pose proof (Hclosed Stdout) as HcO. pose proof (Hclosed Stderr) as HcE.
  pose proof (Hend Stdout) as HeO. pose proof (Hend Stderr) as HeE.
  clear Hbytes Hclosed Hend.
  destruct Hstep; try destruct st;
    repeat match goal with
           | H : worker s = _ |- _ => rewrite H in *
           | H : main s = _ |- _ => rewrite H in *
           | H : drainOf _ s = _ |- _ => simpl in H; rewrite H in *
           end;
    simpl in *;
    (split; simpl; [intros [] | intros [] | intros [] | | | ]; simpl);
    rewrite ?written_on_unwritten_same, ?written_on_cons_same in *;
    rewrite ?written_on_unwritten_other, ?written_on_cons_other in * by done;
    try done; try (intuition congruence).
  all: rewrite <- ?app_assoc in *; try done.
  all: repeat match goal with
              | H : drainOut _ = _ |- _ => rewrite H in *
              | H : drainErr _ = _ |- _ => rewrite H in *
              | H : pending _ = _ |- _ => rewrite H in *
              end; simpl in *; try done.
  all: try (match goal with |- context [main ?s0] => destruct (main s0) end;
            simpl in *; intuition (try congruence); lia).
  - by rewrite <- app_assoc in HbO.
  - by rewrite <- app_assoc in HbE.
  - intuition lia.
  - destruct Hmain as (? & ? & Hdone).
    destruct (drainOut s), (drainErr s); simpl in *; repeat split; done || lia.
Qed.

Lemma invariant_reachable (session : Session) (s : Sys) :
  Exec env false None = (Some session, None) ->
  reachable capacity (ExecBuffered env) s ->
  invariant env s.
Proof.
  intros Hexec Hreach. induction Hreach as [|s s' _ IH Hstep].
  - by eapply invariant_start.
  - by eapply invariant_step.
Qed.

Lemma scriptCost_cons (st : Stream) (chunk : list byte)
    (script : list (Stream * list byte)) :
  scriptCost ((st, chunk) :: script) = S (2 * length chunk) + scriptCost script.
Proof. reflexivity. Qed.

Lemma scriptCost_unwritten (st : Stream) (rest_of_chunk : list byte)
    (script : list (Stream * list byte)) :
  scriptCost (unwritten st rest_of_chunk script)
  <= S (2 * length rest_of_chunk) + scriptCost script.
Proof.
  destruct rest_of_chunk; [simpl; lia|]. simpl unwritten.
  by rewrite scriptCost_cons.
Qed.

(** Every step uses up some of the steps left. *)
Lemma step_cost (s s' : Sys) :
  invariant env s -> step capacity s s' -> cost s' < cost s.
Proof.
  intros [_ _ _ _ _ Hmain] Hstep. unfold cost.
  destruct Hstep; try destruct st; cbn -[scriptCost Nat.mul];
    repeat match goal with
           | H : worker _ = _ |- _ => rewrite H
           | H : main _ = _ |- _ => rewrite H
           | H : drainOf _ _ = _ |- _ => simpl in H; rewrite H
           | H : pending _ = _ |- _ => simpl in H; rewrite H
           end;
    cbn -[scriptCost Nat.mul]; rewrite ?length_app, ?scriptCost_cons, ?length_app;
    try match goal with
        | |- context [scriptCost (unwritten ?st ?r ?sc)] =>
            pose proof (scriptCost_unwritten st r sc)
        end;
    try match goal with
        | H : ?l <> [] |- _ => assert (0 < length l) by (destruct l; simpl; [done|lia])
        end;
    try lia.
  all: rewrite H in Hmain; destruct Hmain as (Ho & He & _).
  - rewrite Ho. simpl. lia.
  - rewrite He. simpl. lia.
Qed.

(** A worker that has not closed a pipe yet can move when the pipes are
    empty. *)
Lemma worker_moves (s : Sys) (st : Stream) :
  (0 < capacity)%nat ->
  invariant env s ->
  (forall st', pending (pipeOf st' s) = []) ->
  closed (pipeOf st s) = false ->
  exists s', step capacity s s'.
Proof.
  intros Hcap [_ Hclosed _ Herr _ _] Hempty Hcl. rewrite Hclosed in Hcl.
  destruct (worker s) as [|script streamErr|streamErr|streamErr|streamErr
                         |streamErr|] eqn:Hw; simpl in Herr.
  - done.
  - destruct script as [|[st' [|b chunk]] script].
    + eexists. by apply step_stream_returns.
    + eexists. by eapply step_write_nothing.
    + eexists. apply (step_write capacity s st' [b] chunk script streamErr);
        [done|done|]. rewrite Hempty. simpl. lia.
  - eexists. by apply step_close_stdin.
  - eexists. by apply step_close_stdout.
  - eexists. by apply step_close_stderr.
  - by destruct st.
  - done.
Qed.

(** While [ExecBuffered] has not returned, some goroutine can move. *)
Lemma progress (s : Sys) :
  (0 < capacity)%nat ->
  invariant env s ->
  (forall stdout stderr err, main s <> Returned stdout stderr err) ->
  exists s', step capacity s s'.
Proof.
  intros Hcap Hinv Hrunning.
  pose proof Hinv as [Hbytes Hclosed Hend Herr Hchan Hmain].
  destruct (main s) as [| | | |stdout stderr err|] eqn:Hm;
    [eexists; by apply step_add | eexists; by apply step_go1
    | eexists; by apply step_go2 | | by destruct (Hrunning stdout stderr err)
    | done].
  destruct Hmain as (HsO & HsE & Hdone).
  (* a drain has something to do, or it is at an empty pipe or finished *)
  assert (forall st,
            (exists s', step capacity s s') \/
            pending (pipeOf st s) = [] /\
            (drainOf st s = Copying \/ drainOf st s = Finished)) as Hdrain.
  { intros st. destruct (drainOf st s) eqn:Hd.
    - destruct st; simpl in Hd; rewrite Hd in *; done.
    - destruct (pending (pipeOf st s)) as [|b left] eqn:Hp; [right; by eauto|].
      left. eexists.
      apply (step_read capacity s st (b :: left) []); [done| |done].
      by rewrite app_nil_r.
    - left. eexists. by apply step_done.
    - right. split; [|by right]. apply Hend. by rewrite Hd. }
  destruct (Hdrain Stdout) as [?|[HpO HdO]]; [done|].
  destruct (Hdrain Stderr) as [?|[HpE HdE]]; [done|].
  assert (forall st, pending (pipeOf st s) = []) as Hempty by (by intros []).
  (* a drain at an empty pipe sees the end, or the worker moves *)
  assert (forall st, drainOf st s = Copying -> exists s', step capacity s s')
    as Hcopying.
  { intros st Hst. destruct (closed (pipeOf st s)) eqn:Hcl.
    - eexists. by apply step_eof.
    - by apply (worker_moves s st). }
  destruct HdO as [HdO|HdO]; [by apply (Hcopying Stdout)|].
  destruct HdE as [HdE|HdE]; [by apply (Hcopying Stderr)|].
  (* both finished: the wait is over *)
  simpl in HdO, HdE. eexists. apply step_wait; [done|].
  by rewrite Hdone, HdO, HdE.
Qed.

(** Every run of [ExecBuffered] whose set-up succeeded comes to its
    [return]. *)
Lemma ExecBuffered_returns (session : Session) :
  (0 < capacity)%nat ->
  Exec env false None = (Some session, None) ->
  returns capacity (ExecBuffered env).
Proof.
  intros Hcap Hexec.
  assert (forall n s, cost s < n -> invariant env s -> returns capacity s) as Hwf.
  { induction n as [|n IH]; intros s Hn Hinv; [lia|].
    destruct (main s) as [| | | |stdout stderr err|] eqn:Hm.
    5: by eapply returns_now.
    5: { destruct Hinv as [_ _ _ _ _ Hmain]. by rewrite Hm in Hmain. }
    all: apply returns_later;
      [apply progress; [done|done|intros ???; by rewrite Hm]|].
    all: intros s' Hstep; apply IH;
      [pose proof (step_cost s s' Hinv Hstep); lia | by eapply invariant_step]. }
  apply (Hwf (S (cost (ExecBuffered env)))); [lia|by eapply invariant_start].
Qed.

(** A schedule that can be fired is a run of the system. *)
Lemma fire_step (a : Action) (s s' : Sys) :
  fire capacity a s = Some s' -> step capacity s s'.
Proof.
  unfold fire. intros Hfire.
  destruct a; repeat case_match; simplify_eq;
    try (by (apply step_add || apply step_go1 || apply step_go2
             || apply step_wait || apply step_stream_returns
             || apply step_close_stdin || apply step_close_stdout
             || apply step_close_stderr || apply step_done
             || apply step_eof || eapply step_send
             || eapply step_write_nothing)).
  - apply andb_true_iff in H3 as [Hn Hroom].
    apply Nat.leb_le in Hn, Hroom.
    apply step_write.
    + by rewrite take_drop.
    + destruct l0; [simpl in Hn; lia|done].
    + rewrite length_take. lia.
  - match goal with H : (_ <=? _) = true |- _ => apply Nat.leb_le in H end.
    apply (step_read capacity s st (take (S n0) (pending (pipeOf st s)))
                     (drop (S n0) (pending (pipeOf st s)))).
    + done.
    + by rewrite take_drop.
    + destruct (pending (pipeOf st s)); [simpl in *; lia|done].
Qed.

Lemma run_reachable (schedule : list Action) :
  forall s0 s s',
    reachable capacity s0 s ->
    run capacity schedule s = Some s' ->
    reachable capacity s0 s'.
Proof.
  induction schedule as [|a schedule IH]; intros s0 s s' Hreach Hrun; simpl in Hrun.
  - by simplify_eq.
  - destruct (fire capacity a s) as [s1|] eqn:Hfire; [|done].
    apply (IH s0 s1); [|done].
    eapply reachable_step; [exact Hreach|]. by eapply fire_step.
Qed.
(** A call whose set-up failed has returned at once; nothing runs. *)
Lemma setup_failed_start (execErr : Go.error) :
  setupError env = Some execErr ->
  ExecBuffered env = {|
    worker := NoWorker; errorChannel := None; stdinClosed := false;
    stdoutPipe := emptyPipe; stderrPipe := emptyPipe;
    drainOut := NotStarted; drainErr := NotStarted;
    stdoutBuffer := []; stderrBuffer := [];
    streamDone := 0; main := Returned [] [] (Some execErr) |}.
Proof.
  unfold setupError, ExecBuffered, Exec.
  destruct (GetClientConfig env); [by intros [= ->]|].
  destruct (NewSPDYExecutor env); [by intros [= ->]|done].
Qed.

Lemma setup_failed_reachable (execErr : Go.error) (s : Sys) :
  setupError env = Some execErr ->
  reachable capacity (ExecBuffered env) s ->
  s = ExecBuffered env.
Proof.
  intros Hfail Hreach. induction Hreach as [|s s' _ -> Hstep]; [done|].
  rewrite (setup_failed_start execErr Hfail) in Hstep.
  inversion Hstep; try destruct st; simplify_eq.
Qed.

Lemma setup_ok_exec :
  setupError env = None ->
  Exec env false None
  = (Some {| session_worker := Streaming (remote_output env) (remote_error env);
             session_errors := None |},
     None).
Proof.
  unfold setupError, Exec. destruct (GetClientConfig env); [done|].
  by intros ->.
Qed.

(** In the state in which [ExecBuffered] has returned after a set-up
    that succeeded, the worker stands at the send. *)
Lemma returned_worker (s : Sys) (stdout stderr : list byte) (err : option Go.error) :
  invariant env s ->
  main s = Returned stdout stderr err ->
  worker s = Send (remote_error env).
Proof.
  intros [_ Hclosed Hend Herr _ Hmain] Hm. rewrite Hm in Hmain.
  destruct Hmain as (_ & HdE & _).
  destruct (Hend Stderr) as [_ Hcl]; [simpl; by rewrite HdE|].
  rewrite Hclosed in Hcl.
  destruct (worker s); simpl in *; try done. congruence.
Qed.

End Buffered.

Import ExecSys.

(** C9. [ExecBuffered] comes to its [return] in every run in which the
    set-up of the session succeeds and the remote stream ends, and in
    the state in which it has returned both drains have called
    [streamDone.Done()], the counter of the wait group is zero, the
    pipes are empty, and the two buffers handed back hold every byte
    the remote command wrote on its standard output and on its standard
    error, in order: nothing is cut off and no part-filled buffer is
    seen. *)
Theorem C9_buffered_exec_returns_complete_output (capacity : nat) (env : Env) :
  (0 < capacity)%nat ->
  setupError env = None ->
  returns capacity (ExecBuffered env) /\
  forall (s : Sys) (stdout stderr : list Byte.byte) (err : option Go.error),
    reachable capacity (ExecBuffered env) s ->
    main s = Returned stdout stderr err ->
    (drainOut s = Finished /\ drainErr s = Finished /\ streamDone s = 0%nat) /\
    stdout = written_on Stdout (remote_output env) /\
    stderr = written_on Stderr (remote_output env) /\
    pending (stdoutPipe s) = [] /\ pending (stderrPipe s) = [].
Proof.
  intros Hcap Hok. pose proof (setup_ok_exec env Hok) as Hexec.
  split; [by eapply ExecBuffered_returns|].
  intros s stdout stderr err Hreach Hm.
  pose proof (invariant_reachable capacity env _ s Hexec Hreach) as Hinv.
  pose proof (returned_worker env s _ _ _ Hinv Hm) as Hw.
  destruct Hinv as [Hbytes _ Hend _ _ Hmain]. rewrite Hm in Hmain.
  destruct Hmain as (HdO & HdE & Hdone & -> & -> & _).
  destruct (Hend Stdout) as [HpO _]; [simpl; by rewrite HdO|].
  destruct (Hend Stderr) as [HpE _]; [simpl; by rewrite HdE|].
  pose proof (Hbytes Stdout) as HbO. pose proof (Hbytes Stderr) as HbE.
  rewrite Hw in HbO, HbE. simpl in *. rewrite HpO in HbO. rewrite HpE in HbE.
  rewrite !app_nil_r in HbO, HbE. done.
Qed.

(** C10. [ExecBuffered] comes to its [return].  The channel it hands to
    [Exec] is [nil] in every state, so the worker never gets past its
    send.  An error is returned only when the set-up failed, and then
    before any goroutine was started; when the set-up succeeded the
    error returned is [nil] whatever error the stream ended with, the
    worker stands at the send with that error, and no goroutine can
    move any more. *)
Theorem C10_buffered_exec_error_only_from_setup (capacity : nat) (env : Env) :
  (0 < capacity)%nat ->
  returns capacity (ExecBuffered env) /\
  (forall s : Sys,
     reachable capacity (ExecBuffered env) s ->
     errorChannel s = None /\ worker s <> WorkerDone) /\
  forall (s : Sys) (stdout stderr : list Byte.byte) (err : option Go.error),
    reachable capacity (ExecBuffered env) s ->
    main s = Returned stdout stderr err ->
    match setupError env with
    | Some execErr =>
        err = Some execErr /\ s = ExecBuffered env /\ worker s = NoWorker
    | None =>
        err = None /\ worker s = Send (remote_error env) /\
        forall s', ~ step capacity s s'
    end.
Proof.
  intros Hcap. destruct (setupError env) as [execErr|] eqn:Hsetup.
  - pose proof (setup_failed_start env execErr Hsetup) as Hstart.
    split; [|split].
    + eapply returns_now. by rewrite Hstart.
    + intros s Hreach.
      rewrite (setup_failed_reachable capacity env execErr s Hsetup Hreach), Hstart.
      done.
    + intros s stdout stderr err Hreach Hm.
      rewrite (setup_failed_reachable capacity env execErr s Hsetup Hreach) in Hm |- *.
      rewrite Hstart in Hm |- *. simpl in Hm. by simplify_eq.
  - pose proof (setup_ok_exec env Hsetup) as Hexec.
    split; [by eapply ExecBuffered_returns|]. split.
    + intros s Hreach.
      destruct (invariant_reachable capacity env _ s Hexec Hreach)
        as [_ _ _ Herr Hchan _].
      split; [done|]. intros Hw. by rewrite Hw in Herr.
    + intros s stdout stderr err Hreach Hm.
      pose proof (invariant_reachable capacity env _ s Hexec Hreach) as Hinv.
      pose proof (returned_worker env s _ _ _ Hinv Hm) as Hw.
      destruct Hinv as [_ _ _ _ Hchan Hmain]. rewrite Hm in Hmain.
      destruct Hmain as (HdO & HdE & _ & _ & _ & ->).
      repeat split; [done|].
      intros s' Hstep. inversion Hstep; try destruct st; simpl in *; congruence.
Qed.

(** A stream of three chunks, through pipes of one byte: every run
    returns all of it, and here is one that does. *)
Lemma C9_witness :
  setupError Scenario.brokenStream = None /\
  returns 1 (ExecBuffered Scenario.brokenStream) /\
  (exists s : Sys,
     run 1 Scenario.byteByByte (ExecBuffered Scenario.brokenStream) = Some s /\
     main s = Returned [Byte.x61; Byte.x62; Byte.x63] [Byte.x78] None) /\
  forall (s : Sys) (stdout stderr : list Byte.byte) (err : option Go.error),
    reachable 1 (ExecBuffered Scenario.brokenStream) s ->
    main s = Returned stdout stderr err ->
    stdout = [Byte.x61; Byte.x62; Byte.x63] /\ stderr = [Byte.x78].
Proof.
  destruct (C9_buffered_exec_returns_complete_output 1 Scenario.brokenStream)
    as [Hreturns Hcomplete]; [lia | reflexivity |].
  split; [reflexivity|]. split; [exact Hreturns|]. split.
  - eexists. split; [vm_compute; reflexivity | reflexivity].
  - intros s stdout stderr err Hreach Hm.
    destruct (Hcomplete s stdout stderr err Hreach Hm) as (_ & -> & -> & _).
    split; reflexivity.
Defined.

(** The stream that breaks, and the call with no cluster configured. *)
Lemma C10_witness :
  (forall (s : Sys) (stdout stderr : list Byte.byte) (err : option Go.error),
     reachable 1 (ExecBuffered Scenario.brokenStream) s ->
     main s = Returned stdout stderr err ->
     err = None /\
     worker s = Send (Some (Go.errorString "error reading from error stream"))) /\
  (forall (s : Sys) (stdout stderr : list Byte.byte) (err : option Go.error),
     reachable 1 (ExecBuffered Scenario.noCluster) s ->
     main s = Returned stdout stderr err ->
     err = Some (Go.errorString
                   "Couldn't load cluster config, did you run devspace init")).
Proof.
  split; intros s stdout stderr err Hreach Hm.
  - destruct (C10_buffered_exec_error_only_from_setup 1 Scenario.brokenStream)
      as (_ & _ & Hdone); [lia|].
    destruct (Hdone s stdout stderr err Hreach Hm) as (-> & -> & _).
    split; reflexivity.
  - destruct (C10_buffered_exec_error_only_from_setup 1 Scenario.noCluster)
      as (_ & _ & Hdone); [lia|].
    destruct (Hdone s stdout stderr err Hreach Hm) as (-> & _). reflexivity.
Defined.

(* ===================================================================== *)
(** * Further properties of the code *)
(* ===================================================================== *)

Import Terms.

(** ** Pod status: init containers and the scan of the containers *)

Section PodStatus.

Lemma initContainerReason_succeeded (pod : Pod) (i : nat) (c : ContainerStatus) :
  succeeded c -> Kubectl.initContainerReason pod i c = None.
Proof.
  intros (t & Ht & Hcode). unfold Kubectl.initContainerReason.
  rewrite Ht, Hcode. reflexivity.
Qed.

Lemma initContainerReason_blocked (pod : Pod) (i : nat) (c : ContainerStatus) :
  ~ succeeded c ->
  exists detail, Kubectl.initContainerReason pod i c = Some ("Init:" +:+ detail).
Proof.
  intros Hnot. unfold Kubectl.initContainerReason.
  destruct (Terminated (K8s.State c)) as [t|] eqn:Ht.
  - destruct (Z.eqb_spec (ExitCode t) 0) as [Hz|_].
    + destruct Hnot. by exists t.
    + destruct (String.length _ =? 0)%nat; [destruct (negb _)|]; eauto.
  - destruct (Waiting (K8s.State c)) as [w|]; [destruct (_ && _)%bool|]; eauto.
Qed.

(** The pod enters the loop over the init containers only through the
    number of init containers of its specification. *)
Lemma initLoop_spec (pod pod' : Pod) (statuses : list ContainerStatus) :
  length (InitContainers (Spec pod')) = length (InitContainers (Spec pod)) ->
  forall i, Kubectl.initLoop pod' i statuses = Kubectl.initLoop pod i statuses.
Proof.
  intros Hlen. induction statuses as [|c statuses IH]; intros i; simpl; [done|].
  assert (Kubectl.initContainerReason pod' i c = Kubectl.initContainerReason pod i c)
    as -> by (unfold Kubectl.initContainerReason; by rewrite Hlen).
  destruct (Kubectl.initContainerReason pod i c); [done|apply IH].
Qed.

Lemma initLoop_succeeded (pod : Pod) (finished : list ContainerStatus) :
  Forall succeeded finished ->
  forall i rest,
    Kubectl.initLoop pod i (finished ++ rest)
    = Kubectl.initLoop pod (i + length finished) rest.
Proof.
  induction 1 as [|c finished Hc _ IH]; intros i rest; simpl.
  - by rewrite Nat.add_0_r.
  - rewrite initContainerReason_succeeded by done. rewrite IH. f_equal. lia.
Qed.

Lemma initLoop_all_succeeded (pod : Pod) (statuses : list ContainerStatus) :
  Forall succeeded statuses -> Kubectl.initLoop pod 0 statuses = None.
Proof.
  intros H. rewrite <- (app_nil_r statuses). by rewrite initLoop_succeeded.
Qed.

(** The scan of the regular containers runs from the last to the first:
    the step for the first container is the last one taken. *)
Lemma scan_cons (c : ContainerStatus) (l : list ContainerStatus) (acc : string * bool) :
  fold_left Kubectl.containerStep (reverse (c :: l)) acc
  = Kubectl.containerStep (fold_left Kubectl.containerStep (reverse l) acc) c.
Proof. by rewrite reverse_cons, fold_left_app. Qed.

Lemma waitingWithReason_none (c : ContainerStatus) :
  (forall waiting, Waiting (K8s.State c) = Some waiting -> Waiting_Reason waiting = "") ->
  Kubectl.waitingWithReason (K8s.State c) = None.
Proof.
  intros H. unfold Kubectl.waitingWithReason.
  destruct (Waiting (K8s.State c)) as [w|]; [|done]. by rewrite (H w eq_refl).
Qed.

Lemma containerStep_untroubled (acc : string * bool) (c : ContainerStatus) :
  untroubled c ->
  Kubectl.containerStep acc c
  = (fst acc,
     if (Ready c && bool_decide (is_Some (Running (K8s.State c))))%bool
     then true else snd acc).
Proof.
  intros [Ht Hw]. destruct acc as [reason hasRunning]. unfold Kubectl.containerStep.
  rewrite waitingWithReason_none, Ht by done. by destruct (_ && _)%bool.
Qed.

Lemma containerStep_reports (acc : string * bool) (c : ContainerStatus) (reason : string) :
  reports reason c -> Kubectl.containerStep acc c = (reason, snd acc).
Proof.
  intros [(Hne & w & Hw & Hr)|(Hw & t & Ht & Hshown)];
    destruct acc as [reason0 hasRunning]; unfold Kubectl.containerStep.
  - unfold Kubectl.waitingWithReason. rewrite Hw, Hr.
    by destruct (String.eqb_spec reason "").
  - rewrite waitingWithReason_none, Ht by done.
    destruct Hshown as [[Hne Hr]|[(Hr & Hsig & ->)|(Hr & Hsig & ->)]]; rewrite Hr.
    + by destruct (String.eqb_spec reason "").
    + simpl. by destruct (Z.eqb_spec (Signal t) 0).
    + simpl. by rewrite Hsig.
Qed.

Lemma containerStep_hasRunning (acc : string * bool) (c : ContainerStatus) :
  snd acc = true -> snd (Kubectl.containerStep acc c) = true.
Proof.
  destruct acc as [reason hasRunning]. simpl. intros ->.
  unfold Kubectl.containerStep.
  destruct (Kubectl.waitingWithReason _); [done|].
  destruct (Terminated _); [|by destruct (_ && _)%bool].
  destruct (negb _); [done|]. by destruct (negb _).
Qed.

Lemma scan_untroubled (calm : list ContainerStatus) (acc : string * bool) :
  Forall untroubled calm ->
  fst (fold_left Kubectl.containerStep (reverse calm) acc) = fst acc.
Proof.
  induction 1 as [|c calm Hc _ IH]; [done|].
  rewrite scan_cons, containerStep_untroubled by done. exact IH.
Qed.

Lemma scan_hasRunning (l : list ContainerStatus) (acc : string * bool) :
  snd acc = true \/
  (exists c, c ∈ l /\ untroubled c /\ Ready c = true /\
             is_Some (Running (K8s.State c))) ->
  snd (fold_left Kubectl.containerStep (reverse l) acc) = true.
Proof.
  induction l as [|c l IH]; intros H.
  - destruct H as [?|(c & Hin & _)]; [done|]. by apply elem_of_nil in Hin.
  - rewrite scan_cons.
    destruct H as [H|(r & Hin & Hcalm & Hready & Hrun)].
    + apply containerStep_hasRunning, IH. by left.
    + apply elem_of_cons in Hin as [->|Hin].
      * rewrite containerStep_untroubled by done.
        rewrite Hready, bool_decide_eq_true_2 by done. done.
      * apply containerStep_hasRunning, IH. right. eauto.
Qed.

Lemma scan_first_report (calm later : list ContainerStatus) (c : ContainerStatus)
    (reason : string) (acc : string * bool) :
  Forall untroubled calm -> reports reason c ->
  fst (fold_left Kubectl.containerStep (reverse (calm ++ c :: later)) acc) = reason.
Proof.
  intros Hcalm Hc. induction Hcalm as [|q calm Hq _ IH]; simpl.
  - by rewrite scan_cons, (containerStep_reports _ _ reason).
  - by rewrite scan_cons, containerStep_untroubled.
Qed.

Lemma GetPodStatus_Running_not_deleted (pod : Pod) :
  Kubectl.GetPodStatus pod = "Running" -> DeletionTimestamp pod = None.
Proof.
  unfold Kubectl.GetPodStatus. destruct (DeletionTimestamp pod); [|done].
  by destruct (_ =? _)%string.
Qed.

End PodStatus.

(** X1. For a pod that is not being deleted, the first init container
    that has not terminated with exit code 0 decides the status: the
    status starts with "Init:", and neither the phase, the reason, the
    regular containers nor the init containers after that one have a
    say in it: every pod that is not being deleted, has the same init
    container statuses up to and including that one, whatever follows
    them, and the same number of init containers in its specification,
    has the same status. *)
Theorem X1_init_container_decides (pod : Pod)
    (finished : list ContainerStatus) (blocked : ContainerStatus)
    (later : list ContainerStatus) :
  DeletionTimestamp pod = None ->
  InitContainerStatuses (Status pod) = finished ++ blocked :: later ->
  Forall succeeded finished ->
  ~ succeeded blocked ->
  (exists detail, Kubectl.GetPodStatus pod = "Init:" +:+ detail) /\
  forall (pod' : Pod) (later' : list ContainerStatus),
    DeletionTimestamp pod' = None ->
    InitContainerStatuses (Status pod') = finished ++ blocked :: later' ->
    length (InitContainers (Spec pod')) = length (InitContainers (Spec pod)) ->
    Kubectl.GetPodStatus pod' = Kubectl.GetPodStatus pod.
Proof.
  intros Hdel Hinit Hfin Hblocked.
  destruct (initContainerReason_blocked pod (length finished) blocked Hblocked)
    as [detail Hreason].
  assert (forall (pod' : Pod) (later' : list ContainerStatus),
            DeletionTimestamp pod' = None ->
            InitContainerStatuses (Status pod') = finished ++ blocked :: later' ->
            length (InitContainers (Spec pod')) = length (InitContainers (Spec pod)) ->
            Kubectl.GetPodStatus pod' = "Init:" +:+ detail) as Hall.
  { intros pod' later' Hdel' Hinit' Hlen. unfold Kubectl.GetPodStatus.
    rewrite Hdel', Hinit', (initLoop_spec pod pod') by done.
    rewrite initLoop_succeeded by done.
    change (0 + length finished)%nat with (length finished).
    cbn [Kubectl.initLoop]. by rewrite Hreason. }
  split.
  - exists detail. by apply (Hall pod later).
  - intros pod' later' Hdel' Hinit' Hlen.
    rewrite (Hall pod later), (Hall pod' later') by done. done.
Qed.

(** An init container that cannot pull its image, after one that is
    done; and a pod with the same two, whose third init container has
    failed, whose container is in a crash loop and which carries a
    reason of its own. *)
Lemma X1_witness :
  (exists detail, Kubectl.GetPodStatus Scenario.pullingPod = "Init:" +:+ detail) /\
  Kubectl.GetPodStatus Scenario.tangledPod = Kubectl.GetPodStatus Scenario.pullingPod.
Proof.
  assert (~ succeeded (Scenario.container (Scenario.waitingState "ImagePullBackOff")
                                          false)) as Hblocked.
  { intros (t & Ht & _). discriminate Ht. }
  assert (Forall succeeded
            [Scenario.container (Scenario.terminatedState 0 "Completed") false])
    as Hfinished.
  { repeat constructor. eexists. split; reflexivity. }
  split.
  - exact (proj1 (X1_init_container_decides Scenario.pullingPod
                    [Scenario.container (Scenario.terminatedState 0 "Completed") false]
                    (Scenario.container (Scenario.waitingState "ImagePullBackOff") false)
                    [] eq_refl eq_refl Hfinished Hblocked)).
  - exact (proj2 (X1_init_container_decides Scenario.pullingPod
                    [Scenario.container (Scenario.terminatedState 0 "Completed") false]
                    (Scenario.container (Scenario.waitingState "ImagePullBackOff") false)
                    [] eq_refl eq_refl Hfinished Hblocked)
             Scenario.tangledPod
             [Scenario.container (Scenario.terminatedState 2 "Error") false]
             eq_refl eq_refl eq_refl).
Defined.

(** X2. For a pod that is not being deleted and whose init containers
    have all succeeded (terminated with exit code 0): the first
    container, in the order of the status list, that is waiting with a
    reason or has terminated gives the status, whatever the containers
    after it report (the scan runs backwards, so the first container has
    the last word).  The containers before it are thus neither
    terminated nor waiting with a reason.  The status is the reason with
    which that container waits; or else the reason of its termination;
    or, where it has terminated without a reason, "Signal:" and the
    signal if there is one and "ExitCode:" and the exit code otherwise.
    This holds where that status is not "Completed", which a running
    container can override. *)
Theorem X2_first_reporting_container_decides (pod : Pod)
    (calm : list ContainerStatus) (container : ContainerStatus)
    (later : list ContainerStatus) (reason : string) :
  DeletionTimestamp pod = None ->
  Forall succeeded (InitContainerStatuses (Status pod)) ->
  ContainerStatuses (Status pod) = calm ++ container :: later ->
  Forall untroubled calm ->
  reports reason container ->
  reason <> "Completed" ->
  Kubectl.GetPodStatus pod = reason.
Proof.
  intros Hdel Hinit Hcs Hcalm Hrep Hne. unfold Kubectl.GetPodStatus.
  rewrite Hdel, initLoop_all_succeeded, Hcs by done.
  match goal with |- context [fold_left _ _ ?a] =>
    pose proof (scan_first_report calm later container reason a Hcalm Hrep) as Hscan;
    destruct (fold_left Kubectl.containerStep (reverse (calm ++ container :: later)) a)
      as [r h]
  end.
  simpl in Hscan. subst r.
  by destruct (String.eqb_spec reason "Completed").
Qed.

(** A crash loop in the second container, after one that runs and
    before one that ended in an error; and a crash loop in the second
    container after one that was killed and has no reason for it. *)
Lemma X2_witness :
  Kubectl.GetPodStatus Scenario.crashingPod = "CrashLoopBackOff" /\
  Kubectl.GetPodStatus Scenario.killedPod = "ExitCode:137".
Proof.
  split.
  - apply (X2_first_reporting_container_decides Scenario.crashingPod
             [Scenario.container Scenario.runningState true]
             (Scenario.container (Scenario.waitingState "CrashLoopBackOff") false)
             [Scenario.container (Scenario.terminatedState 1 "Error") false]).
    + reflexivity.
    + constructor.
    + reflexivity.
    + repeat constructor. intros w Hw. discriminate Hw.
    + left. split; [discriminate|]. eexists. split; reflexivity.
    + discriminate.
  - apply (X2_first_reporting_container_decides Scenario.killedPod []
             (Scenario.container (Scenario.terminatedState 137 "") false)
             [Scenario.container (Scenario.waitingState "CrashLoopBackOff") false]).
    + reflexivity.
    + constructor.
    + reflexivity.
    + constructor.
    + right. split; [intros w Hw; discriminate Hw|].
      eexists. split; [reflexivity|]. right. right. repeat split.
    + discriminate.
Defined.

(** X3. For a pod that is not being deleted and whose init containers
    have all succeeded: when the first container that is waiting with a
    reason or has terminated reports "Completed" (so that the containers
    before it are neither terminated nor waiting with a reason), and
    some container of the pod, before or after that one, is ready and
    running and is itself neither terminated nor waiting with a reason,
    the pod is shown as "Running". *)
Theorem X3_completed_with_running_container (pod : Pod)
    (calm : list ContainerStatus) (container : ContainerStatus)
    (later : list ContainerStatus) (running : ContainerStatus) :
  DeletionTimestamp pod = None ->
  Forall succeeded (InitContainerStatuses (Status pod)) ->
  ContainerStatuses (Status pod) = calm ++ container :: later ->
  Forall untroubled calm ->
  reports "Completed" container ->
  running ∈ calm ++ later ->
  untroubled running -> Ready running = true ->
  is_Some (Running (K8s.State running)) ->
  Kubectl.GetPodStatus pod = "Running".
Proof.
  intros Hdel Hinit Hcs Hcalm Hrep Hin Hu Hready Hrun. unfold Kubectl.GetPodStatus.
  rewrite Hdel, initLoop_all_succeeded, Hcs by done.
  match goal with |- context [fold_left _ _ ?a] =>
    pose proof (scan_first_report calm later container "Completed" a Hcalm Hrep) as Hscan;
    pose proof (scan_hasRunning (calm ++ container :: later) a) as Hhas;
    destruct (fold_left Kubectl.containerStep (reverse (calm ++ container :: later)) a)
      as [r h]
  end.
  simpl in Hscan, Hhas. subst r. rewrite Hhas; [done|].
  right. exists running. split; [|done].
  apply elem_of_app in Hin as [?|?]; apply elem_of_app; [by left|].
  right. by apply elem_of_cons; right.
Qed.

(** A job container that has completed, beside a sidecar. *)
Lemma X3_witness : Kubectl.GetPodStatus Scenario.sidecarPod = "Running".
Proof.
  apply (X3_completed_with_running_container Scenario.sidecarPod []
           (Scenario.container (Scenario.terminatedState 0 "Completed") false)
           [Scenario.container Scenario.runningState true]
           (Scenario.container Scenario.runningState true)).
  - reflexivity.
  - constructor.
  - reflexivity.
  - constructor.
  - right. split; [intros w Hw; discriminate Hw|].
    eexists. split; [reflexivity|]. left. split; [discriminate|reflexivity].
  - apply list_elem_of_here.
  - split; [reflexivity|]. intros w Hw. discriminate Hw.
  - reflexivity.
  - by eexists.
Defined.

(** X4. A pod that is not being deleted, whose init containers have
    all succeeded and none of whose containers is terminated or waiting
    with a reason, shows the reason of its status if it has one and its
    phase otherwise (unless that is "Completed"). *)
Theorem X4_untroubled_pod_shows_reason_or_phase (pod : Pod) :
  DeletionTimestamp pod = None ->
  Forall succeeded (InitContainerStatuses (Status pod)) ->
  Forall untroubled (ContainerStatuses (Status pod)) ->
  (Reason (Status pod) = "" -> Phase (Status pod) <> "Completed" ->
   Kubectl.GetPodStatus pod = Phase (Status pod)) /\
  (Reason (Status pod) <> "" -> Reason (Status pod) <> "Completed" ->
   Kubectl.GetPodStatus pod = Reason (Status pod)).
Proof.
  intros Hdel Hinit Hcalm. unfold Kubectl.GetPodStatus.
  rewrite Hdel, initLoop_all_succeeded by done.
  match goal with |- context [fold_left _ _ ?a] =>
    pose proof (scan_untroubled (ContainerStatuses (Status pod)) a Hcalm) as Hscan;
    destruct (fold_left Kubectl.containerStep (reverse (ContainerStatuses (Status pod))) a)
      as [r h]
  end.
  simpl in Hscan. subst r. split.
  - intros -> Hne. simpl.
    by destruct (String.eqb_spec (Phase (Status pod)) "Completed").
  - intros Hr Hne. destruct (String.eqb_spec (Reason (Status pod)) ""); [done|]. simpl.
    by destruct (String.eqb_spec (Reason (Status pod)) "Completed").
Qed.

(** The pod of the release with its container ready. *)
Lemma X4_witness : Kubectl.GetPodStatus Scenario.readyPod = "Running".
Proof.
  refine (proj1 (X4_untroubled_pod_shows_reason_or_phase Scenario.readyPod _ _ _) _ _).
  - reflexivity.
  - constructor.
  - repeat constructor. intros w Hw. discriminate Hw.
  - reflexivity.
  - discriminate.
Defined.

(** X5. [GetFirstRunningPod] hands back the error of the list request
    if there is one; otherwise the first pod of the list whose status is
    "Running", which is never a pod that is being deleted; and no pod,
    without an error, exactly when no pod of the list has that status. *)
Theorem X5_first_running_pod (kubectl : Clientset) (now : nat)
    (labelSelector namespace : string) :
  match Kubectl.GetFirstRunningPod kubectl now labelSelector namespace with
  | inl err => Pods_List kubectl now namespace labelSelector = inl err
  | inr (Some pod) =>
      exists before after : list Pod,
        Pods_List kubectl now namespace labelSelector = inr (before ++ pod :: after) /\
        Forall (fun p => Kubectl.GetPodStatus p <> "Running") before /\
        Kubectl.GetPodStatus pod = "Running" /\
        DeletionTimestamp pod = None
  | inr None =>
      exists items : list Pod,
        Pods_List kubectl now namespace labelSelector = inr items /\
        Forall (fun p => Kubectl.GetPodStatus p <> "Running") items
  end.
Proof.
  unfold Kubectl.GetFirstRunningPod.
  destruct (Pods_List kubectl now namespace labelSelector) as [err|items]; [done|].
  induction items as [|p items IH]; simpl.
  - exists []. by split.
  - destruct (String.eqb_spec (Kubectl.GetPodStatus p) "Running") as [Hrun|Hnot].
    + exists [], items. repeat split; try done.
      by apply GetPodStatus_Running_not_deleted.
    + destruct (find _ items) as [pod|].
      * destruct IH as (before & after & [= ->] & Hb & Hp & Hd).
        exists (p :: before), after. repeat split; try done. by constructor.
      * destruct IH as (items' & [= <-] & Hall).
        exists (p :: items). split; [done|]. by constructor.
Qed.

(** ** The minikube check and the pods of a deployment *)

Lemma IsMinikube_calls_cached (rawConfigs : list (Go.error + Client.RawConfig))
    (isMinikube : bool) :
  Client.IsMinikube_calls rawConfigs (Some isMinikube)
  = (replicate (length rawConfigs) isMinikube, Some isMinikube).
Proof.
  induction rawConfigs as [|rawConfig rest IH]; [done|].
  cbn [Client.IsMinikube_calls Client.IsMinikube]. by rewrite IH.
Qed.

(** X6. In a process in which nothing has set the package variable,
    [IsMinikube] answers false as long as the kube config cannot be
    read, without remembering that; the first call that reads it fixes
    the answer, and every later call gives that answer whatever the kube
    config says, or fails to say, by then. *)
Theorem X6_minikube_answer_is_fixed_by_first_read (errors : list Go.error)
    (cfg : Client.RawConfig) (later : list (Go.error + Client.RawConfig)) :
  Client.IsMinikube_calls (map inl errors ++ inr cfg :: later) None
  = (replicate (length errors) false ++
     replicate (S (length later)) (Client.CurrentContext cfg =? "minikube")%string,
     Some (Client.CurrentContext cfg =? "minikube")%string).
Proof.
  induction errors as [|err errors IH].
  - cbn [map app Client.IsMinikube_calls Client.IsMinikube].
    by rewrite IsMinikube_calls_cached.
  - cbn [map app Client.IsMinikube_calls Client.IsMinikube]. by rewrite IH.
Qed.

Section Selector.

Lemma string_append_assoc (a b c : string) : (a +:+ b) +:+ c = a +:+ (b +:+ c).
Proof.
  induction a as [|x a IH]; [done|].
  change (String x ((a +:+ b) +:+ c) = String x (a +:+ (b +:+ c))). by rewrite IH.
Qed.

Lemma string_length_append (a b : string) :
  String.length (a +:+ b) = (String.length a + String.length b)%nat.
Proof.
  induction a as [|x a IH]; [done|].
  change (S (String.length (a +:+ b)) = S (String.length a + String.length b)).
  by rewrite IH.
Qed.

(** Once [matchLabelString] is not empty, every further pair is
    appended after a comma. *)
Lemma matchLabelLoop_from (matchLabels : list (string * string)) :
  forall matchLabelString : string,
    (0 < String.length matchLabelString)%nat ->
    Client.matchLabelLoop matchLabels matchLabelString
    = match matchLabels with
      | [] => matchLabelString
      | _ => matchLabelString +:+ "," +:+ Go.Join (map labelPair matchLabels) ","
      end.
Proof.
  induction matchLabels as [|[k v] rest IH]; intros acc Hacc; [done|].
  cbn [Client.matchLabelLoop].
  destruct (Nat.ltb_spec 0 (String.length acc)); [|lia].
  rewrite IH by (rewrite !string_length_append; simpl; lia).
  destruct rest as [|kv rest]; cbn [map Go.Join].
  - by rewrite string_append_assoc.
  - change (labelPair (k, v)) with (k +:+ "=" +:+ v).
    by rewrite !string_append_assoc.
Qed.

Lemma matchLabelLoop_Join (matchLabels : list (string * string)) :
  Client.matchLabelLoop matchLabels "" = Go.Join (map labelPair matchLabels) ",".
Proof.
  destruct matchLabels as [|[k v] rest]; [done|].
  cbn [Client.matchLabelLoop String.length Nat.ltb Nat.leb].
  rewrite matchLabelLoop_from by (rewrite !string_length_append; simpl; lia).
  by destruct rest.
Qed.

End Selector.

(** X7. [GetPodsFromDeployment] returns the error of the lookup of the
    deployment, or the error "No matchLabels defined deployment" when
    the selector of the deployment has no labels, in both cases without
    listing any pod; otherwise it lists the pods of the namespace under
    the selector that joins the pairs [key=value] of the match labels
    with commas, in the order the map is iterated in. *)
Theorem X7_deployment_pods_are_listed_by_match_labels
    (Deployments_Get : Client.DeploymentsGetter) (kubectl : Clientset) (now : nat)
    (deployment namespace : string) :
  Client.GetPodsFromDeployment Deployments_Get kubectl now deployment namespace
  = match Deployments_Get now namespace deployment with
    | inl err => (inl err, S now)
    | inr deploy =>
        match Client.MatchLabels deploy with
        | [] => (inl (Go.errorString "No matchLabels defined deployment"), S now)
        | matchLabels =>
            (Pods_List kubectl (S now) namespace
               (Go.Join (map (fun kv => fst kv +:+ "=" +:+ snd kv) matchLabels) ","),
             S (S now))
        end
    end.
Proof.
  unfold Client.GetPodsFromDeployment.
  destruct (Deployments_Get now namespace deployment) as [err|deploy]; [done|].
  cbv zeta. rewrite matchLabelLoop_Join.
  by destruct (Client.MatchLabels deploy).
Qed.

(** ** [Exec] with a channel to report on *)

Section Channel.
Variable capacity : nat.
Variable env : Env.

Lemma delivering_step (s s' : Sys) :
  delivering env s -> step capacity s s' -> delivering env s'.
Proof.
  intros (Hin & Hclosed & Hw) Hstep.
  pose proof (Hclosed Stdout) as HcO. pose proof (Hclosed Stderr) as HcE.
  clear Hclosed.
  destruct Hstep; try destruct st;
    repeat match goal with
           | H : worker s = _ |- _ => rewrite H in *
           end;
    simpl in *;
    (split; [|split; [intros []|]]); simpl; try done;
    try (destruct (worker s); simpl in *; done);
    try (destruct Hw as [[= ->] Hc]; try done; split; done).
  destruct Hw as [[= ->] Hc]. rewrite Hc in *. by simplify_eq.
Qed.

Lemma delivering_start (session : Session) (s0 : Sys) :
  Exec env false (Some []) = (Some session, None) ->
  sessionStarted session s0 ->
  delivering env s0.
Proof.
  unfold Exec. destruct (GetClientConfig env); [done|].
  destruct (NewSPDYExecutor env); [done|]. intros [= <-].
  intros (Hw & Hc & Hin & HpO & HpE). simpl in Hw, Hc.
  unfold delivering. rewrite Hw, Hc, Hin. simpl.
  split; [done|]. split; [|done]. intros []; simpl; by rewrite ?HpO, ?HpE.
Qed.

End Channel.

(** X8. A session that [Exec] started without a TTY and with a channel
    to report on: in every interleaving of its goroutine with the
    readers of the two pipes, nothing is on the channel until the
    goroutine has made its send, and once it has, the channel holds one
    value, the error the remote stream ended with, and the standard
    input and both output pipes have been closed before. *)
Theorem X8_exec_sends_the_stream_error_once (capacity : nat) (env : Env)
    (session : Session) (s0 s : Sys) :
  Exec env false (Some []) = (Some session, None) ->
  sessionStarted session s0 ->
  reachable capacity s0 s ->
  match worker s with
  | WorkerDone =>
      errorChannel s = Some [remote_error env] /\
      stdinClosed s = true /\
      closed (stdoutPipe s) = true /\ closed (stderrPipe s) = true
  | _ => errorChannel s = Some []
  end.
Proof.
  intros Hexec Hstart Hreach.
  assert (delivering env s) as (Hin & Hclosed & Hw).
  { induction Hreach as [|s s' _ IH Hstep].
    - by eapply delivering_start.
    - by eapply delivering_step. }
  pose proof (Hclosed Stdout) as HcO. pose proof (Hclosed Stderr) as HcE.
  destruct (worker s); simpl in *; try done; by destruct Hw.
Qed.

(** The stream that breaks, watched by a caller that reads both pipes. *)
Lemma X8_witness :
  exists s : Sys,
    run 4 Scenario.chunkByChunk Scenario.watchedSession = Some s /\
    worker s = WorkerDone /\
    errorChannel s = Some [Some (Go.errorString "error reading from error stream")].
Proof.
  eexists. split; [vm_compute; reflexivity|]. split; [reflexivity|].
  match goal with |- errorChannel ?s = _ =>
    pose proof (X8_exec_sends_the_stream_error_once 4 Scenario.brokenStream
                  {| session_worker :=
                       Streaming (remote_output Scenario.brokenStream)
                                 (remote_error Scenario.brokenStream);
                     session_errors := Some [] |}
                  Scenario.watchedSession s eq_refl) as Hsent
  end.
  simpl in Hsent. apply Hsent.
  - repeat split.
  - apply (run_reachable 4 Scenario.chunkByChunk Scenario.watchedSession
             Scenario.watchedSession); [constructor|]. vm_compute. reflexivity.
Defined.

(** ** The scan for the release pod *)

Section Scan.

(** Past the first pod, the loop keeps [highestRevision] above the
    revision of every annotated pod it has seen, and what it holds is
    what it started with or an annotated pod with its revision. *)
Lemma selectLoop_later (items : list Pod) :
  forall (i : nat) (acc : Z * Pod),
    i <> 0%nat ->
    fst acc <= fst (selectLoop i items acc) /\
    (selectLoop i items acc = acc \/
     (snd (selectLoop i items acc) ∈ items /\
      is_Some (Annotations (snd (selectLoop i items acc)) !! "revision") /\
      fst (selectLoop i items acc) = revisionOf (snd (selectLoop i items acc)))) /\
    forall q r, q ∈ items -> Annotations q !! "revision" = Some r ->
                fst (Go.Atoi r) <= fst (selectLoop i items acc).
Proof.
  induction items as [|pod items IH]; intros i acc Hi; simpl.
  - split; [lia|]. split; [by left|]. intros q r Hin. by apply elem_of_nil in Hin.
  - rewrite selectStep_later by done.
    assert (S i <> 0%nat) as HSi by lia.
    destruct (Annotations pod !! "revision") as [revision|] eqn:Hrev.
    + destruct (Z.ltb_spec (fst acc) (fst (Go.Atoi revision))) as [Hlt|Hge].
      * destruct (IH (S i) (fst (Go.Atoi revision), pod) HSi) as (Hle & Hsel & Hmax).
        simpl in Hle. split; [lia|]. split.
        -- right. destruct Hsel as [->|(Hin & Hann & Hrevision)].
           ++ simpl. split; [apply list_elem_of_here|].
              split; [by rewrite Hrev|]. unfold revisionOf. by rewrite Hrev.
           ++ split; [by apply list_elem_of_further|done].
        -- intros q r [->|Hin]%elem_of_cons Hq; [|by eapply Hmax].
           rewrite Hrev in Hq. simplify_eq. lia.
      * destruct (IH (S i) acc HSi) as (Hle & Hsel & Hmax).
        split; [done|]. split.
        -- destruct Hsel as [?|(Hin & ?)]; [by left|right].
           split; [by apply list_elem_of_further|done].
        -- intros q r [->|Hin]%elem_of_cons Hq; [|by eapply Hmax].
           rewrite Hrev in Hq. simplify_eq. lia.
    + destruct (IH (S i) acc HSi) as (Hle & Hsel & Hmax).
      split; [done|]. split.
      * destruct Hsel as [?|(Hin & ?)]; [by left|right].
        split; [by apply list_elem_of_further|done].
      * intros q r [->|Hin]%elem_of_cons Hq; [|by eapply Hmax].
        rewrite Hrev in Hq. done.
Qed.

Lemma selectPod_cons (first : Pod) (rest : list Pod) :
  selectPod (first :: rest) = selectLoop 1 rest (revisionOf first, first).
Proof. reflexivity. Qed.

(** Pods whose revision is not above [highestRevision] leave the
    selection alone. *)
Lemma selectLoop_keeps (rest : list Pod) :
  forall (i : nat) (acc : Z * Pod),
    i <> 0%nat ->
    Forall (fun pod => forall revision,
              Annotations pod !! "revision" = Some revision ->
              fst (Go.Atoi revision) <= fst acc) rest ->
    selectLoop i rest acc = acc.
Proof.
  induction rest as [|pod rest IH]; intros i acc Hi Hall; [done|].
  apply Forall_cons in Hall as [Hpod Hrest]. simpl.
  rewrite selectStep_later by done.
  destruct (Annotations pod !! "revision") as [revision|].
  - specialize (Hpod revision eq_refl).
    destruct (Z.ltb_spec (fst acc) (fst (Go.Atoi revision))); [lia|].
    apply IH; [lia|done].
  - apply IH; [lia|done].
Qed.

End Scan.

(** X9. The scan of a non-empty pod list selects a pod of the list
    that is the first pod or carries a revision annotation;
    [highestRevision] is the number read from the annotation of the pod
    selected, and no annotated pod of the list, nor the first pod, has a
    revision above it. *)
Theorem X9_selected_pod_has_highest_revision (first : Pod) (rest : list Pod) :
  let highestRevision := fst (selectPod (first :: rest)) in
  let selectedPod := snd (selectPod (first :: rest)) in
  selectedPod ∈ first :: rest /\
  highestRevision = revisionOf selectedPod /\
  (selectedPod = first \/ is_Some (Annotations selectedPod !! "revision")) /\
  revisionOf first <= highestRevision /\
  forall (pod : Pod) (revision : string),
    pod ∈ rest -> Annotations pod !! "revision" = Some revision ->
    fst (Go.Atoi revision) <= highestRevision.
Proof.
  cbv zeta. rewrite selectPod_cons.
  destruct (selectLoop_later rest 1 (revisionOf first, first)) as (Hle & Hsel & Hmax);
    [done|].
  destruct Hsel as [Heq|(Hin & Hann & Hrev)]; [rewrite Heq in *|]; simpl in *.
  - split; [apply list_elem_of_here|]. split; [done|]. split; [by left|].
    split; [lia|]. exact Hmax.
  - split; [by apply list_elem_of_further|]. split; [done|]. split; [by right|].
    split; [done|]. exact Hmax.
Qed.

(** ** Waiting for the release pod *)

Section Waiting.

Lemma afterPolls_cmd (k : nat) (checkInterval : Z) :
  forall s, cmd (afterPolls k checkInterval s) = cmd s.
Proof. induction k as [|k IH]; intros s; simpl; [done|]. by rewrite IH. Qed.

Lemma waitForPodReady_trace (fuel : nat) (client : Clientset) (p : Pod)
    (maxWaitTime checkInterval : Z) (s : State) :
  exists events,
    trace (snd (waitForPodReady fuel client p maxWaitTime checkInterval s))
    = trace s ++ events.
Proof.
  destruct (frame_waitForPodReady (fun _ => True) false fuel client p
              (fun _ => I) maxWaitTime checkInterval s) as [(events & Ht & _) _].
  by exists events.
Qed.

Lemma waitForRelease_stale (releaseName releaseNamespace : string)
    (releaseRevision : Z) (client : Clientset) :
  (forall t : nat, exists items : list Pod,
      Pods_List client t releaseNamespace ("release=" +:+ releaseName) = inr items /\
      stale releaseRevision items) ->
  forall (fuel : nat) (s : State),
    kubectl (cmd s) = Some client ->
    fst (waitForRelease fuel releaseName releaseNamespace releaseRevision s) = OutOfFuel /\
    now (snd (waitForRelease fuel releaseName releaseNamespace releaseRevision s))
      = (now s + fuel)%nat /\
    cmd (snd (waitForRelease fuel releaseName releaseNamespace releaseRevision s)) = cmd s.
Proof.
  intros Hstale. induction fuel as [|fuel IH]; intros s Hk.
  - simpl. repeat split. lia.
  - rewrite waitForRelease_S. unfold getKubectl. mrun. rewrite Hk. mrun.
    destruct (Hstale (now s)) as (items & -> & Hitems).
    assert (forall s1 : State,
              kubectl (cmd s1) = Some client -> now s1 = S (now s) -> cmd s1 = cmd s ->
              let r := waitForRelease fuel releaseName releaseNamespace releaseRevision s1 in
              fst r = OutOfFuel /\ now (snd r) = (now s + S fuel)%nat /\
              cmd (snd r) = cmd s) as Hnext.
    { intros s1 Hk1 Hnow Hcmd. cbv zeta.
      destruct (IH s1 Hk1) as (Hout & Hn & Hc).
      rewrite Hout, Hn, Hc, Hnow, Hcmd. repeat split. lia. }
    destruct Hitems as [->|[Hrev Hne]].
    + simpl. mrun. by apply Hnext.
    + destruct items as [|first rest].
      { simpl in Hrev. rewrite lookup_empty in Hrev. by destruct Hrev. }
      change (0 <? length (first :: rest))%nat with true. cbv iota.
      destruct (selectPod (first :: rest)) as [highest selected].
      simpl in Hrev, Hne. cbv beta iota zeta.
      rewrite bool_decide_eq_true_2 by done.
      destruct (Z.eqb_spec highest releaseRevision); [done|].
      simpl. mrun. by apply Hnext.
Qed.

End Waiting.

(** X10. The wait for the release pod has no timeout: as long as every
    poll finds no pod, or a selected pod that carries a revision other
    than the one deployed, the loop goes on, one list request per round;
    it neither returns nor fails, and the pod of the session stays what
    it was.  (In the model: whatever number of rounds the loop is given,
    it uses them all up.) *)
Theorem X10_release_wait_has_no_timeout (releaseName releaseNamespace : string)
    (releaseRevision : Z) (client : Clientset) (fuel : nat) (s : State) :
  kubectl (cmd s) = Some client ->
  (forall t : nat, exists items : list Pod,
      Pods_List client t releaseNamespace ("release=" +:+ releaseName) = inr items /\
      stale releaseRevision items) ->
  fst (waitForRelease fuel releaseName releaseNamespace releaseRevision s) = OutOfFuel /\
  now (snd (waitForRelease fuel releaseName releaseNamespace releaseRevision s))
    = (now s + fuel)%nat /\
  pod (cmd (snd (waitForRelease fuel releaseName releaseNamespace releaseRevision s)))
    = pod (cmd s).
Proof.
  intros Hk Hstale.
  destruct (waitForRelease_stale releaseName releaseNamespace releaseRevision client
              Hstale fuel s Hk) as (Hout & Hnow & Hcmd).
  by rewrite Hout, Hnow, Hcmd.
Qed.

(** A namespace in which no pod of the release ever shows up. *)
Lemma X10_witness :
  fst (waitForRelease 5 "web" "dev" 7
         (Scenario.connected Scenario.emptyCluster (Scenario.configOf [] [])))
  = OutOfFuel.
Proof.
  refine (proj1 (X10_release_wait_has_no_timeout "web" "dev" 7 Scenario.emptyCluster 5
                   (Scenario.connected Scenario.emptyCluster (Scenario.configOf [] []))
                   eq_refl _)).
  intros t. exists []. split; [reflexivity|]. by left.
Defined.

(** X11. A poll whose list starts with a pod without revision
    annotation, and holds no annotated pod with a revision above 0,
    attaches that first pod whatever revision was deployed, and logs
    the warning about the missing annotation. *)
Theorem X11_pod_without_revision_is_accepted (fuel : nat)
    (releaseName releaseNamespace : string) (releaseRevision : Z)
    (client : Clientset) (s : State) (first : Pod) (rest : list Pod) :
  kubectl (cmd s) = Some client ->
  Pods_List client (now s) releaseNamespace ("release=" +:+ releaseName)
    = inr (first :: rest) ->
  Annotations first !! "revision" = None ->
  Forall (fun pod => forall revision,
            Annotations pod !! "revision" = Some revision ->
            fst (Go.Atoi revision) <= 0) rest ->
  pod (cmd (snd (waitForRelease (S fuel) releaseName releaseNamespace
                   releaseRevision s))) = Some first /\
  LogWarn "Found pod without revision. Use annotation 'revision' for your pods to avoid this warning."
    ∈ trace (snd (waitForRelease (S fuel) releaseName releaseNamespace
                    releaseRevision s)).
Proof.
  intros Hk Hl Hnone Hrest. rewrite waitForRelease_S.
  unfold getKubectl. mrun. rewrite Hk. mrun. rewrite Hl.
  change (0 <? length (first :: rest))%nat with true. cbv iota.
  rewrite selectPod_cons.
  assert (revisionOf first = 0) as Hzero by (unfold revisionOf; by rewrite Hnone).
  rewrite selectLoop_keeps by (done || by rewrite Hzero).
  cbv beta iota zeta. rewrite Hnone.
  rewrite bool_decide_eq_false_2 by (by intros []).
  unfold when, negb, orb, setPod. mrun.
  match goal with |- context [waitForPodReady ?f ?c ?p ?m ?i ?st] =>
    pose proof (waitForPodReady_cmd f c p m i st) as Hcmd;
    destruct (waitForPodReady_trace f c p m i st) as [events Ht];
    destruct (waitForPodReady f c p m i st) as [[[err|]| | |] s']
  end; simpl in Hcmd, Ht |- *; rewrite ?run_fatal, ?run_ret; simpl;
    rewrite Hcmd, Ht; (split; [done|]);
    apply elem_of_app; left; apply elem_of_app; right; apply list_elem_of_here.
Qed.

(** Revision 7 was deployed; the only pod of the release has no
    annotation. *)
Lemma X11_witness :
  pod (cmd (snd (waitForRelease 1 "web" "dev" 7
                   (Scenario.connected Scenario.bareCluster (Scenario.configOf [] [])))))
  = Some Scenario.barePod.
Proof.
  refine (proj1 (X11_pod_without_revision_is_accepted 0 "web" "dev" 7
                   Scenario.bareCluster
                   (Scenario.connected Scenario.bareCluster (Scenario.configOf [] []))
                   Scenario.barePod [] eq_refl _ _ _)).
  - reflexivity.
  - reflexivity.
  - constructor.
Defined.

(** X12. [deployChart], with the chart installed and a poll that
    attaches a pod of the revision deployed: when the first container
    of that pod is not ready at any of the 24 polls that fit into two
    minutes at five seconds each, the command exits in [log.Fatal] with
    the timeout of the wait, after 25 requests, the pod attached. *)
Theorem X12_release_pod_never_ready_is_fatal (W : World) (fuel : nat) (s : State)
    (client : Clientset) (releaseRevision : Z) (items : list Pod) (selected : Pod) :
  kubectl (cmd s) = Some client ->
  yamlutil_ReadYamlFromFile W "chart/values.yaml" = None ->
  helm_InstallChartByPath W (Release_Name (config s)) (Release_Namespace (config s))
                          "chart/" = inr releaseRevision ->
  Pods_List client (now s) (Release_Namespace (config s))
            ("release=" +:+ Release_Name (config s)) = inr items ->
  items <> [] ->
  selectPod items = (releaseRevision, selected) ->
  (forall j : nat, (j < 24)%nat -> notReadyAt client selected (S (now s) + j)) ->
  (24 < fuel)%nat ->
  fst (deployChart W fuel s)
    = Fatal "Error during waiting for pod: Max wait time expired" /\
  now (snd (deployChart W fuel s)) = (now s + 25)%nat /\
  pod (cmd (snd (deployChart W fuel s))) = Some selected.
Proof.
  intros Hk Hyaml Hhelm Hl Hne Hsel Hnot Hfuel.
  destruct fuel as [|fuel]; [lia|].
  unfold deployChart. mrun. change ("chart/" +:+ "values.yaml") with "chart/values.yaml".
  rewrite Hyaml. mrun. cbn [config record]. rewrite Hhelm. mrun.
  unfold defer. rewrite run_bind, waitForRelease_S.
  unfold getKubectl. mrun. cbn [cmd record]. rewrite Hk. mrun.
  cbn [now config record]. rewrite Hl.
  destruct items as [|first rest]; [done|].
  change (0 <? length (first :: rest))%nat with true. cbv iota.
  rewrite Hsel. cbv beta iota zeta. rewrite Z.eqb_refl, orb_true_r.
  assert (forall s1 : State,
            now s1 = S (now s) ->
            waitForPodReady (S fuel) client selected (2 * 60 * Go.Second)
                            (5 * Go.Second) s1
            = (Ret (Some (Go.errorString "Max wait time expired")),
               afterPolls 24 (5 * Go.Second) s1)) as Hwait.
  { intros s1 Hnow.
    replace (S fuel) with (24 + S (fuel - 24))%nat by lia.
    rewrite waitForPodReady_not_ready; [done|done|done|done|].
    intros j Hj. rewrite Hnow. by apply Hnot. }
  destruct (bool_decide _); unfold when, negb, setPod; mrun;
    rewrite Hwait by done; mrun; cbn [fst snd]; rewrite afterPolls_now;
    cbn [now record tick withCmd]; (split; [done|]); (split; [lia|]).
  all: by rewrite afterPolls_cmd.
Qed.

(** The three pods of the release, none of which reports a container. *)
Lemma X12_witness :
  fst (deployChart (Scenario.world Scenario.steadyCluster false (None, None)) 25
         (Scenario.connected Scenario.steadyCluster (Scenario.configOf [] [])))
  = Fatal "Error during waiting for pod: Max wait time expired".
Proof.
  refine (proj1 (X12_release_pod_never_ready_is_fatal
                   (Scenario.world Scenario.steadyCluster false (None, None)) 25
                   (Scenario.connected Scenario.steadyCluster (Scenario.configOf [] []))
                   Scenario.steadyCluster 7
                   [Scenario.pod7b; Scenario.pod3; Scenario.pod7a] Scenario.pod7b
                   eq_refl eq_refl eq_refl _ _ _ _ _)).
  - reflexivity.
  - discriminate.
  - reflexivity.
  - intros j Hj. exists Scenario.pod7b. split; reflexivity.
  - lia.
Defined.

(** ** The readiness wait at its bounds *)

(** X13. A pod that is not ready at any poll makes [waitForPodReady]
    give up with the timeout error after as many polls as intervals are
    needed to cover the maximal wait, the last one counted in full: the
    quotient of the two rounded up, not down. *)
Theorem X13_readiness_wait_times_out (kubectl : Clientset) (pod : Pod) (s : State)
    (maxWaitTime checkInterval : Z) (polls fuel : nat) :
  0 < checkInterval <= Go.int64_max ->
  0 < maxWaitTime <= Go.int64_max ->
  (Z.of_nat polls - 1) * checkInterval < maxWaitTime <= Z.of_nat polls * checkInterval ->
  (polls < fuel)%nat ->
  (forall j : nat, (j < polls)%nat -> notReadyAt kubectl pod (now s + j)) ->
  waitForPodReady fuel kubectl pod maxWaitTime checkInterval s
  = (Ret (Some (Go.errorString "Max wait time expired")),
     afterPolls polls checkInterval s).
Proof.
  intros Hci Hmax Hpolls Hfuel Hnot.
  replace fuel with (polls + S (fuel - S polls))%nat by lia.
  rewrite waitForPodReady_not_ready by (done || lia).
  rewrite waitForPodReady_S.
  destruct (Z.ltb_spec 0 (maxWaitTime - Z.of_nat polls * checkInterval)); [lia|].
  done.
Qed.

(** Twelve seconds, polled every five: three polls, fifteen seconds. *)
Lemma X13_witness :
  waitForPodReady 4 Scenario.steadyCluster Scenario.pod7a
    (12 * Go.Second) (5 * Go.Second)
    (Scenario.connected Scenario.steadyCluster (Scenario.configOf [] []))
  = (Ret (Some (Go.errorString "Max wait time expired")),
     afterPolls 3 (5 * Go.Second)
       (Scenario.connected Scenario.steadyCluster (Scenario.configOf [] []))).
Proof.
  apply (X13_readiness_wait_times_out Scenario.steadyCluster Scenario.pod7a
           (Scenario.connected Scenario.steadyCluster (Scenario.configOf [] []))
           (12 * Go.Second) (5 * Go.Second) 3 4).
  - done.
  - done.
  - unfold Go.Second. lia.
  - lia.
  - intros j Hj. exists Scenario.pod7a. split; reflexivity.
Defined.

(** X14. With a check interval of zero the wait never times out: a pod
    that is never ready is polled again and again, without a pause, and
    the maximal wait is never used up.  (In the model: whatever number
    of rounds the loop is given, it uses them all up.) *)
Theorem X14_zero_interval_never_times_out (kubectl : Clientset) (pod : Pod)
    (maxWaitTime : Z) (fuel : nat) (s : State) :
  0 < maxWaitTime <= Go.int64_max ->
  (forall t : nat, notReadyAt kubectl pod t) ->
  fst (waitForPodReady fuel kubectl pod maxWaitTime 0 s) = OutOfFuel /\
  now (snd (waitForPodReady fuel kubectl pod maxWaitTime 0 s)) = (now s + fuel)%nat.
Proof.
  intros Hmax Hnot. revert s. induction fuel as [|fuel IH]; intros s.
  - simpl. split; [done|lia].
  - rewrite waitForPodReady_S.
    destruct (Z.ltb_spec 0 maxWaitTime); [|lia]. mrun.
    destruct (Hnot (now s)) as (pod' & -> & ->). mrun.
    assert (Go.sub64 maxWaitTime 0 = maxWaitTime) as ->.
    { unfold Go.sub64, Go.wrap, Go.int64_max in *. rewrite Z.mod_small; lia. }
    destruct (IH (record [Sleep 0] (tick s))) as [-> ->]. simpl. split; [done|lia].
Qed.

Lemma X14_witness :
  fst (waitForPodReady 7 Scenario.steadyCluster Scenario.pod7a (10 * Go.Second) 0
         (Scenario.connected Scenario.steadyCluster (Scenario.configOf [] [])))
  = OutOfFuel.
Proof.
  refine (proj1 (X14_zero_interval_never_times_out Scenario.steadyCluster
                   Scenario.pod7a (10 * Go.Second) 7
                   (Scenario.connected Scenario.steadyCluster (Scenario.configOf [] []))
                   _ _)).
  - done.
  - intros t. exists Scenario.pod7a. split; reflexivity.
Defined.

(** ** Building the images *)

(** X15. The rebuild decision settles: where the Dockerfile exists and
    its modification time survives being formatted and parsed again, a
    call that follows any call on the same file, without the build flag,
    decides to skip and leaves the record as it found it. *)
Theorem X15_rebuild_decision_settles (W : World) (imageConf : ImageConfig)
    (dockerfilePath : string) (buildFlagChanged : bool)
    (dockerfileInfo : FileInfo) (s : State) :
  os_Stat W dockerfilePath = inr dockerfileInfo ->
  Go.Equal (fst (time_Parse W (time_Format W (ModTime dockerfileInfo))))
           (ModTime dockerfileInfo) = true ->
  exists (mustRebuild : bool) (imageConf' : ImageConfig),
    shouldRebuild W imageConf dockerfilePath buildFlagChanged s
      = (Ret (mustRebuild, imageConf'), s) /\
    shouldRebuild W imageConf' dockerfilePath false s = (Ret (false, imageConf'), s).
Proof.
  intros Hstat Hround. eexists _, _.
  split; [by apply shouldRebuild_exists|].
  rewrite (shouldRebuild_exists W _ _ _ dockerfileInfo) by done.
  simpl. by rewrite Hround.
Qed.

(** A forced build of the image built before, and the call after it. *)
Lemma X15_witness :
  exists (mustRebuild : bool) (imageConf' : ImageConfig),
    shouldRebuild (Scenario.world Scenario.steadyCluster false (None, None))
      Scenario.builtImage "/work/Dockerfile" true
      (Scenario.connected Scenario.steadyCluster (Scenario.configOf [] []))
    = (Ret (mustRebuild, imageConf'),
       Scenario.connected Scenario.steadyCluster (Scenario.configOf [] [])) /\
    shouldRebuild (Scenario.world Scenario.steadyCluster false (None, None))
      imageConf' "/work/Dockerfile" false
      (Scenario.connected Scenario.steadyCluster (Scenario.configOf [] []))
    = (Ret (false, imageConf'),
       Scenario.connected Scenario.steadyCluster (Scenario.configOf [] [])).
Proof.
  apply (X15_rebuild_decision_settles
           (Scenario.world Scenario.steadyCluster false (None, None))
           Scenario.builtImage "/work/Dockerfile" true
           {| ModTime := Scenario.dockerfileModTime |}).
  - reflexivity.
  - vm_compute. reflexivity.
Defined.

Section Images.
Variable W : World.

Lemma buildImage_upToDate (imageName : string) (imageConf : ImageConfig) (s : State) :
  upToDate W (workdir (cmd s)) imageConf ->
  exists s',
    buildImage W false imageName imageConf s = (Ret false, s') /\
    trace s' = trace s ++ [skipped (imageName, imageConf)] /\
    cmd s' = cmd s /\ now s' = now s /\
    map fst (Images (config s')) = map fst (Images (config s)).
Proof.
  intros (dockerfileInfo & stored & Hstat & Hts & Heq).
  unfold buildImage. mrun. cbv zeta.
  unfold dockerfileOf in Hstat.
  rewrite (shouldRebuild_exists W _ _ _ dockerfileInfo) by done.
  rewrite Hts, Heq. cbn [negb]. cbv beta iota.
  unfold storeImage. mrun. eexists. split; [done|].
  cbn [trace cmd now config record withConfig Images]. repeat split.
  rewrite map_map. apply map_ext. intros [name conf]. simpl.
  by destruct (String.eqb_spec name imageName).
Qed.

(** The loop over a list that starts with images that are up to date. *)
Lemma buildImagesLoop_skips (images rest : list (string * ImageConfig)) :
  forall (re : bool) (s : State),
    Forall (fun entry => upToDate W (workdir (cmd s)) (snd entry)) images ->
    exists s',
      buildImagesLoop W false (images ++ rest) re s
      = buildImagesLoop W false rest re s' /\
      trace s' = trace s ++ map skipped images /\
      cmd s' = cmd s /\ now s' = now s /\
      map fst (Images (config s')) = map fst (Images (config s)).
Proof.
  induction images as [|[imageName imageConf] images IH]; intros re s Hall.
  - exists s. simpl. by rewrite app_nil_r.
  - apply Forall_cons in Hall as [Hfirst Hrest].
    cbn [buildImagesLoop app].
    destruct (buildImage_upToDate imageName imageConf s Hfirst)
      as (s1 & Hrun & Ht & Hc & Hn & Hnames).
    rewrite run_bind, Hrun. cbv beta iota.
    destruct (IH re s1) as (s2 & Hrun2 & Ht2 & Hc2 & Hn2 & Hnames2);
      [by rewrite Hc|].
    exists s2. split; [done|].
    rewrite Ht2, Ht, Hc2, Hc, Hn2, Hn, Hnames2, Hnames, <- app_assoc. done.
Qed.

(** A write through the pointer of an image changes the entry of that
    image and no other. *)
Lemma store_at (imageName : string) (imageConf imageConf' : ImageConfig)
    (pre post : list (string * ImageConfig)) :
  imageName ∉ map fst pre -> imageName ∉ map fst post ->
  map (fun entry : string * ImageConfig =>
         if (fst entry =? imageName)%string then (imageName, imageConf') else entry)
      (pre ++ (imageName, imageConf) :: post)
  = pre ++ (imageName, imageConf') :: post.
Proof.
  intros Hpre Hpost.
  assert (forall l : list (string * ImageConfig),
            imageName ∉ map fst l ->
            map (fun entry : string * ImageConfig =>
                   if (fst entry =? imageName)%string
                   then (imageName, imageConf') else entry) l = l) as Hkeep.
  { induction l as [|[n c] l IH]; [done|]. simpl.
    rewrite not_elem_of_cons. intros [Hne Hl].
    destruct (String.eqb_spec n imageName); [done|]. by rewrite IH. }
  rewrite map_app. cbn [map fst]. rewrite String.eqb_refl, !Hkeep by done. done.
Qed.

Lemma buildImage_forced (imageTag : string -> string)
    (dockerfileInfo : ImageConfig -> FileInfo)
    (imageName : string) (imageConf : ImageConfig)
    (pre post : list (string * ImageConfig)) (s : State) :
  configutil_SaveConfig W = None ->
  buildable W imageTag dockerfileInfo (workdir (cmd s)) (imageName, imageConf) ->
  Images (config s) = pre ++ (imageName, imageConf) :: post ->
  imageName ∉ map fst pre -> imageName ∉ map fst post ->
  exists s',
    buildImage W true imageName imageConf s = (Ret true, s') /\
    trace s' = trace s ++ built imageTag (imageName, imageConf) /\
    cmd s' = cmd s /\
    Images (config s')
    = pre ++ rebuilt W imageTag dockerfileInfo (imageName, imageConf) :: post.
Proof.
  intros Hsave (Hstat & Hrand & Hrun) Himages Hpre Hpost. simpl in Hstat, Hrand, Hrun.
  unfold buildImage. mrun. cbv zeta. unfold dockerfileOf in Hstat.
  rewrite (shouldRebuild_exists W _ _ _ (dockerfileInfo imageConf)) by done.
  cbv beta iota. unfold storeImage. mrun. rewrite Hrand. mrun. rewrite Hrun. mrun.
  rewrite Hsave. mrun. eexists. split; [done|].
  cbn [trace cmd config record withConfig Images]. rewrite <- !app_assoc.
  split; [done|]. split; [done|].
  rewrite Himages, (store_at imageName imageConf) by done.
  by rewrite (store_at imageName) by done.
Qed.

Lemma buildImagesLoop_forced (imageTag : string -> string)
    (dockerfileInfo : ImageConfig -> FileInfo)
    (todo : list (string * ImageConfig)) :
  configutil_SaveConfig W = None ->
  forall (pre : list (string * ImageConfig)) (re : bool) (s : State),
    Forall (buildable W imageTag dockerfileInfo (workdir (cmd s))) todo ->
    Images (config s) = pre ++ todo ->
    NoDup (map fst (pre ++ todo)) ->
    exists s',
      buildImagesLoop W true todo re s
      = (Ret (match todo with [] => re | _ => true end), s') /\
      trace s' = trace s ++ concat (map (built imageTag) todo) /\
      cmd s' = cmd s /\
      Images (config s') = pre ++ map (rebuilt W imageTag dockerfileInfo) todo.
Proof.
  intros Hsave. induction todo as [|[imageName imageConf] todo IH];
    intros pre re s Hall Himages Hnodup.
  - exists s. simpl. rewrite !app_nil_r in *. done.
  - apply Forall_cons in Hall as [Hfirst Hrest]. cbn [buildImagesLoop].
    rewrite map_app in Hnodup. cbn [map fst] in Hnodup.
    apply NoDup_app in Hnodup as (Hnd_pre & Hdisj & Hnd_todo).
    apply NoDup_cons in Hnd_todo as [Hnot_todo Hnd_todo].
    assert (imageName ∉ map fst pre) as Hnot_pre.
    { intros Hin. apply (Hdisj _ Hin). apply list_elem_of_here. }
    destruct (buildImage_forced imageTag dockerfileInfo imageName imageConf pre todo s)
      as (s1 & Hrun & Ht & Hc & Hcfg); try done.
    rewrite run_bind, Hrun. cbv beta iota.
    destruct (IH (pre ++ [rebuilt W imageTag dockerfileInfo (imageName, imageConf)])
                 true s1) as (s2 & Hrun2 & Ht2 & Hc2 & Hcfg2).
    + by rewrite Hc.
    + by rewrite Hcfg, <- app_assoc.
    + rewrite <- app_assoc, map_app. cbn [map fst app].
      apply NoDup_app. split; [done|]. split; [|by apply NoDup_cons].
      intros x Hin. apply Hdisj in Hin. done.
    + exists s2. rewrite Hrun2, Ht2, Ht, Hc2, Hc, Hcfg2.
      cbn [map concat]. rewrite <- !app_assoc.
      split; [by destruct todo|]. done.
Qed.

End Images.

(** X16. When every image is up to date (its Dockerfile is there and
    was last written at the instant stored for the latest build) and the
    build flag was not given, [buildImages] returns false: it calls no
    build engine and saves nothing, logs one skip line per image in the
    order of the iteration, and leaves the command and the names of the
    images as they were. *)
Theorem X16_nothing_built_when_up_to_date (W : World) (s : State) :
  Forall (fun entry => upToDate W (workdir (cmd s)) (snd entry)) (Images (config s)) ->
  exists s' : State,
    buildImages W false s = (Ret false, s') /\
    trace s' = trace s ++ map skipped (Images (config s)) /\
    cmd s' = cmd s /\ now s' = now s /\
    map fst (Images (config s')) = map fst (Images (config s)).
Proof.
  intros Hall. unfold buildImages. mrun.
  destruct (buildImagesLoop_skips W (Images (config s)) [] false s Hall)
    as (s' & Hrun & Hrest).
  rewrite app_nil_r in Hrun. exists s'. by rewrite Hrun.
Qed.

(** The image built when its Dockerfile was last written. *)
Lemma X16_witness :
  exists s' : State,
    buildImages (Scenario.world Scenario.steadyCluster false (None, None)) false
      (Scenario.connected Scenario.steadyCluster
         (Scenario.configOf [("web", Scenario.freshImage)] []))
    = (Ret false, s') /\
    trace s' = [LogInfo "Skip building image 'web'"].
Proof.
  destruct (X16_nothing_built_when_up_to_date
              (Scenario.world Scenario.steadyCluster false (None, None))
              (Scenario.connected Scenario.steadyCluster
                 (Scenario.configOf [("web", Scenario.freshImage)] [])))
    as (s' & Hrun & Htrace & _).
  - repeat constructor.
    exists {| ModTime := Scenario.dockerfileModTime |}, "2018-08-23T10:15:30.500000001Z".
    repeat split; vm_compute; reflexivity.
  - exists s'. split; [exact Hrun|exact Htrace].
Defined.

(** X17. [buildImages] exits in [log.Fatal] at the first image whose
    Dockerfile is missing and that has no build on record; with only
    images that are up to date before it, the skip lines of those are
    all the run has logged, and the images after it are not looked at. *)
Theorem X17_missing_dockerfile_aborts_the_build (W : World) (s : State)
    (before after : list (string * ImageConfig))
    (imageName : string) (imageConf : ImageConfig) (err : Go.error) :
  Images (config s) = before ++ (imageName, imageConf) :: after ->
  Forall (fun entry => upToDate W (workdir (cmd s)) (snd entry)) before ->
  os_Stat W (dockerfileOf W (workdir (cmd s)) imageConf) = inl err ->
  LatestTimestamp (Build imageConf) = None ->
  fst (buildImages W false s) = Fatal ("Dockerfile missing: " +:+ Go.Error err) /\
  trace (snd (buildImages W false s)) = trace s ++ map skipped before.
Proof.
  intros Himages Hbefore Hstat Hts. unfold buildImages. mrun. rewrite Himages.
  destruct (buildImagesLoop_skips W before ((imageName, imageConf) :: after) false s
              Hbefore) as (s1 & -> & Ht & Hc & _).
  cbn [buildImagesLoop]. rewrite run_bind. unfold buildImage. mrun. cbv zeta.
  unfold dockerfileOf in Hstat. rewrite Hc.
  unfold shouldRebuild. rewrite Hstat, Hts. mrun. cbn [fst snd]. by rewrite Ht.
Qed.

(** An image that is up to date, then one that was never built and has
    no Dockerfile. *)
Lemma X17_witness :
  fst (buildImages (Scenario.world Scenario.steadyCluster false (None, None)) false
         (Scenario.connected Scenario.steadyCluster
            (Scenario.configOf [("web", Scenario.freshImage);
                                ("api", Scenario.neverBuilt)] [])))
  = Fatal "Dockerfile missing: stat /work/api/Dockerfile: no such file or directory".
Proof.
  refine (proj1 (X17_missing_dockerfile_aborts_the_build
                   (Scenario.world Scenario.steadyCluster false (None, None))
                   (Scenario.connected Scenario.steadyCluster
                      (Scenario.configOf [("web", Scenario.freshImage);
                                          ("api", Scenario.neverBuilt)] []))
                   [("web", Scenario.freshImage)] [] "api" Scenario.neverBuilt
                   (Go.errorString
                      "stat /work/api/Dockerfile: no such file or directory")
                   eq_refl _ _ eq_refl)).
  - repeat constructor.
    exists {| ModTime := Scenario.dockerfileModTime |}, "2018-08-23T10:15:30.500000001Z".
    repeat split; vm_compute; reflexivity.
  - reflexivity.
Defined.

(** X18. With the build flag given and every collaborator succeeding,
    [buildImages] builds every image, in the order of the iteration:
    for each it calls the build engine under a fresh tag, saves the
    configuration and logs that it is done; it returns true when there
    is an image at all; and afterwards the entry of each image carries
    its new tag and the modification time of its Dockerfile, and is
    otherwise what it was. *)
Theorem X18_forced_build_rebuilds_every_image (W : World)
    (imageTag : string -> string) (dockerfileInfo : ImageConfig -> FileInfo)
    (s : State) :
  configutil_SaveConfig W = None ->
  NoDup (map fst (Images (config s))) ->
  Forall (buildable W imageTag dockerfileInfo (workdir (cmd s))) (Images (config s)) ->
  exists s' : State,
    buildImages W true s
    = (Ret (match Images (config s) with [] => false | _ => true end), s') /\
    trace s' = trace s ++ concat (map (built imageTag) (Images (config s))) /\
    cmd s' = cmd s /\
    Images (config s') = map (rebuilt W imageTag dockerfileInfo) (Images (config s)).
Proof.
  intros Hsave Hnodup Hall. unfold buildImages. mrun.
  by apply (buildImagesLoop_forced W imageTag dockerfileInfo _ Hsave []).
Qed.

(** The image built before, built again with [--build]. *)
Lemma X18_witness :
  exists s' : State,
    buildImages (Scenario.world Scenario.steadyCluster true (None, None)) true
      (Scenario.connected Scenario.steadyCluster
         (Scenario.configOf [("web", Scenario.builtImage)] []))
    = (Ret true, s') /\
    trace s' = [CallBuilder "web" "qwertyu"; CallSaveConfig;
                LogDone "Done building and pushing image 'web'"] /\
    Tag <$> (snd <$> Images (config s')) = [Some "qwertyu"].
Proof.
  destruct (X18_forced_build_rebuilds_every_image
              (Scenario.world Scenario.steadyCluster true (None, None))
              (fun _ => "qwertyu")
              (fun _ => {| ModTime := Scenario.dockerfileModTime |})
              (Scenario.connected Scenario.steadyCluster
                 (Scenario.configOf [("web", Scenario.builtImage)] [])))
    as (s' & Hrun & Htrace & _ & Hconfig).
  - reflexivity.
  - repeat constructor. intros Hin. by apply elem_of_nil in Hin.
  - repeat constructor.
  - exists s'. split; [exact Hrun|]. split; [exact Htrace|].
    rewrite Hconfig. reflexivity.
Defined.

(** ** Port forwarding *)

Section Forwarding.
Variable W : World.

Lemma forwardPorts_returns (portForwarding : PortForwardingConfig)
    (client : Clientset) (s : State) :
  kubectl (cmd s) = Some client ->
  exists s',
    forwardPorts W portForwarding s = (Ret tt, s') /\
    cmd s' = cmd s /\ config s' = config s /\
    (now s <= now s' <= now s + 1)%nat.
Proof.
  intros Hk. unfold forwardPorts.
  destruct (ResourceType portForwarding =? "pod")%string;
    [|eexists; split; [by mrun|]; simpl; repeat split; lia].
  destruct (0 <? length (LabelSelector portForwarding))%nat;
    [|eexists; split; [by mrun|]; simpl; repeat split; lia].
  unfold getKubectl. mrun. rewrite Hk. mrun.
  destruct (Kubectl.GetFirstRunningPod _ _ _ _) as [err|[p|]]; mrun.
  - eexists; split; [done|]; simpl; repeat split; lia.
  - destruct (forward_ready W _ _); mrun; eexists; (split; [done|]); simpl;
      repeat split; lia.
  - eexists; split; [done|]; simpl; repeat split; lia.
Qed.

Lemma forM_forwardPorts_returns (mappings : list PortForwardingConfig)
    (client : Clientset) :
  forall s : State,
    kubectl (cmd s) = Some client ->
    exists s',
      forM_ mappings (forwardPorts W) s = (Ret tt, s') /\
      cmd s' = cmd s /\ config s' = config s /\
      (now s <= now s' <= now s + length mappings)%nat.
Proof.
  induction mappings as [|portForwarding mappings IH]; intros s Hk.
  - exists s. simpl. repeat split; lia.
  - cbn [forM_].
    destruct (forwardPorts_returns portForwarding client s Hk)
      as (s1 & Hrun & Hc & Hcfg & Hn).
    rewrite run_bind, Hrun. cbv beta iota.
    destruct (IH s1) as (s2 & Hrun2 & Hc2 & Hcfg2 & Hn2); [by rewrite Hc|].
    exists s2. split; [done|]. rewrite Hc2, Hc, Hcfg2, Hcfg. simpl.
    repeat split; lia.
Qed.

End Forwarding.

(** X19. Once the client is there, [startPortForwarding] always
    returns: a list request that fails, a tunnel that does not come up
    in time and a mapping of a resource type other than "pod" are
    logged and the loop goes on, so nothing in it ends the command; it
    changes neither the command nor the configuration and issues at most
    one request per mapping. *)
Theorem X19_port_forwarding_never_aborts (W : World) (client : Clientset) (s : State) :
  kubectl (cmd s) = Some client ->
  exists s' : State,
    startPortForwarding W s = (Ret tt, s') /\
    cmd s' = cmd s /\ config s' = config s /\
    (now s <= now s' <= now s + length (PortForwarding (config s)))%nat.
Proof.
  intros Hk. unfold startPortForwarding. mrun.
  by apply (forM_forwardPorts_returns W _ client).
Qed.

(** A mapping onto a service and one onto the pods of the release. *)
Lemma X19_witness :
  exists s' : State,
    startPortForwarding (Scenario.world Scenario.steadyCluster false (None, None))
      (Scenario.connected Scenario.steadyCluster
         (Scenario.configOf [] [Scenario.serviceMapping; Scenario.podMapping]))
    = (Ret tt, s') /\
    (now s' <= 2)%nat.
Proof.
  destruct (X19_port_forwarding_never_aborts
              (Scenario.world Scenario.steadyCluster false (None, None))
              Scenario.steadyCluster
              (Scenario.connected Scenario.steadyCluster
                 (Scenario.configOf [] [Scenario.serviceMapping; Scenario.podMapping]))
              eq_refl) as (s' & Hrun & _ & _ & Hnow).
  exists s'. split; [exact Hrun|]. exact (proj2 Hnow).
Defined.

(** X20. A mapping onto pods that selects nothing is passed over
    without a word.  With an empty label selector no request is made at
    all.  Otherwise one list request is made, for the label pairs of the
    mapping in the namespace the mapping names (that of the release
    where it names none); when that request succeeds and no listed pod
    has the status "Running", the request is all that happens: nothing
    is logged and no tunnel is opened. *)
Theorem X20_mapping_without_running_pod_is_skipped_silently (W : World)
    (portForwarding : PortForwardingConfig) (client : Clientset) (s : State)
    (items : list Pod) :
  ResourceType portForwarding = "pod" ->
  kubectl (cmd s) = Some client ->
  (LabelSelector portForwarding = [] ->
   forwardPorts W portForwarding s = (Ret tt, s)) /\
  (LabelSelector portForwarding <> [] ->
   Pods_List client (now s) (namespaceOf (config s) portForwarding)
             (selectorOf portForwarding) = inr items ->
   Forall (fun p => Kubectl.GetPodStatus p <> "Running") items ->
   forwardPorts W portForwarding s = (Ret tt, tick s)).
Proof.
  intros Htype Hk. unfold forwardPorts. rewrite Htype. cbn [String.eqb Ascii.eqb Bool.eqb].
  split.
  - intros ->. reflexivity.
  - intros Hne Hlist Hnone.
    destruct (LabelSelector portForwarding) as [|kv labels] eqn:Hsel; [done|].
    change (0 <? length (kv :: labels))%nat with true. cbv iota.
    unfold getKubectl. mrun. rewrite Hk. mrun.
    match goal with |- context [Kubectl.GetFirstRunningPod client (now s) ?l ?n] =>
      assert (Kubectl.GetFirstRunningPod client (now s) l n = inr None) as ->
    end; [|done].
    unfold Kubectl.GetFirstRunningPod.
    unfold namespaceOf, selectorOf in Hlist. rewrite Hsel in Hlist.
    match goal with |- context [Pods_List client (now s) ?n ?l] =>
      replace (Pods_List client (now s) n l) with (@inr Go.error _ items)
    end.
    + f_equal. clear Hlist.
      induction Hnone as [|p items Hp _ IH]; [done|]. cbn [find].
      by destruct (String.eqb_spec (Kubectl.GetPodStatus p) "Running").
    + rewrite <- Hlist. f_equal.
      destruct (PortForwarding_Namespace portForwarding) as [[|a ns]|]; reflexivity.
Qed.

(** The mapping into the namespace [staging], in a cluster whose pods
    are all in another namespace; and the mapping onto the pods of the
    release, where the one pod there is has not started its container. *)
Lemma X20_witness :
  forwardPorts (Scenario.world Scenario.steadyCluster false (None, None))
    Scenario.stagingMapping
    (Scenario.connected Scenario.steadyCluster
       (Scenario.configOf [] [Scenario.stagingMapping]))
  = (Ret tt,
     tick (Scenario.connected Scenario.steadyCluster
             (Scenario.configOf [] [Scenario.stagingMapping]))) /\
  forwardPorts (Scenario.world Scenario.stuckCluster false (None, None))
    Scenario.podMapping
    (Scenario.connected Scenario.stuckCluster
       (Scenario.configOf [] [Scenario.podMapping]))
  = (Ret tt,
     tick (Scenario.connected Scenario.stuckCluster
             (Scenario.configOf [] [Scenario.podMapping]))).
Proof.
  split.
  - refine (proj2 (X20_mapping_without_running_pod_is_skipped_silently
                     (Scenario.world Scenario.steadyCluster false (None, None))
                     Scenario.stagingMapping Scenario.steadyCluster
                     (Scenario.connected Scenario.steadyCluster
                        (Scenario.configOf [] [Scenario.stagingMapping]))
                     [] eq_refl eq_refl) _ _ _).
    + discriminate.
    + reflexivity.
    + constructor.
  - refine (proj2 (X20_mapping_without_running_pod_is_skipped_silently
                     (Scenario.world Scenario.stuckCluster false (None, None))
                     Scenario.podMapping Scenario.stuckCluster
                     (Scenario.connected Scenario.stuckCluster
                        (Scenario.configOf [] [Scenario.podMapping]))
                     [Scenario.startingPod] eq_refl eq_refl) _ _ _).
    + discriminate.
    + reflexivity.
    + repeat constructor. discriminate.
Defined.

(** ** The run as a whole *)

Lemma respects_setCmd (P : Event -> Prop) (c : UpCmd) :
  respects (frame P false) (setCmd c).
Proof.
  intros s. split; [|done]. exists []. split; [by rewrite app_nil_r|constructor].
Qed.

(** What each step of [Run] can leave in the trace, for any set [P] of
    events that holds the lines of the log. *)
Section Footprints.
Variable W : World.
Context (P : Event -> Prop) (keepPod : bool).
Hypothesis HP : forall e, isLog e = true -> P e.

Lemma footprint_waitForRelease (fuel : nat) (releaseName releaseNamespace : string)
    (releaseRevision : Z) :
  respects (frame P false)
           (waitForRelease fuel releaseName releaseNamespace releaseRevision).
Proof.
  induction fuel as [|fuel IH].
  - simpl. frames.
  - rewrite waitForRelease_S. frames; try (by apply HP); try apply IH.
    apply frame_waitForPodReady. intros d. by apply HP.
Qed.

Lemma footprint_deployChart (fuel : nat) :
  (forall releaseName releaseNamespace,
     P (CallHelmInstall releaseName releaseNamespace)) ->
  respects (frame P false) (deployChart W fuel).
Proof.
  intros Hhelm. unfold deployChart. frames; try (by apply HP); try apply Hhelm.
  all: apply footprint_waitForRelease.
Qed.

Lemma footprint_storeImage (imageName : string) (imageConf : ImageConfig) :
  respects (frame P keepPod) (storeImage imageName imageConf).
Proof. unfold storeImage. frames. Qed.

Lemma footprint_buildImage (buildFlagChanged : bool) (imageName : string)
    (imageConf : ImageConfig) :
  (forall name tag, P (CallBuilder name tag)) -> P CallSaveConfig ->
  respects (frame P keepPod) (buildImage W buildFlagChanged imageName imageConf).
Proof.
  intros Hbuilder Hsave. unfold buildImage.
  apply respects_bind; [apply respects_get|]. intros s. cbv zeta.
  apply respects_bind.
  { intros s0. rewrite shouldRebuild_state. apply frame_refl. }
  intros [rebuild conf'].
  apply respects_bind; [apply footprint_storeImage|]. intros _.
  destruct rebuild.
  - destruct (randutil_GenerateRandomString W imageName); [apply respects_fatal|].
    apply respects_bind; [by apply respects_emit|]. intros _.
    destruct (builder_run W imageName _); [apply respects_fatal|].
    apply respects_bind; [apply footprint_storeImage|]. intros _.
    frames; try done. by apply HP.
  - frames. by apply HP.
Qed.

Lemma footprint_buildImages (buildFlagChanged : bool) :
  (forall name tag, P (CallBuilder name tag)) -> P CallSaveConfig ->
  respects (frame P keepPod) (buildImages W buildFlagChanged).
Proof.
  intros Hbuilder Hsave. unfold buildImages.
  apply respects_bind; [apply respects_get|]. intros s.
  generalize false. induction (Images (config s)) as [|[imageName imageConf] images IH];
    intros re; cbn [buildImagesLoop].
  - apply respects_ret.
  - apply respects_bind; [by apply footprint_buildImage|]. intros rebuilt. apply IH.
Qed.

Lemma footprint_startPortForwarding :
  (forall podName ports, P (CallForwardPorts podName ports)) ->
  respects (frame P keepPod) (startPortForwarding W).
Proof.
  intros Hforward. unfold startPortForwarding. frames.
  unfold forwardPorts. frames; try (by apply HP). apply Hforward.
Qed.

Lemma footprint_startSync :
  (forall podName watchPath destPath, P (CallStartSync podName watchPath destPath)) ->
  respects (frame P keepPod) (startSync W).
Proof.
  intros Hsync. apply respects_startSync; [done|]. intros msg. by apply HP.
Qed.

Lemma footprint_initRegistries :
  P CallInitInternalRegistry ->
  (forall namespace registryURL username password email,
     P (CallCreatePullSecret namespace registryURL username password email)) ->
  P CallSaveConfig ->
  respects (frame P keepPod) (initRegistries' W).
Proof.
  intros Hinit Hsecret Hsave. apply respects_initRegistries.
  intros [] He; try done; by apply HP.
Qed.

Lemma footprint_enterTerminal :
  (forall podName container command, P (CallExec podName container command)) ->
  respects (frame P keepPod) (enterTerminal W).
Proof. intros Hexec. unfold enterTerminal. frames. apply Hexec. Qed.

End Footprints.

(** [Run] up to its last steps: it is over before them, or comes to
    them, with only events of [P] behind it. *)
Section RunShape.
Variable W : World.
Context (P : Event -> Prop) (f : UpCmdFlags).
Hypothesis HP : forall e, isLog e = true -> P e.
Hypothesis Hinit : P CallInit.
Hypothesis Hbuilder : build f = true -> forall name tag, P (CallBuilder name tag).
Hypothesis Hsave : P CallSaveConfig.
Hypothesis Hlookup : P CallGetRunningDevSpacePod.
Hypothesis Hregistries :
  initRegistries f = true ->
  P CallInitInternalRegistry /\
  forall namespace registryURL username password email,
    P (CallCreatePullSecret namespace registryURL username password email).

Lemma deployOrReuse_shape (fuel : nat) (mustRedeploy : bool) (s2 : State) :
  helmAllowed W P f ->
  Forall P (trace s2) ->
  (mustRedeploy = true -> build f = true) ->
  beforeConnect W P f
    ((emit CallGetRunningDevSpacePod;;
      let '(pod, err) := getRunningDevSpacePod W in
      (if (bool_decide (is_Some err) || mustRedeploy || deploy f)%bool
       then deployChart W fuel
       else setPod pod);;
      connect W f) s2).
Proof.
  unfold helmAllowed, beforeConnect. intros Hhelm Htrace Hre. mrun.
  assert (Forall P (trace (record [CallGetRunningDevSpacePod] s2))) as Htrace3.
  { simpl. apply Forall_app. split; [done|]. by repeat constructor. }
  destruct (getRunningDevSpacePod W) as [running err]. simpl in Hhelm.
  destruct (bool_decide (is_Some err) || mustRedeploy || deploy f)%bool eqn:Hcond.
  - rewrite run_bind.
    assert (forall releaseName releaseNamespace,
              P (CallHelmInstall releaseName releaseNamespace)) as Hh.
    { apply Hhelm. destruct mustRedeploy; [by rewrite Hre|].
      rewrite orb_false_r in Hcond.
      destruct (build f), (deploy f), (bool_decide _); done. }
    destruct (footprint_deployChart W P HP fuel Hh (record [CallGetRunningDevSpacePod] s2))
      as [(events & Ht & Hev) _].
    destruct (deployChart W fuel _) as [[[]|msg|msg|] s4]; simpl in Ht.
    1: right; exists s4; split; [done|]; rewrite Ht; by apply Forall_app.
    all: left; simpl; rewrite Ht; split; [by apply Forall_app|done].
  - unfold setPod. mrun. right. eexists. split; [done|]. exact Htrace3.
Qed.

Lemma buildAndDeploy_shape (fuel : nat) (s1 : State) :
  helmAllowed W P f ->
  Forall P (trace s1) -> beforeConnect W P f (buildAndDeploy W f fuel s1).
Proof.
  intros Hhelm Htrace. unfold buildAndDeploy. rewrite run_bind.
  assert (build f = true \/ build f = false) as [Hbuild|Hbuild]
    by (destruct (build f); auto); rewrite Hbuild.
  - destruct (footprint_buildImages W P false HP (build_Changed W)
                (Hbuilder Hbuild) Hsave s1) as [(events & Ht & Hev) _].
    destruct (buildImages W (build_Changed W) s1) as [[mustRedeploy|msg|msg|] s2];
      simpl in Ht.
    1: apply deployOrReuse_shape; [done|rewrite Ht; by apply Forall_app|done].
    all: left; simpl; rewrite Ht; split; [by apply Forall_app|done].
  - rewrite run_ret. by apply deployOrReuse_shape.
Qed.

Lemma Run_shape (c : Config) (fuel : nat) :
  helmAllowed W P f -> beforeConnect W P f (Run W fuel (initial f c)).
Proof.
  intros Hhelm. unfold Run.
  destruct (os_Getwd W) as [err|dir]; [left; split; [constructor|done]|].
  unfold setWorkdir, setKubectl. mrun.
  destruct (configutil_ConfigExists W); unfold when, negb; mrun.
  all: destruct (kubectl_NewClient W) as [err|client]; mrun;
    [left; split; [simpl; by repeat constructor|done]|].
  all: rewrite (ensureNamespace_run client) by reflexivity.
  all: destruct (Namespaces_Get _ _ _); [destruct (Namespaces_Create _ _ _)|];
    mrun; try (left; split; [simpl; by repeat constructor|done]).
  all: unfold initHelm; mrun; destruct (helmClient_NewClient W); mrun;
    try (left; split; [simpl; repeat constructor; by (done || apply HP)|done]).
  all: simpl;
    assert (initRegistries f = true \/ initRegistries f = false) as [Hflag|Hflag]
      by (destruct (initRegistries f); auto);
    rewrite Hflag;
    [|mrun; apply buildAndDeploy_shape; [done|]; simpl; repeat constructor;
      by (done || apply HP)].
  all: match goal with |- context [initRegistries' W ?s] => set (s0 := s) end;
    assert (Forall P (trace s0)) as Hs0
      by (subst s0; simpl; repeat constructor; by (done || apply HP)).
  all: destruct (Hregistries Hflag) as [Hinternal Hsecret].
  all: destruct (footprint_initRegistries W P false HP Hinternal Hsecret Hsave s0)
    as [(events & Ht & Hev) _].
  all: destruct (initRegistries' W s0) as [[[]|msg|msg|] s1];
    cbn [snd] in Ht; cbv beta iota.
  all: try (left; cbn [fst snd]; split; [rewrite Ht; by apply Forall_app|done]).
  all: apply buildAndDeploy_shape; [done|]; rewrite Ht; by apply Forall_app.
Qed.

End RunShape.

(** The last steps of [Run]. *)
Section Connect.
Variable W : World.

Lemma enterTerminal_run (s : State) :
  (exists msg, enterTerminal W s = (Panic msg, s)) \/
  exists podName container command,
    snd (enterTerminal W s) = record [CallExec podName container command] s /\
    match terminal_exec W command with
    | None | Some (_, true) => fst (enterTerminal W s) = Ret tt
    | Some (err, false) =>
        fst (enterTerminal W s)
        = Fatal ("Unable to start terminal session: " +:+ Go.Error err)
    end.
Proof.
  unfold enterTerminal. mrun.
  destruct (pod (cmd s)) as [p|]; [|left; by eexists].
  destruct (Containers (Spec p)) as [|container rest]; [left; by eexists|].
  right. eexists _, _, _. mrun.
  destruct (terminal_exec W _) as [[err []]|] eqn:Hexec; simpl; mrun; simpl;
    (split; [reflexivity|]); by rewrite Hexec.
Qed.

Lemma footprint_connect (P : Event -> Prop) (keepPod : bool) (f : UpCmdFlags) :
  (forall e, isLog e = true -> P e) ->
  (portforwarding f = true -> forall podName ports, P (CallForwardPorts podName ports)) ->
  (sync f = true ->
   forall podName watchPath destPath,
     P (CallStartSync podName watchPath destPath) /\
     P (CallStopSync podName watchPath destPath)) ->
  (forall podName container command, P (CallExec podName container command)) ->
  respects (frame P keepPod) (connect W f).
Proof.
  intros HP Hforward Hsync Hexec. unfold connect.
  apply respects_bind.
  - destruct (portforwarding f); [|apply respects_ret].
    apply footprint_startPortForwarding; [done|by apply Hforward].
  - intros _. destruct (sync f).
    + apply respects_bind.
      * apply footprint_startSync; [done|]. intros. by apply Hsync.
      * intros syncConfigs. apply respects_defer.
        -- apply respects_stops. intros. by apply Hsync.
        -- by apply footprint_enterTerminal.
    + by apply footprint_enterTerminal.
Qed.

Lemma portForwarding_phase (P : Event -> Prop) (f : UpCmdFlags) (s2 : State) :
  (forall e, isLog e = true -> P e) ->
  (forall podName ports, P (CallForwardPorts podName ports)) ->
  Forall P (trace s2) ->
  Forall P (trace (snd (when (portforwarding f) (startPortForwarding W) s2))).
Proof.
  intros HP Hforward Htrace.
  destruct (respects_when P false (portforwarding f) (startPortForwarding W)
              (footprint_startPortForwarding W P false HP Hforward) s2)
    as [(events & -> & Hev) _].
  by apply Forall_app.
Qed.

(** The deferred function stops the syncs it was given, in their order,
    and does so when the body returns or panics. *)
Lemma stops_run (syncConfigs : list SyncConfig) :
  forall s : State,
    fst (forM_ syncConfigs (fun v => emit (stopOf v)) s) = Ret tt /\
    trace (snd (forM_ syncConfigs (fun v => emit (stopOf v)) s))
    = trace s ++ map stopOf syncConfigs.
Proof.
  induction syncConfigs as [|v rest IH]; intros s; cbn [forM_ map].
  - split; [done|]. by rewrite app_nil_r.
  - mrun. destruct (IH (record [stopOf v] s)) as [Hfst Htrace].
    split; [done|]. rewrite Htrace. simpl. by rewrite <- app_assoc.
Qed.

Lemma defer_stops {A} (syncConfigs : list SyncConfig) (body : M A) (s : State) :
  fst (defer (forM_ syncConfigs (fun v => emit (stopOf v))) body s) = fst (body s) /\
  trace (snd (defer (forM_ syncConfigs (fun v => emit (stopOf v))) body s))
  = trace (snd (body s)) ++
    match fst (body s) with
    | Ret _ | Panic _ => map stopOf syncConfigs
    | _ => []
    end.
Proof.
  unfold defer. destruct (body s) as [[a|msg|msg|] s']; simpl;
    rewrite ?app_nil_r; (split; [done|]); try done; apply stops_run.
Qed.

Lemma stopsOwed_app (l1 l2 : list Event) :
  stopsOwed (l1 ++ l2) = stopsOwed l1 ++ stopsOwed l2.
Proof. apply omap_app. Qed.

Lemma stopsOwed_none (l : list Event) :
  Forall (fun e => isStart e = false) l -> stopsOwed l = [].
Proof.
  induction 1 as [|e l He _ IH]; [done|].
  destruct e; first [discriminate He | exact IH].
Qed.

(** What [startSync] leaves in the trace: lines of the log and the
    starts of the syncs it returns, in their order, when it returns. *)
Lemma startSyncPath_starts (syncPath : SyncPath) (syncConfigs : list SyncConfig)
    (s : State) :
  exists events : list Event,
    trace (snd (startSyncPath W syncPath syncConfigs s)) = trace s ++ events /\
    Forall (fun e => isStop e = false) events /\
    forall started, fst (startSyncPath W syncPath syncConfigs s) = Ret started ->
      exists new, started = syncConfigs ++ new /\ stopsOwed events = map stopOf new.
Proof.
  unfold startSyncPath, getKubectl.
  destruct (filepath_Abs W (LocalSubPath syncPath)) as [err|absLocalPath]; mrun.
  { exists []. split; [by rewrite app_nil_r|]. split; [constructor|done]. }
  destruct (kubectl (cmd s)) as [client|]; mrun.
  2: { exists []. split; [by rewrite app_nil_r|]. split; [constructor|done]. }
  destruct (Kubectl.GetFirstRunningPod _ _ _ _) as [err|[p|]]; mrun.
  - exists []. split; [simpl; by rewrite app_nil_r|]. split; [constructor|done].
  - destruct (Containers (Spec p)) as [|container rest]; mrun.
    { exists []. split; [simpl; by rewrite app_nil_r|]. split; [constructor|done]. }
    destruct (syncConfig_Start W _); mrun.
    + eexists [_]. split; [reflexivity|]. split; [by repeat constructor|done].
    + eexists [_; _]. split; [simpl; by rewrite <- app_assoc|].
      split; [by repeat constructor|].
      intros started [= <-]. eexists [_]. split; reflexivity.
  - exists []. split; [simpl; by rewrite app_nil_r|]. split; [constructor|].
    intros started [= <-]. exists []. split; [by rewrite app_nil_r|done].
Qed.

Lemma startSyncLoop_starts (syncPaths : list SyncPath) :
  forall (syncConfigs : list SyncConfig) (s : State),
    exists events : list Event,
      trace (snd (startSyncLoop W syncPaths syncConfigs s)) = trace s ++ events /\
      Forall (fun e => isStop e = false) events /\
      forall started, fst (startSyncLoop W syncPaths syncConfigs s) = Ret started ->
        exists new, started = syncConfigs ++ new /\ stopsOwed events = map stopOf new.
Proof.
  induction syncPaths as [|syncPath rest IH]; intros syncConfigs s; cbn [startSyncLoop].
  - exists []. split; [by rewrite app_nil_r|]. split; [constructor|].
    intros started [= <-]. exists []. split; [by rewrite app_nil_r|done].
  - rewrite run_bind.
    destruct (startSyncPath_starts syncPath syncConfigs s) as (events1 & Ht1 & Hs1 & Hr1).
    destruct (startSyncPath W syncPath syncConfigs s) as [[configs1|msg|msg|] s1];
      simpl in Ht1, Hr1; cbv beta iota.
    2-4: exists events1; split; [done|]; split; [done|]; intros ? [=].
    destruct (Hr1 configs1 eq_refl) as (new1 & -> & Hnew1).
    destruct (IH (syncConfigs ++ new1) s1) as (events2 & Ht2 & Hs2 & Hr2).
    exists (events1 ++ events2). split; [by rewrite Ht2, Ht1, app_assoc|].
    split; [by apply Forall_app|].
    intros started Hstarted. destruct (Hr2 started Hstarted) as (new2 & -> & Hnew2).
    exists (new1 ++ new2). split; [by rewrite app_assoc|].
    by rewrite stopsOwed_app, map_app, Hnew1, Hnew2.
Qed.

Lemma startSync_starts (s : State) :
  exists events : list Event,
    trace (snd (startSync W s)) = trace s ++ events /\
    Forall (fun e => isStop e = false) events /\
    forall started, fst (startSync W s) = Ret started ->
      stopsOwed events = map stopOf started.
Proof.
  unfold startSync. mrun.
  destruct (startSyncLoop_starts (Sync (config s)) [] s) as (events & Ht & Hs & Hr).
  exists events. split; [done|]. split; [done|].
  intros started Hstarted. by destruct (Hr started Hstarted) as (new & -> & Hnew).
Qed.

Lemma connect_sync (f : UpCmdFlags) (s2 : State) :
  sync f = true ->
  Forall (fun e => isStart e = false /\ isStop e = false) (trace s2) ->
  (fst (connect W f s2) = Ret tt ->
   exists before,
     trace (snd (connect W f s2)) = before ++ stopsOwed before /\
     Forall (fun e => isStop e = false) before) /\
  (forall msg, fst (connect W f s2) = Fatal msg ->
               Forall (fun e => isStop e = false) (trace (snd (connect W f s2)))).
Proof.
  intros Hsync Hnot. unfold connect. rewrite Hsync, run_bind.
  pose proof (portForwarding_phase
                (fun e => isStart e = false /\ isStop e = false) f s2
                ltac:(by intros []) ltac:(done) Hnot) as Hpf.
  assert (forall l, Forall (fun e => isStart e = false /\ isStop e = false) l ->
                    Forall (fun e => isStop e = false) l) as Hweak.
  { intros l Hl. eapply Forall_impl; [done|]. by intros ? []. }
  destruct (when (portforwarding f) (startPortForwarding W) s2) as [[[]|msg|msg|] s3];
    simpl in Hpf; [|split; [done|intros ? _; by apply Hweak]..].
  rewrite run_bind.
  destruct (startSync_starts s3) as (events & Ht & Hev & Hstarted).
  destruct (startSync W s3) as [[syncConfigs|msg|msg|] s4]; simpl in Ht, Hstarted.
  2-4: split; [done|]; intros ? _; simpl; rewrite Ht; apply Forall_app;
    split; [by apply Hweak|done].
  specialize (Hstarted syncConfigs eq_refl).
  destruct (defer_stops syncConfigs (enterTerminal W) s4) as [Hfst Htrace].
  rewrite Hfst, Htrace. clear Hfst Htrace.
  destruct (enterTerminal_run s4)
    as [[msg Hpanic]|(podName & container & command & Hsnd & Houtcome)].
  { rewrite Hpanic. simpl. split; done. }
  rewrite Hsnd.
  assert (Forall (fun e => isStop e = false)
                 (trace s4 ++ [CallExec podName container command])) as Hbefore.
  { rewrite Ht. apply Forall_app. split; [|by repeat constructor].
    apply Forall_app. split; [by apply Hweak|done]. }
  assert (stopsOwed (trace s4 ++ [CallExec podName container command])
          = map stopOf syncConfigs) as Howed.
  { rewrite Ht, !stopsOwed_app, Hstarted, (stopsOwed_none (trace s3)).
    - simpl. by rewrite app_nil_r.
    - eapply Forall_impl; [exact Hpf|]. by intros ? []. }
  destruct (terminal_exec W command) as [[err []]|]; rewrite Houtcome; simpl.
  - split; [|done]. intros _. eexists. split; [|exact Hbefore]. by rewrite Howed.
  - split; [done|]. intros ? _. by rewrite app_nil_r.
  - split; [|done]. intros _. eexists. split; [|exact Hbefore]. by rewrite Howed.
Qed.

Lemma connect_terminal (f : UpCmdFlags) (s2 : State) :
  Forall (fun e => forall podName container command,
            e <> CallExec podName container command) (trace s2) ->
  (fst (connect W f s2) = Ret tt ->
   exists podName container command,
     CallExec podName container command ∈ trace (snd (connect W f s2))) /\
  (forall podName container command,
     CallExec podName container command ∈ trace (snd (connect W f s2)) ->
     match terminal_exec W command with
     | None | Some (_, true) => fst (connect W f s2) = Ret tt
     | Some (err, false) =>
         fst (connect W f s2)
         = Fatal ("Unable to start terminal session: " +:+ Go.Error err)
     end).
Proof.
  intros Hnot. unfold connect. rewrite run_bind.
  pose proof (portForwarding_phase
                (fun e => forall podName container command,
                            e <> CallExec podName container command) f s2
                ltac:(by intros []) ltac:(done) Hnot) as Hpf.
  assert (forall (l : list Event) podName container command,
            Forall (fun e => forall podName container command,
                      e <> CallExec podName container command) l ->
            CallExec podName container command ∉ l) as Hout.
  { intros l podName container command Hl Hin.
    eapply Forall_forall in Hl; [|done]. by eapply Hl. }
  destruct (when (portforwarding f) (startPortForwarding W) s2) as [[[]|msg|msg|] s3];
    simpl in Hpf; [|split; [done|intros ??? Hin; by apply Hout in Hin]..].
  assert (forall (s4 : State) (r : Outcome unit * State) (stops : list Event),
            Forall (fun e => forall podName container command,
                      e <> CallExec podName container command) (trace s4) ->
            Forall (fun e => forall podName container command,
                      e <> CallExec podName container command) stops ->
            fst r = fst (enterTerminal W s4) ->
            trace (snd r) = trace (snd (enterTerminal W s4)) ++ stops ->
            (fst r = Ret tt ->
             exists podName container command,
               CallExec podName container command ∈ trace (snd r)) /\
            (forall podName container command,
               CallExec podName container command ∈ trace (snd r) ->
               match terminal_exec W command with
               | None | Some (_, true) => fst r = Ret tt
               | Some (err, false) =>
                   fst r = Fatal ("Unable to start terminal session: " +:+ Go.Error err)
               end)) as Hterminal.
  { intros s4 r stops Hs4 Hstops -> Htrace. rewrite Htrace.
    destruct (enterTerminal_run s4)
      as [[msg Hpanic]|(podName & container & command & Hsnd & Houtcome)].
    - rewrite Hpanic. simpl. split; [done|].
      intros ??? [Hin|Hin]%elem_of_app; by apply Hout in Hin.
    - rewrite Hsnd. simpl. split.
      + intros _. exists podName, container, command.
        rewrite !elem_of_app, list_elem_of_singleton. auto.
      + intros podName' container' command' [Hin|Hin]%elem_of_app;
          [|by apply Hout in Hin].
        apply elem_of_app in Hin as [Hin|Hin]; [by apply Hout in Hin|].
        apply list_elem_of_singleton in Hin as [= -> -> ->]. exact Houtcome. }
  destruct (sync f).
  - rewrite run_bind.
    destruct (footprint_startSync W
                (fun e => forall podName container command,
                            e <> CallExec podName container command) false
                ltac:(by intros []) ltac:(done) s3) as [(events & Ht & Hev) _].
    destruct (startSync W s3) as [[syncConfigs|msg|msg|] s4]; simpl in Ht.
    2-4: split; [done|]; intros ??? Hin; simpl in Hin; rewrite Ht in Hin;
      apply Hout in Hin; [done|by apply Forall_app].
    destruct (defer_stops syncConfigs (enterTerminal W) s4) as [Hfst Htrace].
    eapply (Hterminal s4); [rewrite Ht; by apply Forall_app| |exact Hfst|exact Htrace].
    destruct (fst (enterTerminal W s4)); try constructor.
    all: apply Forall_forall; intros e (v & -> & _)%list_elem_of_fmap; done.
  - apply (Hterminal s3 _ []); [done|constructor|done|by rewrite app_nil_r].
Qed.

End Connect.

(** X21. The flags switch the phases of [Run] off: in every run, a
    build engine is called only with [build] set; the port forwarder
    only with [portforwarding] set; a sync is started or stopped only
    with [sync] set; the internal registry is initialised and a pull
    secret created only with [initRegistries] set; and the chart of the
    release is installed ([InstallChartByPath], in [deployChart]) only
    with [build] or [deploy] set or after a lookup of the running pod
    that failed.  (The helm client itself is created in every run that
    gets as far, whatever the flags.) *)
Theorem X21_flags_switch_phases_off (W : World) (f : UpCmdFlags) (c : Config)
    (fuel : nat) :
  Forall (fun e => mayEmit W f e = true) (trace (snd (Run W fuel (initial f c)))).
Proof.
  destruct (Run_shape W (fun e => mayEmit W f e = true) f) with (c := c) (fuel := fuel)
    as [[Htrace _]|(s2 & -> & Htrace)]; try done.
  - by intros [].
  - intros Hcond ? ?. exact Hcond.
  - destruct (footprint_connect W (fun e => mayEmit W f e = true) false f) with (s := s2)
      as [(events & -> & Hev) _]; try done.
    + by intros [].
    + by apply Forall_app.
Qed.

(** X22. With [sync] set: when [Run] returns, the last thing it has
    done is to stop the syncs it started, each of them once and in the
    order in which they were started, and it has stopped none before
    (so it stops nothing where it started none); when it exits in
    [log.Fatal] no sync is stopped. *)
Theorem X22_sync_is_stopped_when_run_returns (W : World) (f : UpCmdFlags)
    (c : Config) (fuel : nat) :
  sync f = true ->
  (fst (Run W fuel (initial f c)) = Ret tt ->
   exists before : list Event,
     trace (snd (Run W fuel (initial f c))) = before ++ stopsOwed before /\
     Forall (fun e => isStop e = false) before) /\
  (forall msg : string,
     fst (Run W fuel (initial f c)) = Fatal msg ->
     Forall (fun e => isStop e = false) (trace (snd (Run W fuel (initial f c))))).
Proof.
  intros Hsync.
  destruct (Run_shape W (fun e => isStart e = false /\ isStop e = false) f)
    with (c := c) (fuel := fuel)
    as [[Htrace Hnot]|(s2 & -> & Htrace)]; try done.
  - by intros [].
  - split; [done|]. intros msg _. eapply Forall_impl; [done|]. by intros ? [].
  - by apply connect_sync.
Qed.

(** A run with three paths to sync: no pod is found for the first, and
    the other two are synced into the pod that runs; the run comes back
    from the shell and stops the two syncs. *)
Lemma X22_witness :
  (exists before : list Event,
     trace (snd (Run (Scenario.world Scenario.steadyCluster false
                        (Some Scenario.readyPod, None)) 30
                     (initial UpFlagsDefault Scenario.syncedConfig)))
     = before ++ stopsOwed before /\
     Forall (fun e => isStop e = false) before) /\
  trace (snd (Run (Scenario.world Scenario.steadyCluster false
                     (Some Scenario.readyPod, None)) 30
                  (initial UpFlagsDefault Scenario.syncedConfig)))
  = [LogStartWait "Initializing helm client";
     LogDone "Initialized helm client";
     LogStopWait;
     LogStartWait "Creating image pull secret for registry: hub";
     CallCreatePullSecret "dev" "registry.example.com" "dev" "s3cret"
                          "noreply@devspace-cloud.com";
     LogStopWait;
     CallGetRunningDevSpacePod;
     CallStartSync "web-new-b" "/work/src" "/app";
     LogDone "Sync started on /work/src <-> /app";
     CallStartSync "web-new-b" "/work/src" "/app";
     LogDone "Sync started on /work/src <-> /app";
     CallExec "web-new-a" "app" ["sh"; "-c"; "command -v bash >/dev/null 2>&1 && exec bash || exec sh"];
     CallStopSync "web-new-b" "/work/src" "/app";
     CallStopSync "web-new-b" "/work/src" "/app"].
Proof.
  split.
  - refine (proj1 (X22_sync_is_stopped_when_run_returns
                     (Scenario.world Scenario.steadyCluster false
                        (Some Scenario.readyPod, None))
                     UpFlagsDefault Scenario.syncedConfig 30 eq_refl) _).
    vm_compute. reflexivity.
  - vm_compute. reflexivity.
Defined.

(** X23. [Run] returns only through the terminal: a run that returns
    has opened the shell in the pod; and once the shell was opened, the
    run returns when the session ends without error or with an exit
    code of the shell, and exits in [log.Fatal] on any other error of
    the session. *)
Theorem X23_run_returns_through_the_terminal (W : World) (f : UpCmdFlags)
    (c : Config) (fuel : nat) :
  (fst (Run W fuel (initial f c)) = Ret tt ->
   exists podName container command,
     CallExec podName container command ∈ trace (snd (Run W fuel (initial f c)))) /\
  (forall (podName container : string) (command : list string),
     CallExec podName container command ∈ trace (snd (Run W fuel (initial f c))) ->
     match terminal_exec W command with
     | None | Some (_, true) => fst (Run W fuel (initial f c)) = Ret tt
     | Some (err, false) =>
         fst (Run W fuel (initial f c))
         = Fatal ("Unable to start terminal session: " +:+ Go.Error err)
     end).
Proof.
  destruct (Run_shape W (fun e => forall podName container command,
                           e <> CallExec podName container command) f)
    with (c := c) (fuel := fuel) as [[Htrace Hnot]|(s2 & -> & Htrace)]; try done.
  - by intros [].
  - split; [done|]. intros podName container command Hin.
    eapply Forall_forall in Htrace; [|done]. by edestruct Htrace.
  - by apply connect_terminal.
Qed.

(** The same run: it has opened the shell in the container [app]. *)
Lemma X23_witness :
  exists (podName container : string) (command : list string),
    CallExec podName container command
      ∈ trace (snd (Run (Scenario.world Scenario.steadyCluster false
                           (Some Scenario.readyPod, None)) 30
                        (initial UpFlagsDefault
                           (Scenario.configOf [("web", Scenario.freshImage)]
                                              [Scenario.podMapping])))).
Proof.
  refine (proj1 (X23_run_returns_through_the_terminal
                   (Scenario.world Scenario.steadyCluster false
                      (Some Scenario.readyPod, None))
                   UpFlagsDefault
                   (Scenario.configOf [("web", Scenario.freshImage)]
                                      [Scenario.podMapping]) 30) _).
  vm_compute. reflexivity.
Defined.

(** X24. A namespace that can be neither found nor created ends the
    run: [Run] exits in [log.Fatal] with the error of the create call,
    after these two requests; nothing has been logged, and nothing but
    the init command (where no configuration existed) has been called:
    neither helm nor a build engine. *)
Theorem X24_namespace_failure_aborts_run (W : World) (f : UpCmdFlags) (c : Config)
    (fuel : nat) (dir : string) (client : Clientset) (lookupErr createErr : Go.error) :
  os_Getwd W = inr dir ->
  kubectl_NewClient W = inr client ->
  Namespaces_Get client 0 (Release_Namespace c) = Some lookupErr ->
  Namespaces_Create client 1 (Release_Namespace c) = Some createErr ->
  fst (Run W fuel (initial f c))
    = Fatal ("Unable to create release namespace: " +:+ Go.Error createErr) /\
  now (snd (Run W fuel (initial f c))) = 2%nat /\
  Forall (fun e => e = CallInit) (trace (snd (Run W fuel (initial f c)))).
Proof.
  intros Hwd Hclient Hget Hcreate. unfold Run. rewrite Hwd.
  unfold setWorkdir, setKubectl. mrun.
  destruct (configutil_ConfigExists W); unfold when, negb; mrun.
  all: rewrite Hclient; mrun.
  all: rewrite (ensureNamespace_run client) by reflexivity.
  all: cbn [now config withCmd record initial]; rewrite Hget, Hcreate; mrun.
  all: repeat split; simpl; by repeat constructor.
Qed.

(** The creation race: the namespace is created by another client
    between the lookup and the create call. *)
Lemma X24_witness :
  fst (Run (Scenario.world Scenario.raceCluster false (None, None)) 30
           (initial UpFlagsDefault (Scenario.configOf [] [])))
  = Fatal "Unable to create release namespace: namespaces dev already exists".
Proof.
  refine (proj1 (X24_namespace_failure_aborts_run
                   (Scenario.world Scenario.raceCluster false (None, None))
                   UpFlagsDefault (Scenario.configOf [] []) 30
                   "/work" Scenario.raceCluster
                   (NewNotFound "namespaces" "dev")
                   (NewAlreadyExists "namespaces" "dev")
                   eq_refl eq_refl _ _)).
  - reflexivity.
  - reflexivity.
Defined.
